(* ===== verification/_CoqProject ===== *)
-Q . S2P
Prelude.v
GoStd.v
Store.v
Redis.v
Analytics.v
Engine.v
RateLimit.v
DnsServer.v
Proxy.v
Admin.v
Frontends.v
Config.v
Database.v
Concurrent.v
