(* ===== verification/Prelude.v ===== *)
(** * A verification library for namex (goflare): the edge decision engine
      and its telemetry pipeline

    The program (Go, under [src/internal/]) sits in front of tenant sites
    ("domains").  Each DNS query ([dns/server.go]) and each HTTP request
    ([proxy/handler.go]) goes through the decision engine
    ([engine/engine.go]), which reads the domain table and the bot rules from
    Postgres ([domain/repository.go], [bot/repository.go]), keeps a
    fixed-window rate-limit counter per (domain, client IP) in Redis, and
    answers ALLOW or BLOCK.  The front-end then serves or refuses the unit of
    work and hands one telemetry event to the analytics repository
    ([analytics/repository.go]), a bounded channel drained by one worker
    goroutine that writes batches to ClickHouse.

    ** Files, in dependency order

    - [Prelude] (this file): the [result] error monad standing for Go's
      [(T, error)] returns, with stdpp's [x ← m; k] notation; Go's
      fixed-width integers ([int64], the [int32(...)] conversion) as [Z]
      with their ranges and wrap-around; the [namex] hint database and the
      tactics shared by all files.
    - [GoStd]: the Go standard-library functions the code relies on and
      whose behaviour matters to the theorems, modelled from the Go
      library's own definitions: [net.SplitHostPort] / [net.JoinHostPort],
      [fmt.Sprintf("%d")] on [int], [strings.ToLower] on ASCII,
      [strings.HasSuffix], [strings.TrimSuffix].  Round trips (split of a
      join, decimal printing is injective).
    - [Store]: the Postgres collaborators as tables ([Db]): [Domain] and
      [BotRule] rows, [DnsRecord] rows of the DNS zone, the repositories'
      [GetByName], [GetAll], [GetRecordsByNameAndType], [Create], [Delete].
      The Go [Repository] interfaces of [domain] and [bot] are classes,
      the Postgres repositories their instances ([NewRepository]), and the
      services ([CreateDomain], [GetDomain], [ListDomains], [AddRule],
      [ListRules]) are written against the classes, as the Go [Service]
      holds an interface; the DNS server reaches its records through
      the [dns.Repository] class likewise.  [domain.RepositoryLaws] is the contract a
      repository keeps for its clients ([Create] then [GetAll] or
      [GetByName]); the Postgres instance discharges it.  The database
      connection can fail: every read returns a [result].
    - [Redis]: the counter store.  The [CounterStore] class is the interface
      the engine is proved against (INCR and EXPIRE with their laws,
      [CounterStoreLaws]); the [Redis] module implements it with a [gmap] of
      counters with optional expiry deadlines, a clock, 64-bit overflow of
      INCR, and an explicit list of injected network faults, and the
      instance discharges the laws.
    - [Engine] ([engine/engine.go]): [Decision], [checkRateLimit],
      [AnalyzeIP], [Analyze], [LogRequest], [LogDNSQuery], as functions of
      the database and any lawful counter store.  Theorems: rule matching
      before rate limiting, the 100-per-window limit, the short circuit on
      unknown or inactive domains (the counter store untouched), fail-open
      on store errors, key separation between (domain, IP) pairs; every
      result of [Analyze] is well formed ([decision_wf]: the lookup error
      or ALLOW/BLOCK with a consistent domain and reason, never
      CHALLENGE), and [Analyze] reads only the host and the client address
      of a request ([same_client], an equivalence).  Over [Redis],
      [checkRateLimit] refines the specification's fixed-window contract
      ([FixedWindow.hit]): along any timed calls on any pairs, the
      verdicts are the contract's, through the simulation [window_rel]
      (Redis stores each window's count with the deadline its first call
      set).
    - [RateLimit]: the engine over the [Redis] implementation, with time:
      the window resets after 60 seconds, the 200-call burst across a
      window boundary, and a lost EXPIRE that is never retried.
    - [Analytics] ([analytics/repository.go]): the telemetry pipeline as a
      state machine: [Log] (a non-blocking send with drop on a full
      channel, a panic after [Close]), [Close], and the worker's [select]
      as a nondeterministic step relation (receive, tick, channel closed)
      with [flush] and [writeBatch].  Theorems: the invariant of every
      reachable state (channel and batch bounds, the table holds exactly
      the rows of successful writes), conservation and order of events,
      [Log] never blocks (it accepts, drops on a full channel, or panics
      after [Close]), size-triggered and time-triggered flushes, termination of the
      worker (its state-changing iterations are well founded, by the
      measure [worker_measure]) and completeness of the drain after
      [Close], the [int32] wrap of stored ids.
    - [DnsServer] ([dns/server.go]): [handleRequest], [parseQuery], the
      A/CNAME/TXT/MX handlers and [handleCustomRecords], over the parts of
      [miekg/dns] they use ([Msg], [SetReply], [TypeToString]) and a
      [ZoneParser] interface for [dns.NewRR].  Theorems: the reply
      (REFUSED exactly on BLOCK, otherwise the answers to the first
      question), which queries are rate-limited and recorded, the only
      failure (a panic after [Close]), managed A records, case-insensitive
      names, inactive domains still served.
    - [Proxy] ([proxy/handler.go]): [ServeHTTP] and [responseWrapper] over
      [engine.Analyze], a [URLParser] interface for [url.Parse] and the
      upstream as a function.  Theorems: 403 on BLOCK with one event and no
      upstream call, forwarding with the status recorded, which answers
      leave no event, only allowed requests reach the upstream, the 404
      fallback.
    - [Admin] ([domain/handler.go], [bot/handler.go]): the handlers'
      [Create], [List] and [RegisterRoutes] over the services, with
      [encoding/json] as [Decoder]/[Encoder] interfaces and chi's dispatch
      on exact patterns; the admin router carries both handlers' routes.
      Theorems: the status of [POST /domains] (400 only for an undecodable
      body, 201 only for a stored row, a validation failure answered 500),
      a posted domain listed by [GET /domains] and found by [GetDomain] on
      any lawful repository, and the composition of the admin API with the
      engine and the proxy: a rule posted to [/bot/rules] makes the proxy
      answer 403 to that address.
    - [Frontends]: the DNS server and the proxy together.  Both key the
      engine's counter by (domain id, client host) only, so a client's DNS
      queries and HTTP requests for one site spend one window's budget:
      after a counted query, the next HTTP request gets the decision of
      the count two above the one before the query.
    - [Config] ([config/config.go]): [Load], [getEnv], [getEnvInt] over the
      environment as a [gmap], [godotenv.Load] and [strconv.Atoi].
      Theorems: where each setting comes from, [REDIS_DB] read back.
    - [Database] ([database/database.go]): [New] and [Close] with the
      drivers' answers as inputs and the open connections as state.
      Theorems: which connections [New] leaves open on each path (the
      early returns leak), [Close] closes what a successful [New] opened,
      the DSN is ambiguous.

    - [Concurrent]: concurrent calls of [checkRateLimit] as threads of
      their two atomic store operations, interleaved by any schedule.
      Theorems: concurrent calls for one pair see the counts
      [c+1 .. c+n] in some order and are allowed exactly as a sequential
      run would be (the atomic increment the specification requires); on
      Redis, the window they open gets its 60-second deadline whatever
      calls come between the opener's INCR and its EXPIRE.  A lemma shows
      that a thread alone takes the steps of [checkRateLimit].

    ** Bounds and fuel

    The constants are the code's: 100 calls per 60-second window, a channel
    of 10000 events, batches of 1000, ids and status codes stored as
    [int32] (wrapped), counters as [int64] (INCR fails on overflow).  The
    refinement of the fixed window holds while no count reaches
    [int64_max]: its hypothesis [B + length tr < int64_max] bounds the
    counts by the calls made, since each call adds one.  The
    only fuel is [analytics.drain]'s: after [Close] the worker needs one
    receive per event still in the channel plus the final one that flushes
    and closes [done], so [length logChan + 1] is enough, and the theorem
    about the drain proves that it is ([done] is closed within it).
    Independently of fuel, [worker_terminates] proves that the worker's
    iterations that change the state are well founded (two units of
    [worker_measure] per queued event, one for a non-empty batch, one
    until [done]); only a tick on an empty batch can repeat, which the
    five-second ticker of the code spaces out.  Every other definition is
    structural; witnesses evaluate with [vm_compute].
    A concurrent call needs two steps (INCR, then EXPIRE when it opened
    the window), so a schedule in which each call occurs twice finishes
    them all; [run_finishes] proves it.  The Redis model's clock counts
    whole seconds and a key is dead from its deadline on ([Redis.live]:
    [now < deadline]); Redis itself keeps a key through its deadline
    millisecond, so the model reads the counter at exactly 60 seconds
    after the window opened as expired, a boundary of one clock tick.

    ** Not modelled

    Process wiring (the repository has no [cmd/]: no code builds the
    routers or starts the servers; the admin router of [Admin] is the
    composition of the two [RegisterRoutes]), JSON syntax (the
    [Decoder]/[Encoder] interfaces stand for [encoding/json]; the
    witnesses use example codecs), chi's pattern syntax beyond exact
    paths, the [Handler] and [Service] structs (a pointer to the service,
    the repository interface), the SQL text, the DNS wire format, the
    zone-file syntax of [dns.NewRR] and the [.env] syntax (given as
    interfaces or inputs),
    the drivers of Postgres, Redis and ClickHouse, and log lines other
    than the analytics repository's.  The constructors that only store
    their arguments ([NewEngine], [NewServer], the proxy's [NewHandler])
    are the arguments of the functions that model the methods;
    [NewServer]'s [dns.ServeMux] on ["."] and [Start] are the library's
    UDP listener, whose handling of a query without a question depends on
    the [miekg/dns] version, which the repository does not pin.  The
    [analytics.Repository] interface has one implementation, which the
    engine's [LogRequest] and [LogDNSQuery] call directly; the [Engine]
    struct's two repository fields are one [Db] in the model, as both
    read the one Postgres pool of [database.New]; a model with two
    databases would change every statement about [Analyze] without
    describing anything the program does.  The constructors and structs
    above are all the code of [src/] the map does not cover.  The manifest lists them. *)

From stdpp Require Export base list gmap strings.
From Stdlib Require Export ZArith Lia.

Declare Scope namex_scope.
Delimit Scope namex_scope with nx.
Open Scope Z_scope.

Create HintDb namex.
Create Rewrite HintDb namex_rw.

(** ** Go's [(T, error)] returns *)

(** A Go function returning [(T, error)] is a [result T]: [Err msg] stands
    for a non-nil [error] whose message is [msg]. *)
Inductive result (A : Type) : Type :=
| Ok (a : A)
| Err (msg : string).
Arguments Ok {A} _.
Arguments Err {A} _.

#[export] Instance result_ret : MRet result := λ A a, Ok a.
#[export] Instance result_bind : MBind result :=
  λ A B f m, match m with Ok a => f a | Err e => Err e end.
#[export] Instance result_fmap : FMap result :=
  λ A B f m, match m with Ok a => Ok (f a) | Err e => Err e end.

Definition is_ok {A} (r : result A) : bool :=
  match r with Ok _ => true | Err _ => false end.

(** The value of a result, the error dropped. *)
Definition to_option {A} (r : result A) : option A :=
  match r with Ok a => Some a | Err _ => None end.

Notation "'go_err' s" := (@Err _ s%string) (at level 10) : namex_scope.

(** ** Fixed-width integers *)

(** Go's [int] and [int64] are 64-bit two's complement; Redis counters are
    signed 64-bit too. *)
Definition int64_min : Z := - 2 ^ 63.
Definition int64_max : Z := 2 ^ 63 - 1.
Definition in_int64 (z : Z) : bool := (int64_min <=? z) && (z <=? int64_max).

Definition int32_min : Z := - 2 ^ 31.
Definition int32_max : Z := 2 ^ 31 - 1.

(** Go's conversion [int32(x)] keeps the low 32 bits, read as signed. *)
Definition wrap_int32 (z : Z) : Z := (z + 2 ^ 31) mod 2 ^ 32 - 2 ^ 31.

(** ** Lemmas on results and integers *)

Lemma result_bind_ok {A B} (a : A) (f : A → result B) : (Ok a ≫= f) = f a.
Proof. reflexivity. Qed.

Lemma result_bind_err {A B} (e : string) (f : A → result B) :
  (Err e ≫= f) = Err e.
Proof. reflexivity. Qed.

Lemma result_bind_Ok_inv {A B} (m : result A) (f : A → result B) b :
  (m ≫= f) = Ok b → ∃ a, m = Ok a ∧ f a = Ok b.
Proof. destruct m; simpl; [eauto | discriminate]. Qed.

#[export] Hint Rewrite @result_bind_ok @result_bind_err : namex_rw.

Lemma wrap_int32_range z : int32_min ≤ wrap_int32 z ≤ int32_max.
Proof.
  unfold wrap_int32, int32_min, int32_max.
  pose proof (Z.mod_pos_bound (z + 2 ^ 31) (2 ^ 32) ltac:(lia)). lia.
Qed.

Lemma wrap_int32_small z : int32_min ≤ z ≤ int32_max → wrap_int32 z = z.
Proof.
  unfold wrap_int32, int32_min, int32_max. intros Hz.
  rewrite Z.mod_small by lia. lia.
Qed.

Lemma wrap_int32_period z k : wrap_int32 (z + k * 2 ^ 32) = wrap_int32 z.
Proof.
  unfold wrap_int32.
  replace (z + k * 2 ^ 32 + 2 ^ 31) with (z + 2 ^ 31 + k * 2 ^ 32) by lia.
  rewrite Z.mod_add by lia. reflexivity.
Qed.

#[export] Hint Resolve wrap_int32_range wrap_int32_small : namex.

(** ** Strings and lists *)

Lemma string_eqb_true (s t : string) : String.eqb s t = true ↔ s = t.
Proof. apply String.eqb_eq. Qed.

Lemma string_eqb_refl' (s : string) : String.eqb s s = true.
Proof. apply String.eqb_refl. Qed.

#[export] Hint Rewrite string_eqb_refl' : namex_rw.

(** Go's [for _, x := range xs { if p(x) { return ... } }] returns on the
    first element that satisfies [p]: that is [List.find]. *)
Lemma find_app_none {A} (p : A → bool) (l1 l2 : list A) :
  List.find p l1 = None → List.find p (l1 ++ l2) = List.find p l2.
Proof.
  induction l1 as [|x l1 IH]; simpl; [done|].
  destruct (p x); [discriminate | exact IH].
Qed.

(** [omap] and [filter] on lists. *)
Lemma omap_insert_perm {A B} (f : A → option B) (ts : list A) i t x :
  ts !! i = Some t →
  omap f (<[i:=x]> ts) ++ option_list (f t) ≡ₚ omap f ts ++ option_list (f x).
Proof.
  revert i. induction ts as [|y ts IH]; intros [|i] Hi; simplify_eq/=.
  - destruct (f x), (f t); simpl; rewrite ?app_nil_r, ?(Permutation_app_comm (omap f ts));
      simpl; try done. apply Permutation_swap.
  - specialize (IH i Hi). destruct (f y); simpl; [|done]. by constructor.
Qed.

Lemma omap_length_le {A B} (f : A → option B) (ts : list A) :
  (length (omap f ts) ≤ length ts)%nat.
Proof. induction ts as [|y ts IH]; simpl; [lia|]. destruct (f y); cbn in *; unfold omap in IH; lia. Qed.

Lemma omap_length_lt {A B} (f : A → option B) (ts : list A) i t :
  ts !! i = Some t → f t = None → (length (omap f ts) < length ts)%nat.
Proof.
  revert i. induction ts as [|y ts IH]; intros [|i] Hi Hf; simplify_eq/=.
  - rewrite Hf. pose proof (omap_length_le f ts). lia.
  - specialize (IH i Hi Hf). destruct (f y); simpl; lia.
Qed.

Lemma omap_replicate_none {A B} (f : A → option B) n x :
  f x = None → omap f (replicate n x) = [].
Proof. intros Hf. induction n as [|n IH]; simpl; [done|]. by rewrite Hf. Qed.

Lemma omap_ext_Forall {A B} (f g : A → option B) l :
  Forall (λ x, f x = g x) l → omap f l = omap g l.
Proof. induction 1 as [|x l Hx _ IH]; [done|]. cbn. by rewrite Hx, IH. Qed.

Lemma length_omap_Some {A B} (f : A → option B) l :
  Forall (λ x, is_Some (f x)) l → length (omap f l) = length l.
Proof. induction 1 as [|x l [y Hy] _ IH]; [done|]. cbn. rewrite Hy. cbn. by rewrite IH. Qed.

Lemma omap_lookup_cons {A B} (f : A → option B) (ts : list A) i t x :
  ts !! i = Some t → f t = Some x → omap f ts ≠ [].
Proof.
  intros Hi Hf He. assert (Hin : x ∈ omap f ts) by (apply list_elem_of_omap; exists t;
    split; [by eapply list_elem_of_lookup_2 | done]).
  rewrite He in Hin. by apply not_elem_of_nil in Hin.
Qed.

(** Two positions of a list whose images under [f] are one element of a
    duplicate-free [omap f] are one position. *)
Lemma omap_NoDup_lookup {A B} (f : A → option B) (ts : list A) i j a b x :
  NoDup (omap f ts) → ts !! i = Some a → ts !! j = Some b → f a = Some x → f b = Some x → i = j.
Proof.
  revert i j. induction ts as [|y ts IH]; intros [|i] [|j] Hnd Hi Hj Ha Hb; simplify_eq/=; try done.
  - rewrite Ha in Hnd. apply NoDup_cons in Hnd as [Hn _]. destruct Hn.
    apply list_elem_of_omap. exists b. split; [by eapply list_elem_of_lookup_2 | done].
  - rewrite Hb in Hnd. apply NoDup_cons in Hnd as [Hn _]. destruct Hn.
    apply list_elem_of_omap. exists a. split; [by eapply list_elem_of_lookup_2 | done].
  - f_equal. apply (IH i j); [|done..]. destruct (f y); [by apply NoDup_cons in Hnd as [_ ?] | done].
Qed.

Lemma existsb_insert_false {A} (p : A → bool) (ts : list A) i t x :
  ts !! i = Some t → p t = false → p x = false → existsb p (<[i:=x]> ts) = existsb p ts.
Proof.
  revert i. induction ts as [|y ts IH]; intros [|i] Hi Ht Hx; simplify_eq/=; [by rewrite Ht, Hx|].
  by rewrite (IH i).
Qed.

Lemma existsb_lookup_true {A} (p : A → bool) (ts : list A) i t :
  ts !! i = Some t → p t = true → existsb p ts = true.
Proof.
  intros Hi Ht. apply existsb_exists. exists t.
  split; [apply list_elem_of_In; by eapply list_elem_of_lookup_2 | done].
Qed.

Lemma existsb_insert_true {A} (p : A → bool) (ts : list A) i t x :
  ts !! i = Some t → p x = true → existsb p (<[i:=x]> ts) = true.
Proof.
  intros Hi Hx. apply (existsb_lookup_true p _ i x); [|done].
  apply list_lookup_insert_eq. by eapply lookup_lt_Some.
Qed.

Lemma length_filter_map {A B} (P : B → Prop) `{∀ x, Decision (P x)} (g : A → B) l :
  length (filter P (map g l)) = length (filter (λ x, P (g x)) l).
Proof.
  induction l as [|x l IH]; simpl; [done|]. rewrite !filter_cons. by case_decide; simpl; rewrite IH.
Qed.

Lemma find_app_some {A} (p : A → bool) (l1 l2 : list A) y :
  List.find p l1 = Some y → List.find p (l1 ++ l2) = Some y.
Proof.
  induction l1 as [|x l1 IH]; simpl; [done|]. by destruct (p x).
Qed.

Lemma find_In_true {A} (p : A → bool) (l : list A) (x : A) :
  In x l → p x = true → ∃ y, List.find p l = Some y.
Proof.
  intros Hin Hp. destruct (List.find p l) as [y|] eqn:E; [eauto|].
  exfalso. pose proof (List.find_none p l E x Hin). congruence.
Qed.

(** [List.find] returns the first element that passes, after a prefix of
    elements that fail. *)
Lemma find_Some_split {A} (p : A → bool) (l : list A) (y : A) :
  List.find p l = Some y →
  ∃ pre post, l = pre ++ y :: post ∧ Forall (λ x, p x = false) pre ∧ p y = true.
Proof.
  induction l as [|x l IH]; simpl; [discriminate|].
  destruct (p x) eqn:Hp.
  - intros [=<-]. by exists [], l.
  - intros H. destruct (IH H) as (pre & post & -> & Hpre & Hy).
    exists (x :: pre), post. split_and!; [done | by constructor | done].
Qed.

(** ** Tactics *)

(** Split every boolean [if]/[match] of the goal on its scrutinee, naming
    the equation, and simplify. *)
Ltac go_cases :=
  repeat (case_match; simplify_eq/=; try done).

(** Turn the [String.eqb], [Z.eqb], [Z.leb] tests of hypotheses into
    propositions. *)
Ltac go_bool :=
  repeat match goal with
  | H : String.eqb _ _ = true |- _ => apply String.eqb_eq in H; subst
  | H : String.eqb _ _ = false |- _ => apply String.eqb_neq in H
  | H : Z.eqb _ _ = true |- _ => apply Z.eqb_eq in H
  | H : Z.eqb _ _ = false |- _ => apply Z.eqb_neq in H
  | H : Z.leb _ _ = true |- _ => apply Z.leb_le in H
  | H : Z.leb _ _ = false |- _ => apply Z.leb_gt in H
  | H : Z.ltb _ _ = true |- _ => apply Z.ltb_lt in H
  | H : Z.ltb _ _ = false |- _ => apply Z.ltb_ge in H
  | H : Nat.leb _ _ = true |- _ => apply Nat.leb_le in H
  | H : Nat.leb _ _ = false |- _ => apply Nat.leb_gt in H
  | H : Nat.ltb _ _ = true |- _ => apply Nat.ltb_lt in H
  | H : Nat.ltb _ _ = false |- _ => apply Nat.ltb_ge in H
  | H : (_ && _)%bool = true |- _ => apply andb_prop in H as [? ?]
  | H : negb _ = true |- _ => apply negb_true_iff in H
  | H : negb _ = false |- _ => apply negb_false_iff in H
  end.

(** Close a hypothesis of a property at a concrete input by evaluation. *)
Ltac concrete :=
  solve [ reflexivity | lia | (vm_compute; reflexivity) | (vm_compute; congruence)
        | (vm_compute; lia) | (split; concrete) | (constructor; concrete) ].
