(* ===== verification/GoStd.v ===== *)
(** * Go standard-library functions the program relies on

    These are not code of the repository: they are the Go library functions
    whose results the engine and the DNS server branch on, modelled after
    the Go library's definitions ([net/ipsock.go] for [SplitHostPort] and
    [JoinHostPort], [strconv] for the decimal printing of [%d], [strings]
    for [ToLower] and [TrimSuffix]).  Strings are byte strings, as in Go:
    [SplitHostPort] works on [list ascii], one [ascii] per byte. *)

From S2P Require Import Prelude.
From Stdlib Require Import Ascii DecimalString DecimalZ.
From Stdlib Require String.

Local Open Scope char_scope.

Module GoStd.

(** ** Byte search *)

(** [bytealg.IndexByteString s c]: the first index of [c], or [-1]
  (here [None]). *)
Fixpoint index_byte (c : ascii) (s : list ascii) : option nat :=
match s with
| [] => None
| x :: s' => if Ascii.eqb x c then Some 0%nat
             else S <$> index_byte c s'
end.

(** [bytealg.LastIndexByteString s c]. *)
Definition last_index_byte (c : ascii) (s : list ascii) : option nat :=
match index_byte c (reverse s) with
| Some j => Some (length s - 1 - j)%nat
| None => None
end.

Definition byte_at (s : list ascii) (n : nat) : ascii := nth n s "000".

(** ** [net.SplitHostPort] *)

Definition missingPort : string := "missing port in address".
Definition tooManyColons : string := "too many colons in address".

(** [&AddrError{Err: why, Addr: addr}]; its [Error()] text. *)
Definition addrErr {A} (addr why : string) : result A :=
Err ("address " +:+ addr +:+ ": " +:+ why)%string.

(** The bracket checks and the final slicing, after [host], [j] and [k]
  have been chosen. *)
Definition split_tail (hostport : string) (hp : list ascii) (i j k : nat)
  (host : list ascii) : result (string * string) :=
match index_byte "[" (drop j hp) with
| Some _ => addrErr hostport "unexpected '[' in address"
| None =>
  match index_byte "]" (drop k hp) with
  | Some _ => addrErr hostport "unexpected ']' in address"
  | None => Ok (String.string_of_list_ascii host, String.string_of_list_ascii (drop (S i) hp))
  end
end.

(** [hostport[0] == '[']. *)
Definition starts_with (c : ascii) (s : list ascii) : bool :=
match s with
| x :: _ => Ascii.eqb x c
| [] => false
end.

Definition SplitHostPort (hostport : string) : result (string * string) :=
let hp := String.list_ascii_of_string hostport in
match last_index_byte ":" hp with
| None => addrErr hostport missingPort
| Some i =>
  if starts_with "[" hp then
    match index_byte "]" hp with
    | None => addrErr hostport "missing ']' in address"
    | Some end_ =>
      if Nat.eqb (S end_) (length hp) then addrErr hostport missingPort
      else if Nat.eqb (S end_) i then
        split_tail hostport hp i 1 (S end_) (take (end_ - 1) (drop 1 hp))
      else if Ascii.eqb (byte_at hp (S end_)) ":"
      then addrErr hostport tooManyColons
      else addrErr hostport missingPort
    end
  else
    let host := take i hp in
    match index_byte ":" host with
    | Some _ => addrErr hostport tooManyColons
    | None => split_tail hostport hp i 0 0 host
    end
end.

(** [net.JoinHostPort]: a host with a colon is taken for an IPv6 literal
  and bracketed. *)
Definition JoinHostPort (host port : string) : string :=
match index_byte ":" (String.list_ascii_of_string host) with
| Some _ => "[" +:+ host +:+ "]:" +:+ port
| None => host +:+ ":" +:+ port
end%string.

(** The engine and the DNS server write [clientIP, _, _ := SplitHostPort(a)]:
  on an error the host is Go's zero value, the empty string. *)
Definition host_of (addr : string) : string :=
match SplitHostPort addr with
| Ok (h, _) => h
| Err _ => ""%string
end.

(** ** [fmt.Sprintf("%d", n)] / [strconv.Itoa] *)

Definition itoa (z : Z) : string := NilEmpty.string_of_int (Z.to_int z).

(** ** [strings.ToLower] and [strings.TrimSuffix] *)

(** ASCII case folding, which is what [strings.ToLower] does on the ASCII
  strings of DNS names; bytes outside ['A'..'Z'] are unchanged. *)
Definition lower_byte (c : ascii) : ascii :=
let n := nat_of_ascii c in
if (65 <=? n)%nat && (n <=? 90)%nat then ascii_of_nat (n + 32) else c.

Definition ToLower (s : string) : string :=
String.string_of_list_ascii (map lower_byte (String.list_ascii_of_string s)).

Definition HasSuffix (s suffix : string) : bool :=
let n := String.length s in
let m := String.length suffix in
(m <=? n)%nat && String.eqb (String.substring (n - m) m s) suffix.

Definition TrimSuffix (s suffix : string) : string :=
if HasSuffix s suffix
then String.substring 0 (String.length s - String.length suffix) s
else s.

(** ** Lemmas *)

Lemma list_ascii_of_string_app (s t : string) :
String.list_ascii_of_string (s +:+ t) =
String.list_ascii_of_string s ++ String.list_ascii_of_string t.
Proof. induction s as [|a s IH]; simpl; [done | by rewrite IH]. Qed.

Lemma index_byte_None c s : index_byte c s = None ↔ c ∉ s.
Proof.
induction s as [|x s IH]; simpl.
- split; [intros _; apply not_elem_of_nil | done].
- rewrite not_elem_of_cons. destruct (Ascii.eqb_spec x c) as [->|Hne].
  + split; [discriminate | intros [[] _]; done].
  + destruct (index_byte c s); simpl; split; try done.
    * intros [_ ?]. apply IH in H. discriminate.
    * intros _. split; [congruence | by apply IH].
Qed.

Lemma index_byte_app_first c l1 l2 :
c ∉ l1 → index_byte c (l1 ++ c :: l2) = Some (length l1).
Proof.
induction l1 as [|x l1 IH]; simpl; intros Hc.
- by rewrite Ascii.eqb_refl.
- apply not_elem_of_cons in Hc as [Hx Hc].
  destruct (Ascii.eqb_spec x c); [congruence|]. by rewrite IH.
Qed.

Lemma index_byte_app_None c l1 l2 :
c ∉ l1 → c ∉ l2 → index_byte c (l1 ++ l2) = None.
Proof. intros. apply index_byte_None. set_solver. Qed.

Lemma last_index_byte_app c l1 l2 :
c ∉ l2 → last_index_byte c (l1 ++ c :: l2) = Some (length l1).
Proof.
intros Hc. unfold last_index_byte.
rewrite reverse_app, reverse_cons, <- app_assoc. simpl.
rewrite index_byte_app_first by (by rewrite elem_of_reverse).
f_equal. rewrite length_app, !length_reverse. simpl. lia.
Qed.

(** Decimal printing is injective: [strconv.Itoa] has a left inverse,
  [strconv.Atoi]. *)
Lemma itoa_inj a b : itoa a = itoa b → a = b.
Proof.
unfold itoa. intros H.
apply (f_equal NilEmpty.int_of_string) in H. rewrite !NilEmpty.isi in H.
injection H as H. apply (f_equal Z.of_int) in H. by rewrite !DecimalZ.of_to in H.
Qed.

Lemma string_of_uint_no_colon u :
":" ∉ String.list_ascii_of_string (NilEmpty.string_of_uint u).
Proof.
induction u; simpl; try apply not_elem_of_nil;
  apply not_elem_of_cons; split; done.
Qed.

(** A printed integer has no [':']: digits and a leading ['-'] only. *)
Lemma itoa_no_colon z : ":" ∉ String.list_ascii_of_string (itoa z).
Proof.
unfold itoa. destruct (Z.to_int z) as [u|u]; simpl.
- apply string_of_uint_no_colon.
- apply not_elem_of_cons. split; [done | apply string_of_uint_no_colon].
Qed.

Lemma append_inv_l (s a b : string) : (s +:+ a = s +:+ b)%string → a = b.
Proof. induction s as [|c s IH]; simpl; [done|]. intros H. injection H as H. auto. Qed.

(** Two strings joined by a [':'] that neither left part contains split
  back uniquely. *)
Lemma append_colon_inj (a b c d : string) :
":" ∉ String.list_ascii_of_string a → ":" ∉ String.list_ascii_of_string c →
(a +:+ String ":" b = c +:+ String ":" d)%string → a = c ∧ b = d.
Proof.
revert c. induction a as [|x a IH]; intros [|y c] Ha Hc H; simpl in H.
- by injection H as ->.
- injection H; intros; subst. simpl in Hc. set_solver.
- injection H; intros; subst. simpl in Ha. set_solver.
- injection H as -> H. simpl in Ha, Hc.
  apply not_elem_of_cons in Ha as [_ Ha]. apply not_elem_of_cons in Hc as [_ Hc].
  destruct (IH c Ha Hc H). by subst.
Qed.

Lemma drop_S_app_cons {A} (l1 l2 : list A) x :
drop (S (length l1)) (l1 ++ x :: l2) = l2.
Proof. induction l1; simpl; auto. Qed.

Lemma drop_SS_app_cons {A} (l1 l2 : list A) x y :
drop (S (S (length l1))) (l1 ++ x :: y :: l2) = l2.
Proof. induction l1; simpl; auto. Qed.

(** [SplitHostPort] undoes [JoinHostPort] when the host has no brackets and
  the port has neither colons nor brackets (an IPv4 address, a host name,
  or an IPv6 literal, with a numeric port). *)
Lemma SplitHostPort_JoinHostPort (host port : string) :
let h := String.list_ascii_of_string host in
let p := String.list_ascii_of_string port in
"[" ∉ h → "]" ∉ h → ":" ∉ p → "[" ∉ p → "]" ∉ p →
SplitHostPort (JoinHostPort host port) = Ok (host, port).
Proof.
intros h p Hh1 Hh2 Hp1 Hp2 Hp3.
assert (Hcb : ":"%char ≠ "["%char) by done.
assert (Hcc : ":"%char ≠ "]"%char) by done.
unfold JoinHostPort. fold h.
destruct (index_byte ":" h) as [n|] eqn:Hcol.
- (* a host with a colon is bracketed *)
  assert (Ehp : String.list_ascii_of_string ("[" +:+ host +:+ "]:" +:+ port)
                = ("[" :: h ++ "]" :: ":" :: p)%char).
  { rewrite !list_ascii_of_string_app. reflexivity. }
  assert (E1 : last_index_byte ":" ("[" :: h ++ "]" :: ":" :: p)
               = Some (S (S (length h)))).
  { replace ("[" :: h ++ "]" :: ":" :: p)%char
      with (("[" :: h ++ ["]"]) ++ ":" :: p)%char by (simpl; by rewrite <- app_assoc).
    rewrite last_index_byte_app by done. f_equal. simpl. rewrite length_app. simpl. lia. }
  assert (E3 : index_byte "]" ("[" :: h ++ "]" :: ":" :: p)
               = Some (S (length h))).
  { change (index_byte "]" ("[" :: h ++ "]" :: ":" :: p))%char
      with (S <$> index_byte "]" (h ++ "]" :: ":" :: p))%char.
    by rewrite index_byte_app_first. }
  unfold SplitHostPort. rewrite Ehp, E1. cbv zeta.
  change (starts_with "[" ("[" :: h ++ "]" :: ":" :: p))%char with true.
  cbv iota. rewrite E3.
  destruct (Nat.eqb_spec (S (S (length h))) (length ("[" :: h ++ "]" :: ":" :: p))%char)
    as [Hl|_].
  { simpl in Hl. rewrite length_app in Hl. simpl in Hl. lia. }
  rewrite Nat.eqb_refl. unfold split_tail.
  replace (S (length h) - 1)%nat with (length h) by lia.
  change (drop 1 ("[" :: h ++ "]" :: ":" :: p))%char with (h ++ "]" :: ":" :: p)%char.
  rewrite take_app_length.
  rewrite index_byte_app_None by set_solver.
  change (drop (S (S (length h))) ("[" :: h ++ "]" :: ":" :: p))%char
    with (drop (S (length h)) (h ++ "]" :: ":" :: p))%char.
  rewrite drop_S_app_cons.
  rewrite (proj2 (index_byte_None _ _)) by set_solver.
  change (drop (S (S (S (length h)))) ("[" :: h ++ "]" :: ":" :: p))%char
    with (drop (S (S (length h))) (h ++ "]" :: ":" :: p))%char.
  rewrite drop_SS_app_cons.
  unfold h, p. by rewrite !String.string_of_list_ascii_of_string.
- (* a host without colon is written as is *)
  assert (Hhc : ":" ∉ h) by (by apply index_byte_None).
  unfold SplitHostPort. rewrite !list_ascii_of_string_app. fold h p. simpl.
  rewrite last_index_byte_app by done.
  replace (starts_with "[" (h ++ ":" :: p)) with false.
  2:{ destruct h as [|x h']; simpl; [done|].
      apply not_elem_of_cons in Hh1 as [Hx _].
      symmetry. by apply Ascii.eqb_neq. }
  rewrite take_app_length, Hcol. unfold split_tail. simpl.
  rewrite !(proj2 (index_byte_None _ _)) by set_solver.
  rewrite drop_S_app_cons.
  unfold h, p. by rewrite !String.string_of_list_ascii_of_string.
Qed.

End GoStd.
