(* ===== verification/Store.v ===== *)
(** * The Postgres collaborators: domains, bot rules, DNS zone records

    [domain/repository.go], [bot/repository.go], [dns/repository.go] and the
    admin services of [domain/handler.go] ([CreateDomain], [GetDomain],
    [ListDomains]) and [bot/handler.go] ([AddRule], [ListRules]), written
    against the [Repository] classes that stand for the Go interfaces; the
    Postgres repositories are their instances.  The database is one value [Db] holding the
    three tables in insertion order, the next serial ids, and whether the
    connection answers; a query on a connection that does not answer returns
    the driver's error.  Each Go package is a module of the same name
    holding its row type; the repositories are the modules [DomainRepo],
    [BotRepo] and [DnsRepo].  Timestamps ([CreatedAt], [UpdatedAt]) are not
    modelled: no code reads them. *)

From S2P Require Import Prelude.

Module domain.
(** [domain.Domain]; [Config] is a [json.RawMessage], [None] for nil. *)
Record Domain := mkDomain {
  ID : Z;
  Name : string;
  TargetURL : string;
  Active : bool;
  Config : option string
}.

(** [domain.Repository], the interface the service is written against
    ([ctx] is not modelled); [Create] returns the row with the id the
    database gave it, as the Go method writes it into [d.ID]. *)
Class Repository (R : Type) := {
  Create : R → Domain → result (Domain * R);
  GetByName : R → string → result (option Domain);
  GetAll : R → result (list Domain);
  Delete : R → Z → result R
}.

(** What a repository promises its clients: [Create] stores the fields it
    was given, [GetAll] lists the new row after the old ones, and
    [GetByName] finds the new row unless an older one has its name. *)
Class RepositoryLaws (R : Type) `{!Repository R} := {
  Create_fields r d d' r' : Create r d = Ok (d', r') →
    Name d' = Name d ∧ TargetURL d' = TargetURL d ∧ Active d' = Active d ∧ Config d' = Config d;
  Create_GetAll r d d' r' ds : Create r d = Ok (d', r') → GetAll r = Ok ds →
    GetAll r' = Ok (ds ++ [d']);
  Create_GetByName r d d' r' o : Create r d = Ok (d', r') → GetByName r (Name d) = Ok o →
    GetByName r' (Name d) = Ok (Some (default d' o))
}.
End domain.

Module bot.
(** [bot.BotRule]. *)
Record BotRule := mkBotRule {
  ID : Z;
  RuleType : string;
  Value : string;
  Action : string;
  Description : string
}.

(** [bot.Repository]. *)
Class Repository (R : Type) := {
  Create : R → BotRule → result (BotRule * R);
  GetAll : R → result (list BotRule);
  Delete : R → Z → result R
}.
End bot.

Module dns.
(** [dns.Record], a DNS zone record ([Record] and [Type] are keywords of
    Rocq, hence [DnsRecord] and [Type_]). *)
Record DnsRecord := mkDnsRecord {
  ID : Z;
  DomainID : Z;
  Type_ : string;
  Name : string;
  Content : string;
  TTL : Z;
  Priority : Z
}.

(** [dns.Repository], the interface the DNS server holds. *)
Class Repository (R : Type) := {
  GetRecords : R → Z → result (list DnsRecord);
  GetRecordsByNameAndType : R → string → string → result (list DnsRecord)
}.
End dns.

(** The Postgres pool: the three tables and their serial sequences. *)
Record Db := mkDb {
  db_up : bool;
  domains : list domain.Domain;
  bot_rules : list bot.BotRule;
  dns_records : list dns.DnsRecord;
  next_domain_id : Z;
  next_rule_id : Z
}.

Definition db_error : string := "failed to connect to database".

Definition set_domains (db : Db) (ds : list domain.Domain) : Db :=
  mkDb (db_up db) ds (bot_rules db) (dns_records db) (next_domain_id db) (next_rule_id db).

Definition set_bot_rules (db : Db) (rs : list bot.BotRule) : Db :=
  mkDb (db_up db) (domains db) rs (dns_records db) (next_domain_id db) (next_rule_id db).

Module DomainRepo.

(** [GetByName]: [QueryRow ... WHERE name = $1]; [pgx.ErrNoRows] becomes
    [(nil, nil)]. *)
Definition GetByName (db : Db) (name : string) : result (option domain.Domain) :=
  if db_up db
  then Ok (List.find (λ d, String.eqb (domain.Name d) name) (domains db))
  else Err db_error.

Definition GetAll (db : Db) : result (list domain.Domain) :=
  if db_up db then Ok (domains db) else Err db_error.

(** [Create]: [INSERT ... RETURNING id]: the row gets the next serial
    id.  Nothing in the code checks that the name is new. *)
Definition Create (db : Db) (d : domain.Domain) : result (domain.Domain * Db) :=
  if db_up db then
    let d' := domain.mkDomain (next_domain_id db) (domain.Name d)
                (domain.TargetURL d) (domain.Active d) (domain.Config d) in
    Ok (d', mkDb true (domains db ++ [d']) (bot_rules db) (dns_records db)
              (next_domain_id db + 1) (next_rule_id db))
  else Err db_error.

Definition Delete (db : Db) (id : Z) : result Db :=
  if db_up db
  then Ok (set_domains db (List.filter (λ d, negb (Z.eqb (domain.ID d) id)) (domains db)))
  else Err db_error.

End DomainRepo.

(** [NewRepository(db)]: the Postgres implementation of the interface. *)
#[global] Instance domain_repository : domain.Repository Db := {|
  domain.Create := DomainRepo.Create; domain.GetByName := DomainRepo.GetByName;
  domain.GetAll := DomainRepo.GetAll; domain.Delete := DomainRepo.Delete |}.

(** [domain.Service]: its only field is the repository, so a service is
    the repository it was built with ([NewService]). *)
Module DomainService.
Section Service.
Context {R : Type} `{!domain.Repository R}.

Definition required_domain : string := "name and target_url are required".

(** [Service.CreateDomain]: both fields required; a nil config becomes
    the JSON object ["{}"]. *)
Definition CreateDomain (repo : R) (d : domain.Domain) : result (domain.Domain * R) :=
  if String.eqb (domain.Name d) "" || String.eqb (domain.TargetURL d) ""
  then Err required_domain
  else
    let cfg := match domain.Config d with None => Some "{}"%string | c => c end in
    domain.Create repo (domain.mkDomain (domain.ID d) (domain.Name d)
                          (domain.TargetURL d) (domain.Active d) cfg).

Definition GetDomain (repo : R) (name : string) : result (option domain.Domain) :=
  domain.GetByName repo name.

Definition ListDomains (repo : R) : result (list domain.Domain) := domain.GetAll repo.

End Service.
End DomainService.

Module BotRepo.

(** [GetAll]: [SELECT ... FROM bot_rules], in table order. *)
Definition GetAll (db : Db) : result (list bot.BotRule) :=
  if db_up db then Ok (bot_rules db) else Err db_error.

Definition Create (db : Db) (r : bot.BotRule) : result (bot.BotRule * Db) :=
  if db_up db then
    let r' := bot.mkBotRule (next_rule_id db) (bot.RuleType r) (bot.Value r)
                (bot.Action r) (bot.Description r) in
    Ok (r', mkDb true (domains db) (bot_rules db ++ [r']) (dns_records db)
              (next_domain_id db) (next_rule_id db + 1))
  else Err db_error.

Definition Delete (db : Db) (id : Z) : result Db :=
  if db_up db
  then Ok (set_bot_rules db (List.filter (λ r, negb (Z.eqb (bot.ID r) id)) (bot_rules db)))
  else Err db_error.

End BotRepo.

#[global] Instance bot_repository : bot.Repository Db := {|
  bot.Create := BotRepo.Create; bot.GetAll := BotRepo.GetAll; bot.Delete := BotRepo.Delete |}.

(** [bot.Service], likewise its repository. *)
Module BotService.
Section Service.
Context {R : Type} `{!bot.Repository R}.

Definition required_rule : string := "rule_type, value, and action are required".

(** [Service.AddRule]: type, value and action are required. *)
Definition AddRule (repo : R) (r : bot.BotRule) : result (bot.BotRule * R) :=
  if String.eqb (bot.RuleType r) "" || String.eqb (bot.Value r) ""
     || String.eqb (bot.Action r) ""
  then Err required_rule
  else bot.Create repo r.

Definition ListRules (repo : R) : result (list bot.BotRule) := bot.GetAll repo.

End Service.
End BotService.

Module DnsRepo.

(** [GetRecords]: the records of one domain. *)
Definition GetRecords (db : Db) (domainID : Z) : result (list dns.DnsRecord) :=
  if db_up db
  then Ok (List.filter (λ r, Z.eqb (dns.DomainID r) domainID) (dns_records db))
  else Err db_error.

(** Is there an active domain row with this id ([JOIN domains d ON
    r.domain_id = d.id ... AND d.active = TRUE])? *)
Definition domain_active (db : Db) (id : Z) : bool :=
  List.existsb (λ d, Z.eqb (domain.ID d) id && domain.Active d) (domains db).

(** [GetRecordsByNameAndType]. *)
Definition GetRecordsByNameAndType (db : Db) (name recordType : string)
    : result (list dns.DnsRecord) :=
  if db_up db
  then Ok (List.filter (λ r, String.eqb (dns.Name r) name
                             && String.eqb (dns.Type_ r) recordType
                             && domain_active db (dns.DomainID r))
                       (dns_records db))
  else Err db_error.

End DnsRepo.

#[global] Instance dns_repository : dns.Repository Db := {|
  dns.GetRecords := DnsRepo.GetRecords;
  dns.GetRecordsByNameAndType := DnsRepo.GetRecordsByNameAndType |}.

(** ** The Postgres repositories keep the interfaces' contracts *)

Module store_facts.

Lemma CreateDomain_Db db d :
  DomainService.CreateDomain db d =
  if String.eqb (domain.Name d) "" || String.eqb (domain.TargetURL d) ""
  then Err DomainService.required_domain
  else DomainRepo.Create db (domain.mkDomain (domain.ID d) (domain.Name d) (domain.TargetURL d)
         (domain.Active d) (match domain.Config d with None => Some "{}"%string | c => c end)).
Proof. reflexivity. Qed.

Lemma AddRule_Db db r :
  BotService.AddRule db r =
  if String.eqb (bot.RuleType r) "" || String.eqb (bot.Value r) "" || String.eqb (bot.Action r) ""
  then Err BotService.required_rule else BotRepo.Create db r.
Proof. reflexivity. Qed.

(** [INSERT ... RETURNING id] on a connection that answers stores the row
    at the end of the table, with the next serial id. *)
Lemma DomainRepo_Create_Ok db d d' db' :
  DomainRepo.Create db d = Ok (d', db') →
  db_up db = true ∧ d' = domain.mkDomain (next_domain_id db) (domain.Name d) (domain.TargetURL d)
    (domain.Active d) (domain.Config d) ∧
  db' = mkDb true (domains db ++ [d']) (bot_rules db) (dns_records db)
          (next_domain_id db + 1) (next_rule_id db).
Proof. unfold DomainRepo.Create. destruct (db_up db); [|done]. by intros [=<- <-]. Qed.

#[global] Instance domain_repository_laws : domain.RepositoryLaws Db.
Proof.
  split; simpl; intros r d d' r'; [| intros ds | intros o];
    intros (Hup & -> & ->)%DomainRepo_Create_Ok; simpl; [done | |].
  - unfold DomainRepo.GetAll. rewrite Hup. by intros [=<-].
  - unfold DomainRepo.GetByName. rewrite Hup. intros [=<-]. simpl.
    destruct (List.find _ (domains r)) as [o|] eqn:Hf.
    + by rewrite (find_app_some _ _ _ o Hf).
    + rewrite (find_app_none _ _ _ Hf). simpl. by rewrite String.eqb_refl.
Qed.

Section Services.
Context {R : Type} `{!domain.Repository R}.

(** The validation of [CreateDomain], before the repository is called. *)
Lemma CreateDomain_invalid (repo : R) d :
  (domain.Name d = "" ∨ domain.TargetURL d = "")%string →
  DomainService.CreateDomain repo d = Err DomainService.required_domain.
Proof.
  unfold DomainService.CreateDomain. intros [-> | ->]; [done|].
  by rewrite String.eqb_refl, orb_true_r.
Qed.

(** A created domain is the repository's [Create] of a domain with the
    name it was given. *)
Lemma CreateDomain_Create (repo repo' : R) d d' :
  DomainService.CreateDomain repo d = Ok (d', repo') →
  ∃ d0, domain.Create repo d0 = Ok (d', repo') ∧ domain.Name d0 = domain.Name d.
Proof. unfold DomainService.CreateDomain. destruct (_ || _); [done|]. eauto. Qed.

End Services.

(** Adding a rule leaves the domains table as it was. *)
Lemma AddRule_GetByName db r r' db' name :
  BotService.AddRule db r = Ok (r', db') →
  DomainRepo.GetByName db' name = DomainRepo.GetByName db name.
Proof.
  rewrite AddRule_Db. unfold BotRepo.Create, DomainRepo.GetByName.
  destruct (_ || _ || _); [done|]. destruct (db_up db); [|done]. by intros [=_ <-].
Qed.

(** A domain created through [CreateDomain] on a lawful repository has
    the fields it was given and a configuration, ["{}"] when it had none. *)
Lemma CreateDomain_Ok `{domain.RepositoryLaws R} (repo repo' : R) d d' :
  DomainService.CreateDomain repo d = Ok (d', repo') →
  String.eqb (domain.Name d) "" || String.eqb (domain.TargetURL d) "" = false ∧
  domain.Name d' = domain.Name d ∧ domain.TargetURL d' = domain.TargetURL d ∧
  domain.Active d' = domain.Active d ∧
  domain.Config d' = Some (default "{}"%string (domain.Config d)).
Proof.
  unfold DomainService.CreateDomain. destruct (_ || _); [done|].
  intros (-> & -> & -> & ->)%domain.Create_fields. simpl. split_and!; try done.
  by destruct (domain.Config d).
Qed.

End store_facts.
