(* ===== verification/Redis.v ===== *)
(** * The counter store: the interface the engine relies on, and Redis

    The engine ([engine/engine.go], [checkRateLimit]) talks to Redis through
    two commands, [INCR key] and [EXPIRE key 60].  [CounterStore] is that
    interface, with an observation [cs_count] (the live value of a counter,
    0 when there is none) and a health predicate (the next commands reach
    the server); [CounterStoreLaws] are the laws the engine's theorems use.
    The module [Redis] implements the interface after the Redis command
    semantics: a map of 64-bit counters with optional expiry deadlines, a
    clock in seconds (an expired key reads as absent and INCR starts it
    again from 0, without deadline), INCR's overflow error at
    [int64_max], [EXPIRE] on a missing key answering 0, and a list of
    injected network faults, one consumed per command. *)

From S2P Require Import Prelude.

Class CounterStore (S : Type) := {
  cs_incr : string → S → result Z * S;
  cs_expire : string → Z → S → result bool * S;
  cs_count : string → S → Z;
  cs_healthy : S → Prop
}.

Class CounterStoreLaws (S : Type) `{!CounterStore S} := {
  cs_incr_ok k s :
    cs_healthy s → cs_count k s < int64_max →
    fst (cs_incr k s) = Ok (cs_count k s + 1);
  cs_incr_count k s :
    cs_healthy s → cs_count k s < int64_max →
    cs_count k (snd (cs_incr k s)) = cs_count k s + 1;
  cs_incr_other k k' s :
    k' ≠ k → cs_count k' (snd (cs_incr k s)) = cs_count k' s;
  cs_incr_err k k' s e :
    fst (cs_incr k s) = Err e → cs_count k' (snd (cs_incr k s)) = cs_count k' s;
  cs_incr_healthy k s : cs_healthy s → cs_healthy (snd (cs_incr k s));
  cs_expire_count k t k' s :
    0 < t → cs_count k' (snd (cs_expire k t s)) = cs_count k' s;
  cs_expire_healthy k t s : cs_healthy s → cs_healthy (snd (cs_expire k t s))
}.

Module Redis.

Record Entry := mkEntry {
  val : Z;
  expire_at : option Z
}.

Record State := mkState {
  kv : gmap string Entry;
  now : Z;
  faults : list bool
}.

Definition set_kv (s : State) (m : gmap string Entry) : State :=
  mkState m (now s) (faults s).

(** A key whose deadline has passed is gone.  The clock counts whole
    seconds and the key is dead from its deadline on; Redis keeps it
    through the deadline's millisecond, a difference of one tick at the
    boundary only. *)
Definition live (s : State) (e : Entry) : bool :=
  match expire_at e with
  | None => true
  | Some t => now s <? t
  end.

Definition get_live (k : string) (s : State) : option Entry :=
  match kv s !! k with
  | Some e => if live s e then Some e else None
  | None => None
  end.

(** One command's round trip: [true] when the network fails it. *)
Definition pop_fault (s : State) : bool * State :=
  match faults s with
  | [] => (false, s)
  | f :: fs => (f, mkState (kv s) (now s) fs)
  end.

Definition net_error : string := "i/o timeout".
Definition overflow_error : string := "ERR increment or decrement would overflow".

(** [INCR key]: an absent or expired key counts from 0 and has no
    deadline; a live key keeps its deadline. *)
Definition INCR (k : string) (s : State) : result Z * State :=
  let '(f, s1) := pop_fault s in
  if f then (Err net_error, s1) else
  match get_live k s1 with
  | Some e =>
    if val e =? int64_max then (Err overflow_error, s1)
    else (Ok (val e + 1), set_kv s1 (<[k := mkEntry (val e + 1) (expire_at e)]> (kv s1)))
  | None => (Ok 1, set_kv s1 (<[k := mkEntry 1 None]> (kv s1)))
  end.

(** [EXPIRE key seconds]: [false] (reply 0) on a missing key; a
    non-positive timeout deletes the key. *)
Definition EXPIRE (k : string) (secs : Z) (s : State) : result bool * State :=
  let '(f, s1) := pop_fault s in
  if f then (Err net_error, s1) else
  match get_live k s1 with
  | Some e =>
    if secs <=? 0 then (Ok true, set_kv s1 (delete k (kv s1)))
    else (Ok true, set_kv s1 (<[k := mkEntry (val e) (Some (now s1 + secs))]> (kv s1)))
  | None => (Ok false, s1)
  end.

(** Wall-clock time passes. *)
Definition advance (dt : Z) (s : State) : State :=
  mkState (kv s) (now s + dt) (faults s).

Definition count (k : string) (s : State) : Z :=
  match get_live k s with Some e => val e | None => 0 end.

Definition healthy (s : State) : Prop := faults s = [].

(** Every stored counter is in [1, int64_max]. *)
Definition wf (s : State) : Prop :=
  map_Forall (λ _ e, 1 ≤ val e ≤ int64_max) (kv s).

Definition empty (t : Z) : State := mkState ∅ t [].


(** ** Lemmas *)

Lemma get_live_pop k s : get_live k (snd (pop_fault s)) = get_live k s.
Proof. unfold pop_fault. by destruct (faults s). Qed.

Lemma count_pop k s : count k (snd (pop_fault s)) = count k s.
Proof. unfold count. by rewrite get_live_pop. Qed.

Lemma count_set_insert_eq k e s :
  live s e = true → count k (set_kv s (<[k := e]> (kv s))) = val e.
Proof. intros Hl. unfold count, get_live, live in *. simpl. by rewrite lookup_insert_eq, Hl. Qed.

Lemma count_set_insert_ne k k' e s m :
  k' ≠ k → count k' (set_kv s (<[k := e]> m)) = count k' (set_kv s m).
Proof. intros Hne. unfold count, get_live. simpl. by rewrite lookup_insert_ne by congruence. Qed.

Lemma count_set_delete_ne k k' s m :
  k' ≠ k → count k' (set_kv s (delete k m)) = count k' (set_kv s m).
Proof. intros Hne. unfold count, get_live. simpl. by rewrite lookup_delete_ne by congruence. Qed.

Lemma set_kv_id s : set_kv s (kv s) = s.
Proof. by destruct s. Qed.

Lemma pop_fault_healthy s : healthy s → pop_fault s = (false, s).
Proof. unfold healthy, pop_fault. by intros ->. Qed.

(** The live entry of a counter is the one [count] reads. *)
Lemma count_live k s e : get_live k s = Some e → count k s = val e.
Proof. unfold count. by intros ->. Qed.

Lemma count_dead k s : get_live k s = None → count k s = 0.
Proof. unfold count. by intros ->. Qed.

Lemma live_set_kv s m e : live (set_kv s m) e = live s e.
Proof. done. Qed.

Lemma live_pop s e : live (snd (pop_fault s)) e = live s e.
Proof. unfold pop_fault. by destruct (faults s). Qed.

Lemma kv_pop s : kv (snd (pop_fault s)) = kv s.
Proof. unfold pop_fault. by destruct (faults s). Qed.

Lemma now_pop s : now (snd (pop_fault s)) = now s.
Proof. unfold pop_fault. by destruct (faults s). Qed.

#[export] Hint Rewrite get_live_pop count_pop live_set_kv live_pop kv_pop now_pop : namex_rw.

Lemma get_live_Some k s e : get_live k s = Some e → live s e = true ∧ kv s !! k = Some e.
Proof. unfold get_live. destruct (kv s !! k) as [e'|]; [|done]. by case_match; intros [=->]. Qed.

Lemma pop_fault_inv s f s1 :
  pop_fault s = (f, s1) →
  (∀ k, count k s1 = count k s) ∧ (∀ k, get_live k s1 = get_live k s) ∧ set_kv s1 (kv s1) = s1.
Proof.
  intros Hp. split_and!.
  - intros k. by rewrite <- (count_pop k s), Hp.
  - intros k. by rewrite <- (get_live_pop k s), Hp.
  - apply set_kv_id.
Qed.

(** What [INCR] does to the counters: the other keys are untouched, and the
    reply is either the old count plus one, which is then the count, or an
    error that leaves the count as it was. *)
Lemma INCR_spec k s r s' :
  INCR k s = (r, s') →
  (∀ k', k' ≠ k → count k' s' = count k' s) ∧
  ((r = Ok (count k s + 1) ∧ count k s' = count k s + 1) ∨
   (∃ e, r = Err e) ∧ count k s' = count k s).
Proof.
  unfold INCR. destruct (pop_fault s) as [f s1] eqn:Hp.
  destruct (pop_fault_inv _ _ _ Hp) as (Hc & Hg & _).
  destruct f.
  { intros [=<- <-]. split; [intros; apply Hc | right; split; [eauto | apply Hc]]. }
  destruct (get_live k s1) as [e|] eqn:Hge.
  - destruct (get_live_Some _ _ _ Hge) as [Hlive _].
    assert (Hcs : count k s = val e) by (rewrite <- Hc; by apply count_live).
    rewrite Hcs.
    destruct (Z.eqb_spec (val e) int64_max); intros [=<- <-].
    { split; [intros; apply Hc | right; split; [eauto | by rewrite Hc]]. }
    split.
    + intros k' Hne. rewrite count_set_insert_ne, set_kv_id by done. apply Hc.
    + left. split; [done|]. by rewrite count_set_insert_eq.
  - intros [=<- <-]. rewrite <- Hc, (count_dead k s1) by done. split.
    + intros k' Hne. rewrite count_set_insert_ne, set_kv_id by done. apply Hc.
    + left. split; [done|]. by rewrite count_set_insert_eq.
Qed.

Lemma INCR_healthy_ok k s :
  healthy s → count k s < int64_max → fst (INCR k s) = Ok (count k s + 1).
Proof.
  intros Hh Hlt. destruct (INCR k s) as [r s'] eqn:E. simpl.
  destruct (INCR_spec _ _ _ _ E) as [_ [[-> _]|[[e ->] _]]]; [done|].
  revert E. unfold INCR. rewrite pop_fault_healthy by done.
  destruct (get_live k s) as [e'|] eqn:Hg; [|done].
  rewrite (count_live _ _ _ Hg) in Hlt.
  destruct (Z.eqb_spec (val e') int64_max); [lia | done].
Qed.

Lemma INCR_faults k s : faults (snd (INCR k s)) = tail (faults s).
Proof.
  unfold INCR, pop_fault. destruct (faults s) as [|f fs] eqn:Hf; simpl.
  - repeat case_match; simpl; by rewrite ?Hf.
  - destruct f; [done|]. repeat case_match; done.
Qed.

Lemma EXPIRE_faults k t s : faults (snd (EXPIRE k t s)) = tail (faults s).
Proof.
  unfold EXPIRE, pop_fault. destruct (faults s) as [|f fs] eqn:Hf; simpl.
  - repeat case_match; simpl; by rewrite ?Hf.
  - destruct f; [done|]. repeat case_match; done.
Qed.

Lemma EXPIRE_count k t k' s : 0 < t → count k' (snd (EXPIRE k t s)) = count k' s.
Proof.
  intros Ht. unfold EXPIRE. destruct (pop_fault s) as [f s1] eqn:Hp.
  destruct (pop_fault_inv _ _ _ Hp) as (Hc & Hg & Hid).
  destruct f; [apply Hc|].
  destruct (get_live k s1) as [e|] eqn:Hge; [|apply Hc].
  destruct (Z.leb_spec t 0); [lia|]. simpl.
  destruct (decide (k' = k)) as [->|Hne].
  - destruct (get_live_Some _ _ _ Hge) as [Hl _].
    rewrite count_set_insert_eq; simpl.
    + rewrite <- Hc. symmetry. by apply count_live.
    + (* the new deadline is in the future *)
      unfold live. simpl. apply Z.ltb_lt. lia.
  - rewrite count_set_insert_ne, Hid by done. apply Hc.
Qed.

(** ** Counters over time *)

Lemma now_INCR k s : now (snd (INCR k s)) = now s.
Proof. unfold INCR, pop_fault. destruct (faults s) as [|[] ?]; simpl; by repeat case_match. Qed.

Lemma now_EXPIRE k t s : now (snd (EXPIRE k t s)) = now s.
Proof. unfold EXPIRE, pop_fault. destruct (faults s) as [|[] ?]; simpl; by repeat case_match. Qed.

Lemma get_live_insert_eq k e s m :
  live s e = true → get_live k (set_kv s (<[k := e]> m)) = Some e.
Proof. intros Hl. unfold get_live. simpl. rewrite lookup_insert_eq. by rewrite live_set_kv, Hl. Qed.

(** INCR on a live key keeps its deadline; on a missing key it creates
    a counter at 1 without deadline. *)
Lemma INCR_live k s e :
  healthy s → get_live k s = Some e → val e ≠ int64_max →
  get_live k (snd (INCR k s)) = Some (mkEntry (val e + 1) (expire_at e)).
Proof.
  intros Hh Hg Hne. unfold INCR. rewrite pop_fault_healthy by done. rewrite Hg.
  destruct (Z.eqb_spec (val e) int64_max); [done|]. simpl.
  apply get_live_insert_eq. destruct (get_live_Some _ _ _ Hg) as [Hl _]. done.
Qed.

Lemma INCR_fresh k s :
  healthy s → get_live k s = None → get_live k (snd (INCR k s)) = Some (mkEntry 1 None).
Proof.
  intros Hh Hg. unfold INCR. rewrite pop_fault_healthy by done. rewrite Hg. simpl.
  by apply get_live_insert_eq.
Qed.

Lemma INCR_first k s fs :
  faults s = false :: fs → get_live k s = None →
  INCR k s = (Ok 1, mkState (<[k := mkEntry 1 None]> (kv s)) (now s) fs).
Proof.
  intros Hf Hg. unfold INCR, pop_fault. rewrite Hf.
  assert (get_live k (mkState (kv s) (now s) fs) = None) as -> by done. done.
Qed.

(** INCR when the network fails: nothing changes but the fault list. *)
Lemma INCR_fault k s fs :
  faults s = true :: fs → INCR k s = (Err net_error, mkState (kv s) (now s) fs).
Proof. unfold INCR, pop_fault. by intros ->. Qed.

Lemma EXPIRE_live k t s e :
  healthy s → get_live k s = Some e → 0 < t →
  get_live k (snd (EXPIRE k t s)) = Some (mkEntry (val e) (Some (now s + t))).
Proof.
  intros Hh Hg Ht. unfold EXPIRE. rewrite pop_fault_healthy by done. rewrite Hg.
  destruct (Z.leb_spec t 0); [lia|]. simpl. apply get_live_insert_eq.
  unfold live. simpl. apply Z.ltb_lt. lia.
Qed.

(** The two commands on a store the network does not fail. *)
Lemma INCR_healthy_eq k s :
  healthy s →
  INCR k s = match get_live k s with
             | Some e =>
               if val e =? int64_max then (Err overflow_error, s)
               else (Ok (val e + 1), set_kv s (<[k := mkEntry (val e + 1) (expire_at e)]> (kv s)))
             | None => (Ok 1, set_kv s (<[k := mkEntry 1 None]> (kv s)))
             end.
Proof. intros Hh. unfold INCR. by rewrite pop_fault_healthy. Qed.

Lemma EXPIRE_healthy_eq k t s :
  healthy s →
  EXPIRE k t s = match get_live k s with
                 | Some e =>
                   if t <=? 0 then (Ok true, set_kv s (delete k (kv s)))
                   else (Ok true, set_kv s (<[k := mkEntry (val e) (Some (now s + t))]> (kv s)))
                 | None => (Ok false, s)
                 end.
Proof. intros Hh. unfold EXPIRE. by rewrite pop_fault_healthy. Qed.

(** EXPIRE lost on the network: nothing changes but the fault list. *)
Lemma EXPIRE_fault k t s fs :
  faults s = true :: fs → EXPIRE k t s = (Err net_error, mkState (kv s) (now s) fs).
Proof. unfold EXPIRE, pop_fault. by intros ->. Qed.

(** A counter whose deadline has passed reads as 0. *)
Lemma count_advance_expired k s e d dt :
  get_live k s = Some e → expire_at e = Some d → d ≤ now s + dt →
  count k (advance dt s) = 0.
Proof.
  intros Hg He Hd. destruct (get_live_Some _ _ _ Hg) as [_ Hkv].
  unfold count, get_live, advance, live. simpl. rewrite Hkv, He.
  destruct (Z.ltb_spec (now s + dt) d); [lia | done].
Qed.

(** A counter without deadline survives any amount of time. *)
Lemma get_live_advance_persistent k s e dt :
  get_live k s = Some e → expire_at e = None → get_live k (advance dt s) = Some e.
Proof.
  intros Hg He. destruct (get_live_Some _ _ _ Hg) as [_ Hkv].
  unfold get_live, advance, live. simpl. by rewrite Hkv, He.
Qed.

(** A live counter with a deadline in the future is still live after a
    wait that ends before the deadline. *)
Lemma get_live_advance_before k s e d dt :
  get_live k s = Some e → expire_at e = Some d → now s + dt < d →
  get_live k (advance dt s) = Some e.
Proof.
  intros Hg He Hd. destruct (get_live_Some _ _ _ Hg) as [_ Hkv].
  unfold get_live, advance, live. simpl. rewrite Hkv, He.
  destruct (Z.ltb_spec (now s + dt) d); [done | lia].
Qed.

Lemma count_advance_healthy dt s : healthy s → healthy (advance dt s).
Proof. done. Qed.

Lemma now_advance dt s : now (advance dt s) = now s + dt.
Proof. done. Qed.

End Redis.

#[export] Instance redis_counter_store : CounterStore Redis.State := {|
  cs_incr := Redis.INCR;
  cs_expire := Redis.EXPIRE;
  cs_count := Redis.count;
  cs_healthy := Redis.healthy
|}.

#[export] Instance redis_counter_store_laws : CounterStoreLaws Redis.State.
Proof.
  split; simpl.
  - intros. by apply Redis.INCR_healthy_ok.
  - intros k s Hh Hlt. pose proof (Redis.INCR_healthy_ok k s Hh Hlt) as Hok.
    destruct (Redis.INCR k s) as [r s'] eqn:E. simpl in *. subst r.
    destruct (Redis.INCR_spec _ _ _ _ E) as [_ [[_ ?]|[[e ?] _]]]; [done | discriminate].
  - intros k k' s Hne. destruct (Redis.INCR k s) as [r s'] eqn:E.
    by apply (Redis.INCR_spec _ _ _ _ E).
  - intros k k' s e. destruct (Redis.INCR k s) as [r s'] eqn:E. simpl. intros ->.
    destruct (Redis.INCR_spec _ _ _ _ E) as [Ho [[? _]|[_ ?]]]; [discriminate|].
    destruct (decide (k' = k)) as [->|Hne]; [done | by apply Ho].
  - intros k s Hh. unfold Redis.healthy in *. by rewrite Redis.INCR_faults, Hh.
  - intros. by apply Redis.EXPIRE_count.
  - intros k t s Hh. unfold Redis.healthy in *. by rewrite Redis.EXPIRE_faults, Hh.
Qed.

Lemma redis_cs_count k s : @cs_count _ redis_counter_store k s = Redis.count k s.
Proof. reflexivity. Qed.

Lemma redis_cs_healthy s : @cs_healthy _ redis_counter_store s = Redis.healthy s.
Proof. reflexivity. Qed.

#[export] Hint Rewrite redis_cs_count redis_cs_healthy : namex_rw.
