(* ===== verification/Analytics.v ===== *)
(** * The telemetry pipeline: [analytics/repository.go]

    [clickHouseRepository] is a buffered channel [logChan] (capacity
    10000), a [done] channel, and one worker goroutine that owns [batch]
    (flushed at 1000 events), a 5-second ticker, and the ClickHouse
    connection.  The state [Repo] holds the channel's contents and whether
    it is closed, the worker's batch, whether [done] is closed, the
    ClickHouse table, the list of [writeBatch] calls with their outcome,
    the lines written by [log.Println], and the faults the ClickHouse
    connection will meet (one per [writeBatch] call).

    Producers call [Log] (a [select] with a [default]: it never blocks,
    drops the event when the channel is full, and panics when the channel
    has been closed) and [Close] (closes the channel, panics on a second
    call, then waits on [done]).  The worker's [select] is the step
    relation [worker_step]: a receive ([recv]), a tick ([flush]), or, on a
    closed and drained channel, the final flush and the close of [done].
    [step] interleaves producers and the worker. *)

From S2P Require Import Prelude.
From Stdlib Require Import Wellfounded.

Module analytics.

(** [analytics.RequestLog]; [Timestamp] in Unix nanoseconds. *)
Record RequestLog := mkRequestLog {
  Timestamp : Z;
  DomainID : Z;
  ClientIP : string;
  UserAgent : string;
  Method : string;
  Path : string;
  Status : Z;
  Duration : Z;
  ActionTaken : string
}.

Record Repo := mkRepo {
  logChan : list RequestLog;
  chanClosed : bool;
  batch : list RequestLog;
  done : bool;
  table : list RequestLog;
  flushes : list (list RequestLog * bool);
  diag : list string;
  conn_faults : list bool
}.

(** [NewRepository]'s constants. *)
Definition chanCap : nat := 10 * 1000.
Definition batchSize : nat := 1000.
#[global] Arguments chanCap : simpl never.
#[global] Arguments batchSize : simpl never.

(** [NewRepository(conn)]: empty channel, the worker started. *)
Definition NewRepository (faults : list bool) : Repo :=
  mkRepo [] false [] false [] [] [] faults.

Definition msg_drop : string := "Analytics channel full, dropping log".
Definition msg_write_failed : string := "Failed to write analytics batch".
Definition panic_send : string := "send on closed channel".
Definition panic_close : string := "close of closed channel".

(** The row [batch.Append] sends: [int32(l.DomainID)] and
    [int32(l.Status)] keep the low 32 bits. *)
Definition to_row (l : RequestLog) : RequestLog :=
  mkRequestLog (Timestamp l) (wrap_int32 (DomainID l)) (ClientIP l) (UserAgent l)
    (Method l) (Path l) (wrap_int32 (Status l)) (Duration l) (ActionTaken l).

(** [Log]: [select { case r.logChan <- req: default: log.Println(...) }]. *)
Definition Log (req : RequestLog) (r : Repo) : result Repo :=
  if chanClosed r then Err panic_send
  else if (length (logChan r) <? chanCap)%nat
  then Ok (mkRepo (logChan r ++ [req]) false (batch r) (done r) (table r)
             (flushes r) (diag r) (conn_faults r))
  else Ok (mkRepo (logChan r) false (batch r) (done r) (table r)
             (flushes r) (diag r ++ [msg_drop]) (conn_faults r)).

(** [Close]: [close(r.logChan)]; the caller then blocks on [<-r.done]
    until the worker has closed it ([done] below). *)
Definition Close (r : Repo) : result Repo :=
  if chanClosed r then Err panic_close
  else Ok (mkRepo (logChan r) true (batch r) (done r) (table r)
             (flushes r) (diag r) (conn_faults r)).

(** [writeBatch]: [PrepareBatch], one [Append] per log, [Send]; a fault
    at any stage fails the whole call and inserts nothing.  The call is
    recorded in [flushes]. *)
Definition writeBatch (logs : list RequestLog) (r : Repo) : bool * Repo :=
  let '(fault, fs) := match conn_faults r with
                      | [] => (false, [])
                      | f :: fs => (f, fs)
                      end in
  let ok := negb fault in
  (ok, mkRepo (logChan r) (chanClosed r) (batch r) (done r)
         (if ok then table r ++ map to_row logs else table r)
         (flushes r ++ [(logs, ok)]) (diag r) fs).

(** The worker's [flush] closure: nothing on an empty batch; otherwise
    one [writeBatch], a log line on failure, and a fresh batch whatever
    the outcome. *)
Definition flush (r : Repo) : Repo :=
  match batch r with
  | [] => r
  | b =>
    let '(ok, r1) := writeBatch b r in
    mkRepo (logChan r1) (chanClosed r1) [] (done r1) (table r1) (flushes r1)
      (if ok then diag r1 else diag r1 ++ [msg_write_failed]) (conn_faults r1)
  end.

(** The [case req, ok := <-r.logChan] branch of the worker's [select]:
    [None] when the receive would block (open and empty channel). *)
Definition recv (r : Repo) : option Repo :=
  match logChan r with
  | req :: rest =>
    let r1 := mkRepo rest (chanClosed r) (batch r ++ [req]) (done r) (table r)
                (flushes r) (diag r) (conn_faults r) in
    Some (if (batchSize <=? length (batch r1))%nat then flush r1 else r1)
  | [] =>
    if chanClosed r then
      let r1 := flush r in
      Some (mkRepo (logChan r1) (chanClosed r1) (batch r1) true (table r1)
              (flushes r1) (diag r1) (conn_faults r1))
    else None
  end.

(** One iteration of the worker's [for { select { ... } }]: Go picks
    any ready case; the ticker is ready whenever 5 seconds have passed. *)
Inductive worker_step : Repo → Repo → Prop :=
| ws_recv r r' : done r = false → recv r = Some r' → worker_step r r'
| ws_tick r : done r = false → worker_step r (flush r).

(** The whole pipeline: any producer may call [Log] or [Close] (those
    that do not panic), or the worker runs one iteration. *)
Inductive step : Repo → Repo → Prop :=
| st_log req r r' : Log req r = Ok r' → step r r'
| st_close r r' : Close r = Ok r' → step r r'
| st_worker r r' : worker_step r r' → step r r'.

(** Every event the pipeline has accepted and not lost: the batches
    handed to [writeBatch], then the batch, then the channel. *)
Definition accepted (r : Repo) : list RequestLog :=
  concat (map fst (flushes r)) ++ batch r ++ logChan r.

(** The rows that the successful [writeBatch] calls inserted. *)
Definition stored_of (fl : list (list RequestLog * bool)) : list RequestLog :=
  concat (map (λ f : list RequestLog * bool, if f.2 then map to_row f.1 else []) fl).

(** The invariant of the pipeline. *)
Record inv (r : Repo) : Prop := {
  inv_chan : (length (logChan r) ≤ chanCap)%nat;
  inv_batch : (length (batch r) < batchSize)%nat;
  inv_done : done r = true → chanClosed r = true ∧ logChan r = [] ∧ batch r = [];
  inv_flushes : Forall (λ f, 0 < length f.1 ≤ batchSize)%nat (flushes r);
  inv_table : table r = stored_of (flushes r)
}.

(** The worker with a bound on its iterations, receiving whenever it can:
    the schedule in which no tick interleaves. *)
Fixpoint drain (fuel : nat) (r : Repo) : Repo :=
  match fuel with
  | O => r
  | S n =>
    if done r then r else
    match recv r with
    | Some r' => drain n r'
    | None => r
    end
  end.

(** Producers calling [Log] once per event, in order. *)
Fixpoint log_all (reqs : list RequestLog) (r : Repo) : result Repo :=
  match reqs with
  | [] => Ok r
  | q :: qs => Log q r ≫= log_all qs
  end.

(** [n] receives in a row. *)
Fixpoint recv_n (n : nat) (r : Repo) : option Repo :=
  match n with
  | O => Some r
  | S m => recv r ≫= recv_n m
  end.

(** The measure of the worker's progress: two per queued event, one for
    a non-empty batch, one until [done] is closed. *)
Definition worker_measure (r : Repo) : nat :=
  2 * length (logChan r) + match batch r with [] => 0 | _ => 1 end + (if done r then 0 else 1).

(** A worker iteration that changes the state; the only other one is a
    tick on an empty batch. *)
Definition worker_progress (r' r : Repo) : Prop := worker_step r r' ∧ r' ≠ r.

(** ** Effect of each operation *)

(** A flush of a non-empty batch makes exactly one [writeBatch] call with
    the whole batch, and empties the batch whatever the outcome. *)
Lemma flush_eq r :
  batch r ≠ [] →
  let ok := negb (hd false (conn_faults r)) in
  flush r = mkRepo (logChan r) (chanClosed r) [] (done r)
              (if ok then table r ++ map to_row (batch r) else table r)
              (flushes r ++ [(batch r, ok)])
              (if ok then diag r else diag r ++ [msg_write_failed])
              (tail (conn_faults r)).
Proof.
  destruct r as [c cl b d t fl dg cf]; simpl. intros Hb.
  unfold flush, writeBatch; simpl. destruct b; [done|].
  by destruct cf as [|[] fs].
Qed.

Lemma flush_nil r : batch r = [] → flush r = r.
Proof. unfold flush. by intros ->. Qed.

Lemma accepted_flush r : accepted (flush r) = accepted r.
Proof.
  destruct (decide (batch r = [])) as [Hb|Hb]; [by rewrite flush_nil|].
  rewrite flush_eq by done. unfold accepted; simpl.
  rewrite map_app, concat_app. simpl. by rewrite app_nil_r, <- app_assoc.
Qed.

Lemma flush_chan r :
  logChan (flush r) = logChan r ∧ chanClosed (flush r) = chanClosed r ∧
  done (flush r) = done r ∧ batch (flush r) = [].
Proof.
  destruct (decide (batch r = [])) as [Hb|Hb]; [by rewrite flush_nil|].
  by rewrite flush_eq.
Qed.

Lemma flushes_flush r :
  batch r ≠ [] → ∃ ok, flushes (flush r) = flushes r ++ [(batch r, ok)].
Proof. intros Hb. rewrite flush_eq by done. simpl. eauto. Qed.

(** The equations of [recv], one per branch of the code. *)
Definition recv_push (q : RequestLog) (qs : list RequestLog) (r : Repo) : Repo :=
  mkRepo qs (chanClosed r) (batch r ++ [q]) (done r) (table r)
    (flushes r) (diag r) (conn_faults r).

Lemma recv_cons r q qs :
  logChan r = q :: qs →
  recv r = Some (if (batchSize <=? length (batch r ++ [q]))%nat
                 then flush (recv_push q qs r) else recv_push q qs r).
Proof. unfold recv. by intros ->. Qed.

Lemma recv_nil_closed r :
  logChan r = [] → chanClosed r = true →
  recv r = Some (mkRepo (logChan (flush r)) (chanClosed (flush r)) (batch (flush r)) true
                  (table (flush r)) (flushes (flush r)) (diag (flush r))
                  (conn_faults (flush r))).
Proof. unfold recv. by intros -> ->. Qed.

Lemma recv_nil_open r : logChan r = [] → chanClosed r = false → recv r = None.
Proof. unfold recv. by intros -> ->. Qed.

Lemma accepted_recv r r' : recv r = Some r' → accepted r' = accepted r.
Proof.
  unfold recv. destruct (logChan r) as [|q qs] eqn:Hc.
  - destruct (chanClosed r); [|done]. intros [=<-].
    pose proof (accepted_flush r) as Ha. unfold accepted in *. simpl in *. by rewrite ?Ha, ?Hc.
  - intros [=<-]. case_match.
    + rewrite accepted_flush. unfold accepted. simpl. rewrite Hc, <- app_assoc. done.
    + unfold accepted. simpl. rewrite Hc, <- app_assoc. done.
Qed.

(** Every receive of a running worker lowers the measure. *)
Lemma recv_measure r r' :
  done r = false → recv r = Some r' → (worker_measure r' < worker_measure r)%nat.
Proof.
  intros Hd. unfold worker_measure. rewrite Hd. destruct (logChan r) as [|q qs] eqn:Hq.
  - destruct (chanClosed r) eqn:Hc; [|by rewrite recv_nil_open].
    rewrite recv_nil_closed by done. intros [=<-]. simpl.
    destruct (flush_chan r) as (-> & _ & _ & ->). rewrite Hq. simpl. lia.
  - rewrite (recv_cons r q qs Hq). intros [=<-]. case_match.
    + destruct (flush_chan (recv_push q qs r)) as (-> & _ & -> & ->). simpl. rewrite Hd. lia.
    + simpl. rewrite Hd. destruct (batch r); simpl; lia.
Qed.

Lemma worker_progress_measure r' r :
  worker_progress r' r → (worker_measure r' < worker_measure r)%nat.
Proof.
  intros [[r0 r1 Hd Hr | r0 Hd] Hne]; [by apply recv_measure|].
  destruct (decide (batch r0 = [])) as [Hb|Hb]; [by rewrite flush_nil in Hne|].
  unfold worker_measure. destruct (flush_chan r0) as (-> & _ & -> & ->). rewrite Hd.
  destruct (batch r0); [done|]. lia.
Qed.

(** [Log] either appends the event to the accepted ones (room in the
    channel) or drops it and says so on the log (full channel). *)
Lemma Log_cases req r r' :
  Log req r = Ok r' →
  ((length (logChan r) < chanCap)%nat ∧ accepted r' = accepted r ++ [req]
     ∧ diag r' = diag r) ∨
  ((chanCap ≤ length (logChan r))%nat ∧ accepted r' = accepted r
     ∧ diag r' = diag r ++ [msg_drop]).
Proof.
  unfold Log. destruct (chanClosed r); [done|].
  destruct (Nat.ltb_spec (length (logChan r)) chanCap); intros [=<-].
  - left. unfold accepted. simpl. by rewrite !app_assoc.
  - right. done.
Qed.

Lemma Log_open req r : chanClosed r = false → ∃ r', Log req r = Ok r'.
Proof. unfold Log. intros ->. case_match; eauto. Qed.

(** An open channel with room takes the event. *)
Lemma Log_room req r :
  chanClosed r = false → (length (logChan r) < chanCap)%nat →
  ∃ r', Log req r = Ok r' ∧ accepted r' = accepted r ++ [req].
Proof.
  intros Hc Hlt. destruct (Log req r) as [r'|e] eqn:Hl.
  - exists r'. split; [done|]. destruct (Log_cases _ _ _ Hl) as [(_ & H & _)|(H & _)]; [done|lia].
  - revert Hl. unfold Log. rewrite Hc. by case_match.
Qed.

Lemma Log_closed req r : chanClosed r = true → Log req r = Err panic_send.
Proof. unfold Log. by intros ->. Qed.

Lemma accepted_Close r r' : Close r = Ok r' → accepted r' = accepted r.
Proof. unfold Close. destruct (chanClosed r); [done|]. by intros [=<-]. Qed.

Lemma accepted_worker_step r r' : worker_step r r' → accepted r' = accepted r.
Proof.
  destruct 1 as [r r' _ H|r _]; [by apply accepted_recv | apply accepted_flush].
Qed.



(** ** The invariant *)

Lemma inv_NewRepository fs : inv (NewRepository fs).
Proof. split; simpl; try done; cbv; lia. Qed.

(** [flush] re-establishes the invariant from a batch of at most
    [batchSize] events (a receive may have just filled it). *)
Lemma inv_flush_gen r :
  (length (logChan r) ≤ chanCap)%nat → (length (batch r) ≤ batchSize)%nat →
  done r = false → Forall (λ f, 0 < length f.1 ≤ batchSize)%nat (flushes r) →
  table r = stored_of (flushes r) → inv (flush r).
Proof.
  intros Hc Hb Hd Hf Ht. destruct (decide (batch r = [])) as [He|He].
  - rewrite flush_nil by done. split; try done; [rewrite He; cbv; lia | congruence].
  - rewrite flush_eq by done. split; simpl; try done; [cbv; lia|rewrite Hd; done| |].
    + apply Forall_app. split; [done|]. constructor; [|done]. simpl.
      destruct (batch r); [done|]. simpl in *. lia.
    + unfold stored_of. rewrite map_app, concat_app. simpl. rewrite app_nil_r.
      fold (stored_of (flushes r)). rewrite <- Ht. case_match; by rewrite ?app_nil_r.
Qed.

Lemma inv_flush r : inv r → done r = false → inv (flush r).
Proof. intros [] Hd. apply inv_flush_gen; auto with lia. Qed.

Lemma inv_recv r r' : inv r → done r = false → recv r = Some r' → inv r'.
Proof.
  intros Hi Hd Hr. pose proof (inv_flush r Hi Hd) as Hfl.
  destruct Hi as [Hc Hb Hdn Hf Ht].
  destruct (logChan r) as [|q qs] eqn:Hq.
  - destruct (chanClosed r) eqn:Hcl; [|by rewrite recv_nil_open in Hr].
    rewrite recv_nil_closed in Hr by done. injection Hr as <-.
    destruct (flush_chan r) as (H1 & H2 & H3 & H4). destruct Hfl.
    split; simpl; auto. intros _. by rewrite H1, H2, H4, Hq.
  - simpl in Hc. rewrite (recv_cons r q qs Hq) in Hr.
    destruct (Nat.leb_spec batchSize (length (batch r ++ [q]))); injection Hr as <-.
    + apply inv_flush_gen; simpl; auto with lia.
      rewrite length_app. simpl. lia.
    + split; simpl; auto with lia. by rewrite Hd.
Qed.

Lemma inv_Log req r r' : inv r → Log req r = Ok r' → inv r'.
Proof.
  intros [Hc Hb Hdn Hf Ht]. unfold Log. destruct (chanClosed r) eqn:Hcl; [done|].
  assert (Hd : done r = false)
    by (destruct (done r); [by destruct (Hdn eq_refl) | done]).
  destruct (Nat.ltb_spec (length (logChan r)) chanCap); intros [=<-];
    split; simpl; rewrite ?Hd; auto; try done.
  rewrite length_app. simpl. lia.
Qed.

Lemma inv_Close r r' : inv r → Close r = Ok r' → inv r'.
Proof.
  intros [Hc Hb Hdn Hf Ht]. unfold Close. destruct (chanClosed r); [done|].
  intros [=<-]. split; simpl; auto. intros Hd. by destruct (Hdn Hd) as (_ & -> & ->).
Qed.

Lemma inv_worker_step r r' : inv r → worker_step r r' → inv r'.
Proof.
  intros Hi. destruct 1; [by eapply inv_recv | by apply inv_flush].
Qed.

Lemma inv_step r r' : inv r → step r r' → inv r'.
Proof.
  intros Hi. destruct 1; eauto using inv_Log, inv_Close, inv_worker_step.
Qed.

Lemma inv_rtc r r' : inv r → rtc step r r' → inv r'.
Proof. intros Hi Hs. induction Hs; eauto using inv_step. Qed.

Lemma step_accepted r r' : step r r' → accepted r `prefix_of` accepted r'.
Proof.
  destruct 1 as [req r r' H|r r' H|r r' H].
  - destruct (Log_cases _ _ _ H) as [(_ & -> & _)|(_ & -> & _)]; [by exists [req] | done].
  - by rewrite (accepted_Close _ _ H).
  - by rewrite (accepted_worker_step _ _ H).
Qed.

(** ** The drain after [Close] *)

Lemma drain_done_id n r : done r = true → drain n r = r.
Proof. destruct n; simpl; [done|]. by intros ->. Qed.

Lemma recv_closed_progress r :
  chanClosed r = true → ∃ r', recv r = Some r'.
Proof. unfold recv. intros Hc. destruct (logChan r); [rewrite Hc|]; eauto. Qed.

Lemma recv_logChan r r' q qs :
  logChan r = q :: qs → recv r = Some r' →
  logChan r' = qs ∧ chanClosed r' = chanClosed r.
Proof.
  unfold recv. intros -> [=<-]. case_match; [|done].
  destruct (flush_chan (mkRepo qs (chanClosed r) (batch r ++ [q]) (done r)
              (table r) (flushes r) (diag r) (conn_faults r))) as (-> & -> & _).
  done.
Qed.

Lemma recv_last r r' :
  logChan r = [] → recv r = Some r' → done r' = true.
Proof. unfold recv. intros ->. by destruct (chanClosed r); [intros [=<-]|]. Qed.

(** The worker, once the channel is closed, finishes within
    [length logChan + 1] iterations, through worker steps, and loses
    nothing on the way. *)
Lemma drain_spec fuel r :
  inv r → chanClosed r = true → (length (logChan r) < fuel)%nat →
  done (drain fuel r) = true ∧ accepted (drain fuel r) = accepted r ∧
  rtc worker_step r (drain fuel r) ∧ inv (drain fuel r).
Proof.
  revert r. induction fuel as [|n IH]; intros r Hi Hc Hlt; [lia|]. simpl.
  destruct (done r) eqn:Hd; [done|].
  destruct (recv_closed_progress r Hc) as [r1 Hr]. rewrite Hr.
  assert (Hi1 : inv r1) by (by eapply inv_recv).
  assert (Ha1 : accepted r1 = accepted r) by (by apply accepted_recv).
  assert (Hs1 : worker_step r r1) by (by constructor).
  destruct (logChan r) as [|q qs] eqn:Hq.
  - assert (Hd1 : done r1 = true) by (by eapply recv_last).
    rewrite drain_done_id by done. split_and!; [done | done | by apply rtc_once | done].
  - destruct (recv_logChan r r1 q qs Hq Hr) as [Hq1 Hc1].
    destruct (IH r1) as (H1 & H2 & H3 & H4); [done | congruence | rewrite Hq1; simpl in *; lia |].
    split_and!; [done | congruence | by eapply rtc_l | done].
Qed.

Lemma recv_n_1 r : recv_n 1 r = recv r.
Proof. simpl. by destruct (recv r). Qed.

Lemma recv_n_add a b r : recv_n (a + b) r = recv_n a r ≫= recv_n b.
Proof.
  revert r. induction a as [|a IH]; intros r; simpl; [done|].
  destruct (recv r); simpl; [apply IH | done].
Qed.

(** Receiving events that do not fill the batch appends them to it. *)
Lemma recv_n_fill r es rest :
  logChan r = es ++ rest → (length (batch r) + length es < batchSize)%nat →
  recv_n (length es) r = Some (mkRepo rest (chanClosed r) (batch r ++ es) (done r)
                                 (table r) (flushes r) (diag r) (conn_faults r)).
Proof.
  revert r. induction es as [|q es IH]; intros r Hq Hlt; simpl.
  - destruct r; simpl in *. subst. by rewrite app_nil_r.
  - rewrite (recv_cons r q (es ++ rest) Hq).
    destruct (Nat.leb_spec batchSize (length (batch r ++ [q]))) as [Hle|_].
    { rewrite length_app in Hle. simpl in *. lia. }
    simpl. rewrite IH; [| done | simpl; rewrite length_app; simpl in *; lia].
    simpl. by rewrite <- app_assoc.
Qed.

Lemma log_all_app es1 es2 r : log_all (es1 ++ es2) r = log_all es1 r ≫= log_all es2.
Proof.
  revert r. induction es1 as [|q es IH]; intros r; simpl; [done|].
  destruct (Log q r); simpl; [apply IH | done].
Qed.

(** ** Properties of the pipeline *)

(** C11: Every state the pipeline reaches from [NewRepository] satisfies
    the invariant: the channel holds at most 10000 events, the batch
    fewer than 1000, every [writeBatch] call gets between 1 and 1000
    events, the table holds exactly the rows of the successful calls, and
    once [done] is closed the channel is closed and drained. *)
Theorem pipeline_reachable_inv fs r :
  rtc step (NewRepository fs) r → inv r.
Proof. intros Hs. eapply inv_rtc; [apply inv_NewRepository | done]. Qed.

(** C12: No event is lost or reordered by the pipeline: along any
    interleaving of [Log], [Close] and worker iterations, the accepted
    events of the earlier state are a prefix of those of the later one
    (each accepted event stays, in order, in the channel, the batch, or a
    batch handed to [writeBatch]). *)
Theorem pipeline_no_loss r r' :
  rtc step r r' → accepted r `prefix_of` accepted r'.
Proof. induction 1; [done|]. etrans; [apply step_accepted|]; done. Qed.

(** C13: Shutdown.  [Close] on a reachable state lets the worker finish
    within [length logChan + 1] iterations; when it closes [done] (and
    [Close] returns), every event accepted before [Close] has been handed
    to [writeBatch], in order, and the table holds the rows of the
    successful calls. *)
Theorem Shutdown_flushes_all fs r r1 :
  rtc step (NewRepository fs) r → Close r = Ok r1 →
  let r' := drain (S (length (logChan r1))) r1 in
  done r' = true ∧ rtc worker_step r1 r' ∧
  concat (map fst (flushes r')) = accepted r ∧ table r' = stored_of (flushes r').
Proof.
  intros Hs Hc r'.
  assert (Hi1 : inv r1) by (eapply inv_Close; [eapply inv_rtc; [apply inv_NewRepository | done] | done]).
  assert (Hcl : chanClosed r1 = true)
    by (revert Hc; unfold Close; destruct (chanClosed r); [done|]; by intros [=<-]).
  destruct (drain_spec (S (length (logChan r1))) r1 Hi1 Hcl ltac:(lia)) as (Hd & Ha & Hw & Hi).
  fold r' in Hd, Ha, Hw, Hi.
  destruct (inv_done _ Hi Hd) as (_ & Hq & Hb).
  split_and!; [done | done | | apply Hi].
  rewrite <- (accepted_Close r r1 Hc), <- Ha. unfold accepted. rewrite Hq, Hb.
  by rewrite !app_nil_r.
Qed.

(** C14: Size-triggered flush.  With an empty batch and [batchSize]
    events at the head of the channel, [batchSize] receives make exactly
    one [writeBatch] call, with exactly those events, and leave the batch
    empty. *)
Theorem batch_full_flush r es rest :
  batch r = [] → logChan r = es ++ rest → length es = batchSize →
  ∃ r' ok, recv_n batchSize r = Some r' ∧
    flushes r' = flushes r ++ [(es, ok)] ∧ batch r' = [] ∧ logChan r' = rest.
Proof.
  intros Hb Hq Hlen.
  destruct (exists_last (l := es)) as (es' & q & ->); [by intros ->|].
  rewrite length_app in Hlen. simpl in Hlen.
  replace batchSize with (length es' + 1)%nat by lia.
  rewrite recv_n_add, (recv_n_fill r es' (q :: rest));
    [| by rewrite Hq, <- app_assoc | rewrite Hb; simpl; lia].
  set (X := mkRepo (q :: rest) (chanClosed r) (batch r ++ es') (done r) (table r)
              (flushes r) (diag r) (conn_faults r)).
  assert (HX : recv X = Some (flush (recv_push q rest X))).
  { rewrite (recv_cons X q rest eq_refl).
    destruct (Nat.leb_spec batchSize (length (batch X ++ [q]))) as [_|Hlt]; [done|].
    unfold X in Hlt. rewrite Hb, app_nil_l, length_app in Hlt. simpl in Hlt. lia. }
  eexists _, _. split.
  { change (Some X ≫= recv_n 1) with (recv_n 1 X). rewrite recv_n_1. exact HX. }
  rewrite flush_eq by (unfold recv_push, X; simpl; by destruct (batch r ++ es')).
  unfold recv_push, X. simpl. by rewrite Hb.
Qed.

(** C15: Time-triggered flush.  Events logged into a fresh pipeline,
    fewer than [batchSize], are received without any write; the next tick
    makes exactly one [writeBatch] call with exactly those events. *)
Theorem tick_flushes_pending fs es :
  (0 < length es < batchSize)%nat →
  ∃ r1 r2, log_all es (NewRepository fs) = Ok r1 ∧ recv_n (length es) r1 = Some r2 ∧
    flushes r2 = [] ∧ flushes (flush r2) = [(es, negb (hd false fs))] ∧ batch (flush r2) = [].
Proof.
  intros Hlen.
  assert (Hlog : ∀ r, chanClosed r = false → (length (logChan r) + length es ≤ chanCap)%nat →
            log_all es r = Ok (mkRepo (logChan r ++ es) false (batch r) (done r) (table r)
                                 (flushes r) (diag r) (conn_faults r))).
  { clear Hlen. induction es as [|q es IH]; intros r Hc Hl; simpl.
    - destruct r; simpl in *; subst. by rewrite app_nil_r.
    - unfold Log at 1. rewrite Hc.
      destruct (Nat.ltb_spec (length (logChan r)) chanCap); [|simpl in Hl; lia].
      simpl. rewrite IH; simpl; [by rewrite <- app_assoc | done | rewrite length_app; simpl in *; lia]. }
  rewrite Hlog by (simpl; try done; unfold chanCap, batchSize in *; lia).
  eexists _, _. split; [done|]. simpl.
  rewrite (recv_n_fill _ es []) by (simpl; rewrite ?app_nil_r; done || lia).
  split_and!; [done | done | |];
    rewrite flush_eq by (simpl; destruct es; [simpl in Hlen; lia | done]); done.
Qed.

(** Producers into an open channel: a sequence of events is accepted up
    to the channel's free room and the rest are dropped, each drop leaving
    one line on the log. *)
Lemma log_all_open r es :
  chanClosed r = false → (length (logChan r) ≤ chanCap)%nat →
  ∃ r', log_all es r = Ok r' ∧
    logChan r' = logChan r ++ take (chanCap - length (logChan r)) es ∧
    diag r' = diag r ++ replicate (length es - (chanCap - length (logChan r))) msg_drop ∧
    batch r' = batch r ∧ flushes r' = flushes r.
Proof.
  revert r. induction es as [|q es IH]; intros r Hc Hl; simpl.
  { exists r. rewrite take_nil. simpl. by rewrite !app_nil_r. }
  unfold Log at 1. rewrite Hc.
  destruct (Nat.ltb_spec (length (logChan r)) chanCap) as [Hlt|Hge]; simpl.
  - destruct (IH (mkRepo (logChan r ++ [q]) false (batch r) (done r) (table r)
                     (flushes r) (diag r) (conn_faults r))) as (r' & H1 & H2 & H3 & H4 & H5);
      simpl; [done | rewrite length_app; simpl; lia |].
    exists r'. simpl in H2, H3. rewrite length_app in H2, H3. simpl in H2, H3.
    replace (chanCap - length (logChan r))%nat with (S (chanCap - (length (logChan r) + 1)))
      by lia.
    simpl. rewrite H2, <- app_assoc. split_and!; try done.
    all: rewrite H3; do 2 f_equal; lia.
  - destruct (IH (mkRepo (logChan r) false (batch r) (done r) (table r)
                     (flushes r) (diag r ++ [msg_drop]) (conn_faults r))) as (r' & H1 & H2 & H3 & H4 & H5);
      simpl; [done | lia |].
    exists r'. simpl in H2, H3.
    replace (chanCap - length (logChan r))%nat with 0%nat in * by lia.
    rewrite Nat.sub_0_r in *. simpl. rewrite H2, H3, <- app_assoc. done.
Qed.

(** After [Close], a [Log] panics (send on a closed channel) and a
    second [Close] panics (close of a closed channel). *)
Lemma Close_then_misuse r r1 req :
  Close r = Ok r1 → Log req r1 = Err panic_send ∧ Close r1 = Err panic_close.
Proof. unfold Close. destruct (chanClosed r); [done|]. by intros [=<-]. Qed.

(** C16: [Log] never blocks: it accepts, drops or panics.  Into an open
    channel, a sequence of events is accepted up to the channel's free
    room and the rest are dropped, each drop leaving one line on the log:
    the channel then holds its previous contents and the first events that
    fitted.  After [Close], every [Log] panics (send on a closed channel)
    and so does a second [Close] (close of a closed channel). *)
Theorem Log_never_blocks r es r0 r1 :
  (chanClosed r = false → (length (logChan r) ≤ chanCap)%nat →
   ∃ r', log_all es r = Ok r' ∧
     logChan r' = logChan r ++ take (chanCap - length (logChan r)) es ∧
     diag r' = diag r ++ replicate (length es - (chanCap - length (logChan r))) msg_drop ∧
     batch r' = batch r ∧ flushes r' = flushes r) ∧
  (Close r0 = Ok r1 → ∀ req, Log req r1 = Err panic_send ∧ Close r1 = Err panic_close).
Proof. split; [apply log_all_open | intros Hc req; by apply (Close_then_misuse r0)]. Qed.

(** C6: Termination of the worker.  Without producers, the worker makes
    finitely many iterations that change the state: receives and ticks
    that flush a non-empty batch lower [worker_measure], and only a tick
    on an empty batch leaves the state as it is.  Once the channel is
    closed, a worker that has not closed [done] can always make such an
    iteration, so every run after [Close] that does not idle forever on
    ticks ends with [done] closed. *)
Theorem worker_terminates :
  well_founded worker_progress ∧
  ∀ r, chanClosed r = true → done r = false → ∃ r', worker_progress r' r.
Proof.
  split.
  - apply (wf_incl _ _ (ltof _ worker_measure)); [exact worker_progress_measure|].
    apply well_founded_ltof.
  - intros r Hc Hd. destruct (recv_closed_progress r Hc) as [r' Hr].
    exists r'. split; [by constructor|]. intros ->. pose proof (recv_measure r r Hd Hr). lia.
Qed.

Lemma to_row_small l :
  int32_min ≤ DomainID l ≤ int32_max → int32_min ≤ Status l ≤ int32_max → to_row l = l.
Proof. intros H1 H2. destruct l; unfold to_row; simpl in *. by rewrite !wrap_int32_small. Qed.

(** C18: Every row in the table has its domain id and status in the
    [int32] range, and a row equals its event when both fit: an event
    whose domain id is 2^31 or more is stored under a wrapped id. *)
Theorem stored_rows_int32 fs r :
  rtc step (NewRepository fs) r →
  Forall (λ row, int32_min ≤ DomainID row ≤ int32_max ∧ int32_min ≤ Status row ≤ int32_max)
    (table r) ∧
  ∀ l, to_row l = l ↔ int32_min ≤ DomainID l ≤ int32_max ∧ int32_min ≤ Status l ≤ int32_max.
Proof.
  intros Hs. split.
  - rewrite (inv_table _ (inv_rtc _ _ (inv_NewRepository fs) Hs)). unfold stored_of.
    apply Forall_concat, Forall_forall. intros x Hx.
    apply list_elem_of_In, in_map_iff in Hx as ([b ok] & <- & _).
    destruct ok; [|constructor]. apply Forall_forall. intros y Hy.
    apply list_elem_of_In, in_map_iff in Hy as (l & <- & _). simpl. auto with namex.
  - intros l. split; [|intros [? ?]; by apply to_row_small].
    intros Hl. rewrite <- Hl. simpl. auto with namex.
Qed.

(** ** Witnesses *)

Local Abbreviation ev :=
  (mkRequestLog 1700000000 7 "198.51.100.4" "curl" "GET" "/" 200 1500 "ALLOW").
Local Abbreviation one_logged := (mkRepo [ev] false [] false [] [] [] []).

Lemma one_logged_reachable : rtc step (NewRepository []) one_logged.
Proof. apply rtc_once. apply (st_log ev). reflexivity. Qed.

Lemma pipeline_reachable_inv_witness :
  rtc step (NewRepository []) one_logged ∧ inv one_logged.
Proof. split; [apply one_logged_reachable | apply (pipeline_reachable_inv []), one_logged_reachable]. Defined.

Lemma pipeline_no_loss_witness :
  rtc step (NewRepository []) one_logged ∧ accepted (NewRepository []) `prefix_of` accepted one_logged.
Proof. split; [apply one_logged_reachable | apply pipeline_no_loss, one_logged_reachable]. Defined.

Lemma Shutdown_flushes_all_witness :
  rtc step (NewRepository []) one_logged ∧
  Close one_logged = Ok (mkRepo [ev] true [] false [] [] [] []) ∧
  let r' := drain (S (length (logChan (mkRepo [ev] true [] false [] [] [] [])))) (mkRepo [ev] true [] false [] [] [] []) in
  done r' = true ∧ rtc worker_step (mkRepo [ev] true [] false [] [] [] []) r' ∧
  concat (map fst (flushes r')) = accepted one_logged ∧ table r' = stored_of (flushes r').
Proof.
  refine (conj one_logged_reachable (conj eq_refl _)).
  apply (Shutdown_flushes_all [] one_logged); [apply one_logged_reachable | reflexivity].
Defined.

Lemma batch_full_flush_witness :
  batch (mkRepo (repeat ev 1000) false [] false [] [] [] []) = [] ∧
  logChan (mkRepo (repeat ev 1000) false [] false [] [] [] []) = repeat ev 1000 ++ [] ∧
  length (repeat ev 1000) = batchSize ∧
  ∃ r' ok, recv_n batchSize (mkRepo (repeat ev 1000) false [] false [] [] [] []) = Some r' ∧
    flushes r' = flushes (mkRepo (repeat ev 1000) false [] false [] [] [] []) ++ [(repeat ev 1000, ok)] ∧
    batch r' = [] ∧ logChan r' = [].
Proof.
  refine (conj eq_refl (conj _ (conj eq_refl _))); [by rewrite app_nil_r|].
  apply batch_full_flush; [reflexivity | by rewrite app_nil_r | reflexivity].
Defined.

Lemma tick_flushes_pending_witness :
  (0 < length (repeat ev 10) < batchSize)%nat ∧
  ∃ r1 r2, log_all (repeat ev 10) (NewRepository []) = Ok r1 ∧
    recv_n (length (repeat ev 10)) r1 = Some r2 ∧
    flushes r2 = [] ∧ flushes (flush r2) = [(repeat ev 10, negb (hd false []))] ∧
    batch (flush r2) = [].
Proof. split; [concrete | apply tick_flushes_pending; concrete]. Defined.

Lemma Log_never_blocks_witness :
  (chanClosed (mkRepo (repeat ev 9998) false [] false [] [] [] []) = false ∧
   (length (logChan (mkRepo (repeat ev 9998) false [] false [] [] [] [])) ≤ chanCap)%nat ∧
   ∃ r', log_all (repeat ev 5) (mkRepo (repeat ev 9998) false [] false [] [] [] []) = Ok r' ∧
     logChan r' = repeat ev 9998 ++
       take (chanCap - length (logChan (mkRepo (repeat ev 9998) false [] false [] [] [] []))) (repeat ev 5) ∧
     diag r' = [] ++ replicate (length (repeat ev 5) -
       (chanCap - length (logChan (mkRepo (repeat ev 9998) false [] false [] [] [] [])))) msg_drop ∧
     batch r' = [] ∧ flushes r' = []) ∧
  (Close (NewRepository []) = Ok (mkRepo [] true [] false [] [] [] []) ∧
   Log ev (mkRepo [] true [] false [] [] [] []) = Err panic_send ∧
   Close (mkRepo [] true [] false [] [] [] []) = Err panic_close).
Proof.
  split.
  - refine (conj eq_refl (conj _ _)); [concrete|].
    apply (proj1 (Log_never_blocks (mkRepo (repeat ev 9998) false [] false [] [] [] []) (repeat ev 5)
                    (NewRepository []) (mkRepo [] true [] false [] [] [] []))); concrete.
  - split; [reflexivity|].
    apply (proj2 (Log_never_blocks (NewRepository []) [] (NewRepository [])
                    (mkRepo [] true [] false [] [] [] []))); reflexivity.
Defined.

Lemma stored_rows_int32_witness :
  rtc step (NewRepository []) one_logged ∧
  Forall (λ row, int32_min ≤ DomainID row ≤ int32_max ∧ int32_min ≤ Status row ≤ int32_max)
    (table one_logged) ∧
  ∀ l, to_row l = l ↔ int32_min ≤ DomainID l ≤ int32_max ∧ int32_min ≤ Status l ≤ int32_max.
Proof. split; [apply one_logged_reachable | apply (stored_rows_int32 []), one_logged_reachable]. Defined.

End analytics.
