(* ===== verification/Engine.v ===== *)
(** * The decision engine: [engine/engine.go]

    [Engine] holds the domain and bot repositories (the [Db] of [Store]),
    the analytics repository (the [analytics.Repo] of [Analytics]) and a
    Redis client (any [CounterStore]; the theorems that need time or faults
    use the [Redis] instance).  The section [WithStore] defines the
    operations over any counter store: [checkRateLimit], [AnalyzeIP],
    [Analyze], and the telemetry helpers [LogRequest] and [LogDNSQuery],
    which hand one event to [analytics.Log].  Each operation returns the new
    counter store (or analytics repository) with its result. *)

From S2P Require Import Prelude GoStd Store Redis Analytics.

Module engine.

(** [engine.Action]. *)
Inductive Action := ActionAllow | ActionBlock | ActionChallenge.

#[export] Instance Action_eq_dec : EqDecision Action.
Proof. solve_decision. Defined.

Definition action_string (a : Action) : string :=
  match a with
  | ActionAllow => "ALLOW"
  | ActionBlock => "BLOCK"
  | ActionChallenge => "CHALLENGE"
  end.

(** [engine.Decision]: [Action] is the name of the type, hence [DAction];
    [Domain] is the [*domain.Domain] pointer, [None] for nil. *)
Record Decision := mkDecision {
  DAction : Action;
  Reason : string;
  Domain : option domain.Domain;
  RequestID : string
}.

(** The fields of an [*http.Request] the engine and the proxy read:
    [r.Host], [r.RemoteAddr], [r.Method], [r.URL.Path],
    [r.UserAgent()]. *)
Record Request := mkRequest {
  Host : string;
  RemoteAddr : string;
  Method : string;
  URLPath : string;
  UserAgent : string
}.

(** [limit := 100] and [time.Minute]. *)
Definition limit : Z := 100.
Definition window : Z := 60.

(** [fmt.Sprintf("ratelimit:%d:%s", domainID, ip)]. *)
Definition rate_key (domainID : Z) (ip : string) : string :=
  "ratelimit:" +:+ GoStd.itoa domainID +:+ ":" +:+ ip.

(** The test of the rule loop of [AnalyzeIP]. *)
Definition rule_blocks (clientIP : string) (rule : bot.BotRule) : bool :=
  String.eqb (bot.RuleType rule) "IP" && String.eqb (bot.Value rule) clientIP
  && String.eqb (bot.Action rule) "BLOCK".

Definition reason_inactive : string := "Domain not found or inactive".
Definition reason_rate : string := "Rate limit exceeded".
Definition reason_rule (rule : bot.BotRule) : string :=
  "IP blocked by rule: " +:+ bot.Description rule.

Definition block (reason : string) : Decision := mkDecision ActionBlock reason None "".
Definition allow : Decision := mkDecision ActionAllow "" None "".

(** [count <= int64(limit)], as the action [AnalyzeIP] takes. *)
Definition verdict (count : Z) : Action :=
  if count <=? limit then ActionAllow else ActionBlock.

Definition with_domain (dec : Decision) (d : domain.Domain) : Decision :=
  mkDecision (DAction dec) (Reason dec) (Some d) (RequestID dec).

(** The first rule of the table that blocks [clientIP]; the error of
    [GetAll] is swallowed ([if err == nil { ... }]). *)
Definition matching_rule (db : Db) (clientIP : string) : option bot.BotRule :=
  match BotRepo.GetAll db with
  | Ok rules => List.find (rule_blocks clientIP) rules
  | Err _ => None
  end.

Section WithStore.
Context {St : Type} `{!CounterStore St}.

(** [checkRateLimit]: [(allowed, err)]; an INCR error allows
    ([return true, err]); the first INCR of a window sets the expiry,
    whose error is ignored. *)
Definition checkRateLimit (s : St) (domainID : Z) (ip : string)
    : (bool * option string) * St :=
  let key := rate_key domainID ip in
  match cs_incr key s with
  | (Err e, s1) => ((true, Some e), s1)
  | (Ok count, s1) =>
    let s2 := if count =? 1 then snd (cs_expire key window s1) else s1 in
    ((count <=? limit, None), s2)
  end.

(** [AnalyzeIP]: bot rules first, then the rate limit; the rate-limit
    error is only printed ([fmt.Printf]), and [allowed] decides. *)
Definition AnalyzeIP (db : Db) (s : St) (clientIP : string) (domainID : Z)
    (domainName : string) : Decision * St :=
  match matching_rule db clientIP with
  | Some rule => (block (reason_rule rule), s)
  | None =>
    let '((allowed, _), s') := checkRateLimit s domainID clientIP in
    if allowed then (allow, s') else (block reason_rate, s')
  end.

(** The host name of [r.Host]: the port is removed when
    [net.SplitHostPort] succeeds. *)
Definition request_host (r : Request) : string :=
  match GoStd.SplitHostPort (Host r) with
  | Ok (h, _) => h
  | Err _ => Host r
  end.

(** [Analyze]: the domain lookup error is returned; an unknown or
    inactive domain is blocked before any rule or counter is read;
    otherwise [AnalyzeIP] on the client address, with the domain
    attached to the decision. *)
Definition Analyze (db : Db) (s : St) (r : Request) : result Decision * St :=
  let host := request_host r in
  match DomainRepo.GetByName db host with
  | Err e => (Err e, s)
  | Ok None => (Ok (block reason_inactive), s)
  | Ok (Some d) =>
    if negb (domain.Active d) then (Ok (block reason_inactive), s)
    else
      let clientIP := GoStd.host_of (RemoteAddr r) in
      let '(dec, s') := AnalyzeIP db s clientIP (domain.ID d) host in
      (Ok (with_domain dec d), s')
  end.

End WithStore.

(** [LogRequest]: one event for an HTTP request; [now] is [time.Now()] in
    nanoseconds and [duration] in nanoseconds ([duration.Microseconds()]
    truncates). *)
Definition request_log (now : Z) (req : Request) (dec : Decision) (status duration : Z)
    : analytics.RequestLog :=
  let domainID := match Domain dec with Some d => domain.ID d | None => 0 end in
  analytics.mkRequestLog now domainID (GoStd.host_of (RemoteAddr req))
    (UserAgent req) (Method req) (URLPath req) status
    (Z.quot duration 1000) (action_string (DAction dec)).

Definition LogRequest (repo : analytics.Repo) (now : Z) (req : Request)
    (dec : Decision) (status duration : Z) : result analytics.Repo :=
  analytics.Log (request_log now req dec status duration) repo.

(** [LogDNSQuery]: one event for a DNS query, status and duration 0. *)
Definition LogDNSQuery (repo : analytics.Repo) (now : Z) (clientIP : string)
    (domainID : Z) (queryName queryType : string) (action : Action)
    : result analytics.Repo :=
  analytics.Log (analytics.mkRequestLog now domainID clientIP "DNS" queryType
                   queryName 0 0 (action_string action)) repo.

(** The decisions [Analyze] can return, as a checkable property: no
    request id; ALLOW only with an active domain and an empty reason;
    BLOCK without a domain only for the inactive reason, and with an
    active domain for the rate limit or a rule. *)
Definition decision_wf (dec : Decision) : bool :=
  String.eqb (RequestID dec) "" &&
  match DAction dec, Domain dec with
  | ActionAllow, Some d => domain.Active d && String.eqb (Reason dec) ""
  | ActionBlock, None => String.eqb (Reason dec) reason_inactive
  | ActionBlock, Some d =>
    domain.Active d && (String.eqb (Reason dec) reason_rate
                        || String.prefix "IP blocked by rule: " (Reason dec))
  | _, _ => false
  end.

(** Two requests the engine reads alike: the same host once the port is
    removed, and the same host part of the remote address. *)
Definition same_client (r1 r2 : Request) : Prop :=
  request_host r1 = request_host r2 ∧ GoStd.host_of (RemoteAddr r1) = GoStd.host_of (RemoteAddr r2).

#[export] Instance same_client_equiv : Equivalence same_client.
Proof. unfold same_client. split; [done | intros ?? [??] | intros ??? [??] [??]]; split; congruence. Qed.

(** [n] calls of [AnalyzeIP] for the same client and domain, with no
    other traffic: the actions returned, in order. *)
Fixpoint analyze_n {St} `{!CounterStore St} (n : nat) (db : Db) (s : St)
    (clientIP : string) (domainID : Z) (name : string) : list Action * St :=
  match n with
  | O => ([], s)
  | S m =>
    let '(dec, s1) := AnalyzeIP db s clientIP domainID name in
    let '(acts, s2) := analyze_n m db s1 clientIP domainID name in
    (DAction dec :: acts, s2)
  end.

(** ** The contract of the rate-limit check

    Section 4.1 of the specification: per key, a fixed window opened by
    its first call and lasting [window] seconds; a call in a current
    window counts one more, a call after it opens a new window; the call is
    allowed while its window holds at most [limit] calls. *)
Module FixedWindow.

Record Window := mkWindow { opened : Z; hits : Z }.

Definition current (t : Z) (w : Window) : bool := t <? opened w + window.

Definition hit (t : Z) (k : string) (m : gmap string Window) : bool * gmap string Window :=
  let w := match m !! k with
           | Some w => if current t w then mkWindow (opened w) (hits w + 1) else mkWindow t 1
           | None => mkWindow t 1
           end in
  (hits w <=? limit, <[k := w]> m).

End FixedWindow.

(** Timed calls: each waits [dt] seconds, then checks the pair [(id, ip)]. *)
Definition timed_call : Type := Z * Z * string.

(** [checkRateLimit] over Redis along timed calls: the verdicts. *)
Fixpoint checks (tr : list timed_call) (s : Redis.State) : list bool * Redis.State :=
  match tr with
  | [] => ([], s)
  | (dt, id, ip) :: tr' =>
    let '((ok, _), s1) := checkRateLimit (Redis.advance dt s) id ip in
    let '(oks, s2) := checks tr' s1 in
    (ok :: oks, s2)
  end.

(** The contract along the same calls, from time [t]. *)
Fixpoint windows (tr : list timed_call) (t : Z) (m : gmap string FixedWindow.Window)
    : list bool * gmap string FixedWindow.Window :=
  match tr with
  | [] => ([], m)
  | (dt, id, ip) :: tr' =>
    let '(ok, m1) := FixedWindow.hit (t + dt) (rate_key id ip) m in
    let '(oks, m2) := windows tr' (t + dt) m1 in
    (ok :: oks, m2)
  end.

(** The Redis entry of a window: its count, with the deadline EXPIRE set
    when the window opened. *)
Definition entry_of (w : FixedWindow.Window) : Redis.Entry :=
  Redis.mkEntry (FixedWindow.hits w) (Some (FixedWindow.opened w + window)).

(** The simulation: Redis stores exactly the windows' entries. *)
Definition window_rel (s : Redis.State) (m : gmap string FixedWindow.Window) : Prop :=
  Redis.kv s = entry_of <$> m.

Definition hits_within (B : Z) (m : gmap string FixedWindow.Window) : Prop :=
  map_Forall (λ _ w, 1 ≤ FixedWindow.hits w ≤ B) m.

(** ** Lemmas over any lawful counter store *)

Section Laws.
Context {St : Type} `{!CounterStore St, !CounterStoreLaws St}.
Implicit Types (s : St) (db : Db).

Lemma checkRateLimit_err s id ip e :
  fst (cs_incr (rate_key id ip) s) = Err e →
  checkRateLimit s id ip = ((true, Some e), snd (cs_incr (rate_key id ip) s)).
Proof.
  unfold checkRateLimit. destruct (cs_incr (rate_key id ip) s). simpl. by intros ->.
Qed.

(** On a healthy store, the check increments the pair's counter by one
    and allows exactly when the new count is at most [limit]. *)
Lemma checkRateLimit_healthy s id ip :
  cs_healthy s → cs_count (rate_key id ip) s < int64_max →
  fst (checkRateLimit s id ip) = (cs_count (rate_key id ip) s + 1 <=? limit, None) ∧
  cs_count (rate_key id ip) (snd (checkRateLimit s id ip))
    = cs_count (rate_key id ip) s + 1 ∧
  cs_healthy (snd (checkRateLimit s id ip)).
Proof.
  intros Hh Hlt. pose proof (cs_incr_ok _ _ Hh Hlt) as Hok.
  pose proof (cs_incr_count _ _ Hh Hlt) as Hc.
  pose proof (cs_incr_healthy (rate_key id ip) _ Hh) as Hh1.
  unfold checkRateLimit. destruct (cs_incr (rate_key id ip) s) as [r s1].
  simpl in *. subst r.
  destruct (_ =? 1); simpl; split_and!; try done.
  - by rewrite cs_expire_count by (unfold window; lia).
  - by apply cs_expire_healthy.
Qed.

(** The check touches no other counter. *)
Lemma checkRateLimit_other s id ip k :
  k ≠ rate_key id ip → cs_count k (snd (checkRateLimit s id ip)) = cs_count k s.
Proof.
  intros Hne. pose proof (cs_incr_other _ _ s Hne) as Ho.
  unfold checkRateLimit. destruct (cs_incr (rate_key id ip) s) as [[c|e] s1].
  - simpl in *. destruct (c =? 1); simpl; [|done].
    rewrite cs_expire_count by (unfold window; lia). done.
  - done.
Qed.

Lemma AnalyzeIP_rule db s ip id name rule :
  matching_rule db ip = Some rule →
  AnalyzeIP db s ip id name = (block (reason_rule rule), s).
Proof. unfold AnalyzeIP. by intros ->. Qed.

Lemma AnalyzeIP_no_rule db s ip id name :
  matching_rule db ip = None →
  AnalyzeIP db s ip id name =
    (if (checkRateLimit s id ip).1.1 then allow else block reason_rate,
     (checkRateLimit s id ip).2).
Proof.
  unfold AnalyzeIP. intros ->. by destruct (checkRateLimit s id ip) as [[[] ?] ?].
Qed.

Lemma AnalyzeIP_other db s ip id name k :
  k ≠ rate_key id ip → cs_count k (AnalyzeIP db s ip id name).2 = cs_count k s.
Proof.
  intros Hne. destruct (matching_rule db ip) eqn:Hm.
  - by rewrite AnalyzeIP_rule with (rule := b).
  - rewrite AnalyzeIP_no_rule by done. simpl. by apply checkRateLimit_other.
Qed.

(** One call with no blocking rule on a healthy store: the counter goes
    up by one and the call is allowed iff the new count is at most 100. *)
Lemma AnalyzeIP_count db s ip id name :
  matching_rule db ip = None → cs_healthy s →
  cs_count (rate_key id ip) s < int64_max →
  DAction (AnalyzeIP db s ip id name).1 = verdict (cs_count (rate_key id ip) s + 1) ∧
  cs_count (rate_key id ip) (AnalyzeIP db s ip id name).2 = cs_count (rate_key id ip) s + 1 ∧
  cs_healthy (AnalyzeIP db s ip id name).2.
Proof.
  intros Hm Hh Hlt. rewrite AnalyzeIP_no_rule by done.
  destruct (checkRateLimit_healthy s id ip Hh Hlt) as (H1 & H2 & H3).
  rewrite H1. simpl. unfold verdict. split_and!; [by destruct (_ <=? limit) | done | done].
Qed.

(** Every outcome of [Analyze]: the lookup error, BLOCK for an unknown or
    inactive domain, or [AnalyzeIP]'s decision with the domain attached. *)
Lemma Analyze_cases db s r res s' :
  Analyze db s r = (res, s') →
  (∃ e, DomainRepo.GetByName db (request_host r) = Err e ∧ res = Err e ∧ s' = s) ∨
  (res = Ok (block reason_inactive) ∧ s' = s) ∨
  (∃ d, DomainRepo.GetByName db (request_host r) = Ok (Some d) ∧ domain.Active d = true ∧
     res = Ok (with_domain (AnalyzeIP db s (GoStd.host_of (RemoteAddr r)) (domain.ID d)
                              (request_host r)).1 d) ∧
     s' = (AnalyzeIP db s (GoStd.host_of (RemoteAddr r)) (domain.ID d) (request_host r)).2).
Proof.
  unfold Analyze. destruct (DomainRepo.GetByName db (request_host r)) as [[d|]|e]; intros H.
  - destruct (domain.Active d) eqn:Ha; simpl in H; [|right; left; by simplify_eq].
    right; right. exists d. split_and!; try done;
      destruct (AnalyzeIP _ _ _ _ _); by simplify_eq.
  - right; left. by simplify_eq.
  - left. exists e. by simplify_eq.
Qed.

(** [n] calls with no blocking rule on a healthy store: the verdicts of
    the counts [c+1 .. c+n], the counter at [c+n] and the store still
    healthy. *)
Lemma analyze_n_spec db s ip id name n :
  matching_rule db ip = None → cs_healthy s →
  cs_count (rate_key id ip) s + Z.of_nat n < int64_max →
  (analyze_n n db s ip id name).1 =
    map (λ i : nat, verdict (cs_count (rate_key id ip) s + Z.of_nat i)) (seq 1 n) ∧
  cs_count (rate_key id ip) (analyze_n n db s ip id name).2
    = cs_count (rate_key id ip) s + Z.of_nat n ∧
  cs_healthy (analyze_n n db s ip id name).2.
Proof.
  revert s. induction n as [|n IH]; intros s Hm Hh Hlt; simpl; [split_and!; done || lia|].
  destruct (AnalyzeIP_count db s ip id name Hm Hh ltac:(lia)) as (H1 & H2 & H3).
  destruct (AnalyzeIP db s ip id name) as [dec s1]. simpl in *.
  destruct (IH s1 Hm H3 ltac:(lia)) as (IH1 & IH2 & IH3).
  destruct (analyze_n n db s1 ip id name) as [acts s2]. simpl in *.
  rewrite H1, IH1, IH2, H2, <- (seq_shift n 1), map_map. split_and!; [|lia|done].
  f_equal. apply map_ext. intros i. f_equal. lia.
Qed.

End Laws.

(** ** Properties of the engine over any lawful counter store *)

Section Properties.
Context {St : Type} `{!CounterStore St, !CounterStoreLaws St}.
Implicit Types (s : St) (db : Db).

Lemma matching_rule_first db ip rule :
  matching_rule db ip = Some rule →
  ∃ pre post, bot_rules db = pre ++ rule :: post ∧
    Forall (λ x, rule_blocks ip x = false) pre ∧ rule_blocks ip rule = true.
Proof.
  unfold matching_rule, BotRepo.GetAll. destruct (db_up db); [|done].
  apply find_Some_split.
Qed.

(** C2: A rule of type "IP" with action "BLOCK" whose value is the client
    address blocks the call whatever the client's counter, before the
    rate limit is consulted: the counter store is left as it was, and the
    reason is the description of the first such rule of the table. *)
Theorem AnalyzeIP_rule_blocks db s ip id name rule :
  db_up db = true → In rule (bot_rules db) →
  bot.RuleType rule = "IP" → bot.Value rule = ip → bot.Action rule = "BLOCK" →
  ∃ first pre post,
    bot_rules db = pre ++ first :: post ∧
    Forall (λ x, rule_blocks ip x = false) pre ∧ rule_blocks ip first = true ∧
    AnalyzeIP db s ip id name = (block (reason_rule first), s).
Proof.
  intros Hup Hin Ht Hv Ha.
  assert (Hb : rule_blocks ip rule = true)
    by (unfold rule_blocks; rewrite Ht, Hv, Ha; by rewrite !String.eqb_refl).
  destruct (find_In_true (rule_blocks ip) (bot_rules db) rule Hin Hb) as [first Hf].
  assert (Hm : matching_rule db ip = Some first)
    by (unfold matching_rule, BotRepo.GetAll; by rewrite Hup).
  destruct (matching_rule_first _ _ _ Hm) as (pre & post & Hsplit & Hpre & Hfirst).
  exists first, pre, post. split_and!; try done. by apply AnalyzeIP_rule.
Qed.

(** C1: The fixed window.  With no blocking rule and a healthy store, [n]
    successive calls for one (domain, client) pair whose counter is at
    [c] answer, in order, the verdicts of the counts [c+1 .. c+n]: ALLOW
    up to 100, BLOCK above. *)
Theorem AnalyzeIP_fixed_window db s ip id name n :
  matching_rule db ip = None → cs_healthy s →
  cs_count (rate_key id ip) s + Z.of_nat n < int64_max →
  (analyze_n n db s ip id name).1 =
    map (λ i : nat, verdict (cs_count (rate_key id ip) s + Z.of_nat i)) (seq 1 n).
Proof. intros Hm Hh Hlt. by apply analyze_n_spec. Qed.

(** C5: Fail-open.  When no rule blocks (in particular when the rule
    table cannot be read) and the counter store answers INCR with an
    error, the call is allowed. *)
Theorem AnalyzeIP_fail_open db s ip id name e :
  (db_up db = false ∨ matching_rule db ip = None) →
  fst (cs_incr (rate_key id ip) s) = Err e →
  AnalyzeIP db s ip id name = (allow, snd (cs_incr (rate_key id ip) s)).
Proof.
  intros Hrule Herr.
  assert (Hm : matching_rule db ip = None).
  { destruct Hrule as [Hd|Hm]; [|done]. unfold matching_rule, BotRepo.GetAll. by rewrite Hd. }
  rewrite AnalyzeIP_no_rule, (checkRateLimit_err s id ip e Herr) by done. done.
Qed.

(** C4: An unknown or inactive domain is blocked with the reason "Domain
    not found or inactive", and the counter store is not touched. *)
Theorem Analyze_unknown_or_inactive db s r od :
  DomainRepo.GetByName db (request_host r) = Ok od →
  (od = None ∨ ∃ d, od = Some d ∧ domain.Active d = false) →
  Analyze db s r = (Ok (block reason_inactive), s).
Proof.
  unfold Analyze. intros -> [->|(d & -> & Ha)]; [done|]. by rewrite Ha.
Qed.

Lemma rate_key_inj id1 ip1 id2 ip2 :
  rate_key id1 ip1 = rate_key id2 ip2 → id1 = id2 ∧ ip1 = ip2.
Proof.
  unfold rate_key. intros H. apply GoStd.append_inv_l in H.
  cbn [String.append] in H.
  apply (GoStd.append_colon_inj _ _ _ _ (GoStd.itoa_no_colon id1) (GoStd.itoa_no_colon id2))
    in H as [H1 H2].
  split; [by apply GoStd.itoa_inj | done].
Qed.

(** C8: Counters of distinct (domain, client) pairs are independent: a
    call for one pair leaves the counter of every other pair unchanged
    (the keys ["ratelimit:%d:%s"] of distinct pairs differ). *)
Theorem AnalyzeIP_pairs_independent db s ip id name ip' id' :
  (id', ip') ≠ (id, ip) →
  cs_count (rate_key id' ip') (AnalyzeIP db s ip id name).2 = cs_count (rate_key id' ip') s.
Proof.
  intros Hne. apply AnalyzeIP_other. intros Hk.
  apply rate_key_inj in Hk as [-> ->]. done.
Qed.

(** A rule added through [AddRule] takes effect on the next call: after
    [AddRule] stores an "IP"/"BLOCK" rule for an address, [AnalyzeIP]
    blocks that address, by the first blocking rule of the table (the new
    one or an older one), whatever its counter, and leaves the store
    untouched. *)
Lemma AddRule_then_blocked db r r' db' s id name :
  BotService.AddRule db r = Ok (r', db') →
  bot.RuleType r = "IP" → bot.Action r = "BLOCK" →
  ∃ first, In first (bot_rules db') ∧ rule_blocks (bot.Value r) first = true ∧
    AnalyzeIP db' s (bot.Value r) id name = (block (reason_rule first), s).
Proof.
  rewrite store_facts.AddRule_Db. unfold BotRepo.Create. destruct (_ || _ || _); [done|].
  destruct (db_up db); [|done]. intros [=<- <-] Ht Ha. simpl.
  match goal with |- context [bot_rules db ++ [?x]] => set (nr := x) end.
  assert (Hb : rule_blocks (bot.Value r) nr = true)
    by (unfold rule_blocks; simpl; rewrite Ht, Ha; by rewrite !String.eqb_refl).
  destruct (find_In_true (rule_blocks (bot.Value r)) (bot_rules db ++ [nr]) nr
              ltac:(apply in_or_app; right; by left) Hb) as [first Hf].
  destruct (List.find_some _ _ Hf) as [Hin Hfb].
  exists first. split_and!; [done | done |].
  apply AnalyzeIP_rule. unfold matching_rule, BotRepo.GetAll. simpl. done.
Qed.

(** [AnalyzeIP] decides one of three things. *)
Lemma AnalyzeIP_decision db s ip id name :
  (AnalyzeIP db s ip id name).1 = allow ∨ (AnalyzeIP db s ip id name).1 = block reason_rate ∨
  ∃ rule, (AnalyzeIP db s ip id name).1 = block (reason_rule rule).
Proof.
  unfold AnalyzeIP. destruct (matching_rule db ip) as [rule|]; [eauto|].
  destruct (checkRateLimit s id ip) as [[[] ?] ?]; auto.
Qed.

(** C40: The decisions [Analyze] returns are well formed.  A failure is
    the lookup error of the database with the counter store untouched;
    every decision satisfies [decision_wf]: ALLOW or BLOCK (CHALLENGE
    exists in the type only), a domain attached exactly when it was found
    active, an empty reason exactly for ALLOW, no request id. *)
Theorem Analyze_wf db s r :
  match Analyze db s r with
  | (Ok dec, _) => decision_wf dec = true
  | (Err e, s') => e = db_error ∧ s' = s
  end.
Proof.
  destruct (Analyze db s r) as [res s'] eqn:H.
  destruct (Analyze_cases _ _ _ _ _ H) as [(e & He & -> & ->)|[(-> & _)|(d & _ & Hact & -> & _)]].
  - split; [|done]. revert He. unfold DomainRepo.GetByName. by case_match; intros [=].
  - done.
  - destruct (AnalyzeIP_decision db s (GoStd.host_of (RemoteAddr r)) (domain.ID d) (request_host r))
      as [->|[->|[rule ->]]]; unfold decision_wf; simpl; rewrite Hact; [done | done |]. by destruct (bot.Description rule).
Qed.

(** C33: [Analyze] reads nothing of a request but the host without its
    port and the host part of the remote address: requests that agree on
    both (whatever their ports, method, path or user agent) get the same
    result and leave the same counter store. *)
Theorem Analyze_same_client db s r1 r2 :
  same_client r1 r2 → Analyze db s r1 = Analyze db s r2.
Proof. intros [Hh Ha]. unfold Analyze. by rewrite Hh, Ha. Qed.

End Properties.

(** ** Redis implements the fixed-window contract *)

Section Refinement.
Implicit Types (s : Redis.State) (m : gmap string FixedWindow.Window).

Lemma window_rel_get_live s m k :
  window_rel s m →
  Redis.get_live k s =
    (m !! k ≫= λ w, if FixedWindow.current (Redis.now s) w then Some (entry_of w) else None).
Proof.
  unfold window_rel, Redis.get_live. intros ->. rewrite lookup_fmap.
  destruct (m !! k) as [w|]; [|done]. simpl. unfold Redis.live, FixedWindow.current. done.
Qed.

Lemma hits_within_insert B m k w :
  hits_within B m → 1 ≤ FixedWindow.hits w ≤ B + 1 → hits_within (B + 1) (<[k := w]> m).
Proof.
  intros Hb Hw. apply map_Forall_insert_2; [done|].
  intros k' w' Hk'. specialize (Hb k' w' Hk'). simpl in Hb. lia.
Qed.

(** The EXPIRE of the call that opened a window sets its deadline. *)
Lemma EXPIRE_opened s k :
  Redis.healthy s →
  (Redis.EXPIRE k window (Redis.set_kv s (<[k := Redis.mkEntry 1 None]> (Redis.kv s)))).2
  = Redis.set_kv s (<[k := Redis.mkEntry 1 (Some (Redis.now s + window))]> (Redis.kv s)).
Proof.
  intros Hh. rewrite Redis.EXPIRE_healthy_eq by exact Hh.
  rewrite Redis.get_live_insert_eq by done. simpl. by rewrite insert_insert_eq.
Qed.

Lemma fresh_window s m B k :
  window_rel s m → hits_within B m → 0 ≤ B → Redis.healthy s →
  let s' := Redis.set_kv s (<[k := Redis.mkEntry 1 (Some (Redis.now s + window))]> (Redis.kv s)) in
  let m' := <[k := FixedWindow.mkWindow (Redis.now s) 1]> m in
  window_rel s' m' ∧ Redis.healthy s' ∧ Redis.now s' = Redis.now s ∧ hits_within (B + 1) m'.
Proof.
  intros Hr Hb HB Hh. split_and!; [| done | done | apply hits_within_insert; simpl; [done | lia]].
  unfold window_rel in *. simpl. by rewrite fmap_insert, Hr.
Qed.

(** One check on a healthy store that simulates the windows: the same
    verdict as the contract, and the simulation goes on. *)
Lemma checkRateLimit_hit s m B id ip :
  window_rel s m → Redis.healthy s → hits_within B m → 0 ≤ B < int64_max →
  (checkRateLimit s id ip).1.1 = (FixedWindow.hit (Redis.now s) (rate_key id ip) m).1 ∧
  window_rel (checkRateLimit s id ip).2 (FixedWindow.hit (Redis.now s) (rate_key id ip) m).2 ∧
  Redis.healthy (checkRateLimit s id ip).2 ∧ Redis.now (checkRateLimit s id ip).2 = Redis.now s ∧
  hits_within (B + 1) (FixedWindow.hit (Redis.now s) (rate_key id ip) m).2.
Proof.
  intros Hr Hh Hb HB. set (k := rate_key id ip).
  unfold checkRateLimit, FixedWindow.hit. fold k. simpl.
  rewrite (Redis.INCR_healthy_eq k s Hh), (window_rel_get_live s m k Hr).
  destruct (m !! k) as [w|] eqn:Hk; simpl;
    [destruct (FixedWindow.current (Redis.now s) w) eqn:Hc; simpl|].
  - pose proof (Hb k w Hk) as Hw. simpl in Hw.
    rewrite (proj2 (Z.eqb_neq (FixedWindow.hits w) int64_max)) by lia.
    rewrite (proj2 (Z.eqb_neq (FixedWindow.hits w + 1) 1)) by lia. simpl.
    split_and!; [done | | done | done | apply hits_within_insert; simpl; [done | lia]].
    unfold window_rel in *. simpl. by rewrite fmap_insert, Hr.
  - rewrite EXPIRE_opened by done. simpl. split; [done|]. apply fresh_window; [done | done | lia | done].
  - rewrite EXPIRE_opened by done. simpl. split; [done|]. apply fresh_window; [done | done | lia | done].
Qed.

(** C7: Redis implements the fixed-window contract.  Along any timed
    calls, for any pairs and any waits (even negative ones: the relation
    does not depend on the clock), [checkRateLimit] over a healthy Redis
    whose counters are the windows' entries answers exactly as the
    contract of the specification ([FixedWindow.hit]: a window of 60
    seconds opened by its first call, at most 100 calls allowed in it),
    and Redis then stores the contract's windows, as long as no count
    reaches [int64_max]. *)
Theorem checks_refine_windows tr s m B :
  window_rel s m → Redis.healthy s → hits_within B m → 0 ≤ B →
  B + Z.of_nat (length tr) < int64_max →
  (checks tr s).1 = (windows tr (Redis.now s) m).1 ∧
  window_rel (checks tr s).2 (windows tr (Redis.now s) m).2.
Proof.
  revert s m B. induction tr as [|[[dt id] ip] tr IH]; intros s m B Hr Hh Hb HB Hlt; [done|].
  cbn [length] in Hlt.
  destruct (checkRateLimit_hit (Redis.advance dt s) m B id ip Hr Hh Hb ltac:(lia))
    as (H1 & H2 & H3 & H4 & H5).
  cbn [checks windows].
  change (Redis.now s + dt) with (Redis.now (Redis.advance dt s)).
  destruct (checkRateLimit (Redis.advance dt s) id ip) as [[ok e] s1].
  destruct (FixedWindow.hit (Redis.now (Redis.advance dt s)) (rate_key id ip) m) as [ok' m1].
  simpl in H1, H2, H3, H4, H5. subst ok'.
  destruct (IH s1 m1 (B + 1) H2 H3 H5 ltac:(lia) ltac:(lia)) as [IH1 IH2].
  rewrite H4 in IH1, IH2.
  destruct (checks tr s1) as [oks s2]. destruct (windows tr _ m1) as [oks' m2].
  simpl in *. by subst.
Qed.

End Refinement.

(** ** Witnesses: the properties at concrete inputs *)

Local Abbreviation demo_db :=
  (mkDb true [domain.mkDomain 7 "shop.example" "http://10.0.0.2:8080" true None;
              domain.mkDomain 8 "old.example" "http://10.0.0.3:8080" false None]
            [bot.mkBotRule 1 "IP" "203.0.113.9" "BLOCK" "scraper";
             bot.mkBotRule 2 "IP" "203.0.113.9" "BLOCK" "duplicate"] [] 9 3).
Local Abbreviation client := "198.51.100.4"%string.
Local Abbreviation demo_req := (mkRequest "shop.example:8443" "198.51.100.4:5000" "GET" "/" "curl").

Lemma AnalyzeIP_fixed_window_witness :
  matching_rule demo_db client = None ∧ cs_healthy (Redis.empty 0) ∧
  cs_count (rate_key 7 client) (Redis.empty 0) + Z.of_nat 101 < int64_max ∧
  (analyze_n 101 demo_db (Redis.empty 0) client 7 "shop.example").1 =
    map (λ i : nat, verdict (cs_count (rate_key 7 client) (Redis.empty 0) + Z.of_nat i))
      (seq 1 101).
Proof.
  split_and!; [reflexivity | reflexivity | vm_compute; reflexivity |].
  apply AnalyzeIP_fixed_window; [reflexivity | reflexivity | vm_compute; reflexivity].
Defined.

Lemma AnalyzeIP_rule_blocks_witness :
  db_up demo_db = true ∧
  In (bot.mkBotRule 2 "IP" "203.0.113.9" "BLOCK" "duplicate") (bot_rules demo_db) ∧
  ∃ first pre post,
    bot_rules demo_db = pre ++ first :: post ∧
    Forall (λ x, rule_blocks "203.0.113.9" x = false) pre ∧
    rule_blocks "203.0.113.9" first = true ∧
    AnalyzeIP demo_db (Redis.empty 0) "203.0.113.9" 7 "shop.example"
      = (block (reason_rule first), Redis.empty 0).
Proof.
  split_and!; [reflexivity | right; left; reflexivity |].
  apply (AnalyzeIP_rule_blocks demo_db (Redis.empty 0) "203.0.113.9" 7 "shop.example"
           (bot.mkBotRule 2 "IP" "203.0.113.9" "BLOCK" "duplicate"));
    [reflexivity | right; left; reflexivity | reflexivity | reflexivity | reflexivity].
Defined.

Lemma AnalyzeIP_fail_open_witness :
  (db_up (mkDb false [] [] [] 1 1) = false ∨ matching_rule (mkDb false [] [] [] 1 1) client = None) ∧
  fst (cs_incr (rate_key 7 client) (Redis.mkState ∅ 0 [true])) = Err Redis.net_error ∧
  AnalyzeIP (mkDb false [] [] [] 1 1) (Redis.mkState ∅ 0 [true]) client 7 "shop.example"
    = (allow, snd (cs_incr (rate_key 7 client) (Redis.mkState ∅ 0 [true]))).
Proof.
  split_and!; [left; reflexivity | reflexivity |].
  apply (AnalyzeIP_fail_open _ _ _ _ _ Redis.net_error); [left; reflexivity | reflexivity].
Defined.

Lemma Analyze_unknown_or_inactive_witness :
  DomainRepo.GetByName demo_db (request_host (mkRequest "old.example:443" "198.51.100.4:5000" "GET" "/" "curl"))
    = Ok (Some (domain.mkDomain 8 "old.example" "http://10.0.0.3:8080" false None)) ∧
  Analyze demo_db (Redis.empty 0) (mkRequest "old.example:443" "198.51.100.4:5000" "GET" "/" "curl")
    = (Ok (block reason_inactive), Redis.empty 0).
Proof.
  split; [reflexivity|].
  apply (Analyze_unknown_or_inactive _ _ _ (Some (domain.mkDomain 8 "old.example" "http://10.0.0.3:8080" false None)));
    [reflexivity | right; eexists; split; reflexivity].
Defined.

Local Abbreviation timed_calls :=
  [(0, 7, "198.51.100.4"); (59, 7, "198.51.100.4"); (1, 7, "198.51.100.4");
   (0, 8, "198.51.100.4")]%string.

Lemma checks_refine_windows_witness :
  window_rel (Redis.empty 0) ∅ ∧ Redis.healthy (Redis.empty 0) ∧ hits_within 0 ∅ ∧ 0 ≤ 0 ∧
  0 + Z.of_nat (length timed_calls) < int64_max ∧
  (checks timed_calls (Redis.empty 0)).1 = (windows timed_calls (Redis.now (Redis.empty 0)) ∅).1 ∧
  window_rel (checks timed_calls (Redis.empty 0)).2
    (windows timed_calls (Redis.now (Redis.empty 0)) ∅).2.
Proof.
  refine (conj _ (conj _ (conj _ (conj _ (conj _ _))))); cycle 5.
  { apply (checks_refine_windows timed_calls (Redis.empty 0) ∅ 0);
      [reflexivity | reflexivity | apply map_Forall_empty | lia | vm_compute; reflexivity]. }
  all: first [reflexivity | apply map_Forall_empty | lia | concrete].
Defined.

Lemma AnalyzeIP_pairs_independent_witness :
  (8, client) ≠ (7, client) ∧
  cs_count (rate_key 8 client) (AnalyzeIP demo_db (Redis.empty 0) client 7 "shop.example").2
    = cs_count (rate_key 8 client) (Redis.empty 0).
Proof. split; [congruence | apply AnalyzeIP_pairs_independent; congruence]. Defined.

Lemma Analyze_same_client_witness :
  same_client demo_req (mkRequest "shop.example" "198.51.100.4:6000" "POST" "/cart" "wget") ∧
  Analyze demo_db (Redis.empty 0) demo_req
    = Analyze demo_db (Redis.empty 0) (mkRequest "shop.example" "198.51.100.4:6000" "POST" "/cart" "wget").
Proof.
  split; [split; reflexivity|].
  apply Analyze_same_client. split; reflexivity.
Defined.

End engine.
