(* ===== verification/RateLimit.v ===== *)
(** * The rate limiter over Redis: windows in time

    [checkRateLimit] ([engine/engine.go]) with the [Redis] counter store of
    [Redis]: the first INCR of a (domain, client) pair opens a window whose
    deadline EXPIRE sets 60 seconds later; the counter disappears at the
    deadline and the next call opens a new window.  The theorems show the
    reset after the window, the burst of up to twice the limit across a
    window boundary that a fixed window allows, and what happens when the
    EXPIRE of the first call is lost: its error is ignored, the counter
    never expires, and the pair stays blocked once it has made 100 calls. *)

From S2P Require Import Prelude GoStd Store Redis Analytics Engine.
Import engine.

Module RateLimit.

(** The verdicts of [n] calls when the counter starts at [c]. *)
Definition verdicts_from (c : Z) (n : nat) : list Action :=
  map (λ i : nat, verdict (c + Z.of_nat i)) (seq 1 n).

(** The schedule of a burst across a window boundary: one call at the
    current time [t], 99 calls at [t+59], 100 calls at [t+60]; the actions
    in order and the final store. *)
Definition burst (db : Db) (s : Redis.State) (ip : string) (id : Z) (name : string)
    : list Action * Redis.State :=
  let r1 := analyze_n 1 db s ip id name in
  let r2 := analyze_n 99 db (Redis.advance 59 r1.2) ip id name in
  let r3 := analyze_n 100 db (Redis.advance 1 r2.2) ip id name in
  (r1.1 ++ r2.1 ++ r3.1, r3.2).

(** ** Lemmas *)

(** The engine's fixed-window verdicts over Redis, from a known count. *)
Lemma analyze_n_from db s ip id name c n :
  matching_rule db ip = None → Redis.healthy s →
  Redis.count (rate_key id ip) s = c → c + Z.of_nat n < int64_max →
  (analyze_n n db s ip id name).1 = verdicts_from c n.
Proof.
  intros Hm Hh Hc Hlt.
  destruct (analyze_n_spec db s ip id name n Hm) as [-> _];
    rewrite ?redis_cs_count, ?redis_cs_healthy, ?Hc; done.
Qed.

Lemma now_checkRateLimit s id ip : Redis.now (checkRateLimit s id ip).2 = Redis.now s.
Proof.
  unfold checkRateLimit. simpl. pose proof (Redis.now_INCR (rate_key id ip) s) as Hn.
  destruct (Redis.INCR (rate_key id ip) s) as [[c|e] s1]; simpl in *; [|done].
  destruct (c =? 1); simpl; [by rewrite Redis.now_EXPIRE | done].
Qed.

Lemma now_AnalyzeIP db s ip id name : Redis.now (AnalyzeIP db s ip id name).2 = Redis.now s.
Proof.
  destruct (matching_rule db ip) eqn:Hm.
  - by rewrite (AnalyzeIP_rule db s ip id name b Hm).
  - rewrite AnalyzeIP_no_rule by done. apply now_checkRateLimit.
Qed.

(** The first call of a window: the counter is 1 and expires [window]
    seconds later. *)
Lemma checkRateLimit_opens_window s id ip :
  Redis.healthy s → Redis.get_live (rate_key id ip) s = None →
  Redis.get_live (rate_key id ip) (checkRateLimit s id ip).2
    = Some (Redis.mkEntry 1 (Some (Redis.now s + window))).
Proof.
  intros Hh Hg. unfold checkRateLimit. simpl.
  pose proof (Redis.INCR_fresh _ _ Hh Hg) as Hf.
  pose proof (Redis.INCR_healthy_ok (rate_key id ip) s Hh) as Hok.
  rewrite (Redis.count_dead _ _ Hg) in Hok. specialize (Hok ltac:(unfold int64_max; lia)).
  pose proof (Redis.now_INCR (rate_key id ip) s) as Hn.
  assert (Hh1 : Redis.healthy (Redis.INCR (rate_key id ip) s).2).
  { unfold Redis.healthy in *. by rewrite Redis.INCR_faults, Hh. }
  destruct (Redis.INCR (rate_key id ip) s) as [r s1]. simpl in *. subst r. simpl.
  rewrite (Redis.EXPIRE_live _ _ _ _ Hh1 Hf) by (unfold window; lia). by rewrite Hn.
Qed.

(** A later call of the same window: the counter goes up, the deadline
    stays. *)
Lemma checkRateLimit_in_window s id ip c d :
  Redis.healthy s → Redis.get_live (rate_key id ip) s = Some (Redis.mkEntry c (Some d)) →
  1 ≤ c < int64_max →
  Redis.get_live (rate_key id ip) (checkRateLimit s id ip).2
    = Some (Redis.mkEntry (c + 1) (Some d)).
Proof.
  intros Hh Hg Hc. unfold checkRateLimit. simpl.
  pose proof (Redis.INCR_live _ _ _ Hh Hg ltac:(simpl; lia)) as Hl.
  pose proof (Redis.INCR_healthy_ok (rate_key id ip) s Hh) as Hok.
  rewrite (Redis.count_live _ _ _ Hg) in Hok. specialize (Hok ltac:(simpl; lia)).
  destruct (Redis.INCR (rate_key id ip) s) as [r s1]. simpl in *. subst r.
  destruct (Z.eqb_spec (c + 1) 1); [lia|]. done.
Qed.

(** [m] calls inside one window with no blocking rule. *)
Lemma analyze_n_in_window db s ip id name c d m :
  matching_rule db ip = None → Redis.healthy s →
  Redis.get_live (rate_key id ip) s = Some (Redis.mkEntry c (Some d)) →
  1 ≤ c → c + Z.of_nat m < int64_max →
  let s' := (analyze_n m db s ip id name).2 in
  Redis.get_live (rate_key id ip) s' = Some (Redis.mkEntry (c + Z.of_nat m) (Some d)) ∧
  Redis.now s' = Redis.now s ∧ Redis.healthy s'.
Proof.
  revert s c. induction m as [|m IH]; intros s c Hm Hh Hg Hc Hlt; simpl.
  { by rewrite Z.add_0_r. }
  pose proof (AnalyzeIP_count db s ip id name Hm Hh) as Hcnt.
  rewrite !redis_cs_count, !redis_cs_healthy in Hcnt.
  rewrite (Redis.count_live _ _ _ Hg) in Hcnt. simpl in Hcnt.
  destruct (Hcnt ltac:(lia)) as (_ & _ & Hh1).
  pose proof (now_AnalyzeIP db s ip id name) as Hn1.
  assert (Hg1 : Redis.get_live (rate_key id ip) (AnalyzeIP db s ip id name).2
                = Some (Redis.mkEntry (c + 1) (Some d))).
  { rewrite AnalyzeIP_no_rule by done. simpl. apply checkRateLimit_in_window; auto. lia. }
  destruct (AnalyzeIP db s ip id name) as [dec s1]. simpl in *.
  destruct (IH s1 (c + 1) Hm Hh1 Hg1 ltac:(lia) ltac:(lia)) as (H1 & H2 & H3).
  destruct (analyze_n m db s1 ip id name) as [acts s2]. simpl in *.
  split_and!; [rewrite H1; do 2 f_equal; lia | congruence | done].
Qed.

(** [m ≥ 1] calls starting with no window: one window is open, with the
    deadline set by the first call. *)
Lemma analyze_n_opens_window db s ip id name m :
  matching_rule db ip = None → Redis.healthy s →
  Redis.get_live (rate_key id ip) s = None →
  (0 < m)%nat → Z.of_nat m < int64_max →
  let s' := (analyze_n m db s ip id name).2 in
  Redis.get_live (rate_key id ip) s'
    = Some (Redis.mkEntry (Z.of_nat m) (Some (Redis.now s + window))) ∧
  Redis.now s' = Redis.now s ∧ Redis.healthy s'.
Proof.
  intros Hm Hh Hg Hpos Hlt. destruct m as [|m]; [lia|]. simpl.
  assert (Hg1 : Redis.get_live (rate_key id ip) (AnalyzeIP db s ip id name).2
                = Some (Redis.mkEntry 1 (Some (Redis.now s + window)))).
  { rewrite AnalyzeIP_no_rule by done. by apply checkRateLimit_opens_window. }
  pose proof (AnalyzeIP_count db s ip id name Hm Hh) as Hcnt.
  rewrite !redis_cs_count, !redis_cs_healthy in Hcnt.
  rewrite (Redis.count_dead _ _ Hg) in Hcnt.
  destruct (Hcnt ltac:(unfold int64_max; lia)) as (_ & _ & Hh1).
  pose proof (now_AnalyzeIP db s ip id name) as Hn1.
  destruct (AnalyzeIP db s ip id name) as [dec s1]. simpl in *.
  destruct (analyze_n_in_window db s1 ip id name 1 _ m Hm Hh1 Hg1 ltac:(lia) ltac:(lia))
    as (H1 & H2 & H3).
  destruct (analyze_n m db s1 ip id name) as [acts s2]. simpl in *.
  split_and!; [rewrite H1; do 2 f_equal; lia | congruence | done].
Qed.

(** The first call when the EXPIRE that follows INCR is lost: the counter
    is 1 with no deadline. *)
Lemma checkRateLimit_expire_lost s id ip :
  Redis.faults s = [false; true] → Redis.get_live (rate_key id ip) s = None →
  Redis.get_live (rate_key id ip) (checkRateLimit s id ip).2 = Some (Redis.mkEntry 1 None) ∧
  Redis.healthy (checkRateLimit s id ip).2.
Proof.
  intros Hf Hg. unfold checkRateLimit. cbn [cs_incr cs_expire redis_counter_store].
  rewrite (Redis.INCR_first _ _ [true] Hf Hg). cbn [Z.eqb snd].
  rewrite (Redis.EXPIRE_fault _ _ _ []) by done. simpl. split; [|done].
  by apply Redis.get_live_insert_eq.
Qed.

(** ** Properties *)

(** C3: The window resets.  After [m ≥ 1] calls open a window for a pair,
    once [window] (60) seconds have passed the counter is gone and the
    next [n] calls are judged from a count of 0 again: the first 100 are
    allowed. *)
Theorem window_reset db s ip id name m n dt :
  matching_rule db ip = None → Redis.healthy s →
  Redis.get_live (rate_key id ip) s = None →
  (0 < m)%nat → Z.of_nat m < int64_max → window ≤ dt → Z.of_nat n < int64_max →
  (analyze_n n db (Redis.advance dt (analyze_n m db s ip id name).2) ip id name).1
    = verdicts_from 0 n.
Proof.
  intros Hm Hh Hg Hpos Hlt Hdt Hn.
  destruct (analyze_n_opens_window db s ip id name m Hm Hh Hg Hpos Hlt) as (Hg1 & Hn1 & Hh1).
  set (s1 := (analyze_n m db s ip id name).2) in *.
  assert (Hc : Redis.count (rate_key id ip) (Redis.advance dt s1) = 0).
  { eapply Redis.count_advance_expired; [exact Hg1 | done | rewrite Hn1; lia]. }
  apply analyze_n_from; done || lia.
Qed.

(** C9: The burst a fixed window allows.  A pair that opens a window at
    time [t] with one call, makes 99 calls at [t+59] and 100 calls at
    [t+60] ([burst]) has all 200 calls allowed within 60 seconds: twice the
    limit, as the design accepts. *)
Theorem fixed_window_burst db s ip id name :
  matching_rule db ip = None → Redis.healthy s →
  Redis.get_live (rate_key id ip) s = None →
  (burst db s ip id name).1 = repeat ActionAllow 200.
Proof.
  intros Hm Hh Hg. unfold burst.
  set (r1 := analyze_n 1 db s ip id name).
  set (r2 := analyze_n 99 db (Redis.advance 59 r1.2) ip id name).
  set (r3 := analyze_n 100 db (Redis.advance 1 r2.2) ip id name). simpl.
  destruct (analyze_n_opens_window db s ip id name 1 Hm Hh Hg ltac:(lia) ltac:(done))
    as (Hg1 & Hn1 & Hh1).
  assert (Ha1 : r1.1 = verdicts_from 0 1).
  { apply analyze_n_from; rewrite ?(Redis.count_dead _ _ Hg); done. }
  set (s1 := Redis.advance 59 r1.2).
  assert (Hg2 : Redis.get_live (rate_key id ip) s1
                = Some (Redis.mkEntry 1 (Some (Redis.now s + window)))).
  { eapply Redis.get_live_advance_before; [exact Hg1 | done | unfold r1; rewrite Hn1; unfold window; lia]. }
  assert (Ha2 : r2.1 = verdicts_from 1 99).
  { unfold r2. fold s1. apply analyze_n_from; rewrite ?(Redis.count_live _ _ _ Hg2); done. }
  destruct (analyze_n_in_window db s1 ip id name 1 _ 99 Hm Hh1 Hg2 ltac:(lia) ltac:(done))
    as (Hg3 & Hn3 & Hh3).
  assert (Hn4 : Redis.now (Redis.advance 1 r2.2) = Redis.now s + window).
  { unfold r2. fold s1. rewrite Redis.now_advance, Hn3. unfold s1, r1. rewrite Redis.now_advance, Hn1. unfold window. lia. }
  assert (Hc4 : Redis.count (rate_key id ip) (Redis.advance 1 r2.2) = 0).
  { unfold r2. fold s1. eapply Redis.count_advance_expired; [exact Hg3 | done |].
    rewrite Hn3. unfold s1, r1. rewrite Redis.now_advance, Hn1. unfold window. lia. }
  assert (Ha3 : r3.1 = verdicts_from 0 100).
  { unfold r3. apply analyze_n_from; done. }
  rewrite Ha1, Ha2, Ha3. vm_compute. reflexivity.
Qed.

(** C10: A lost EXPIRE is never retried.  When the network fails the
    EXPIRE of a window's first call, [checkRateLimit] ignores the error:
    the counter has no deadline, and however long the client waits its
    next calls are judged from a count of 1 and up, so from its 100th
    call on the client is blocked for good. *)
Theorem expire_lost_never_resets db s ip id name dt n :
  matching_rule db ip = None → Redis.faults s = [false; true] →
  Redis.get_live (rate_key id ip) s = None → 1 + Z.of_nat n < int64_max →
  (analyze_n n db (Redis.advance dt (AnalyzeIP db s ip id name).2) ip id name).1
    = verdicts_from 1 n.
Proof.
  intros Hm Hf Hg Hn.
  rewrite AnalyzeIP_no_rule by done. simpl.
  destruct (checkRateLimit_expire_lost s id ip Hf Hg) as [Hg1 Hh1].
  pose proof (Redis.get_live_advance_persistent _ _ _ dt Hg1 eq_refl) as Hg2.
  apply analyze_n_from; rewrite ?(Redis.count_live _ _ _ Hg2); done || lia.
Qed.

(** ** Witnesses *)

Local Abbreviation no_rules := (mkDb true [] [] [] 1 1).
Local Abbreviation client := "198.51.100.4"%string.

Lemma window_reset_witness :
  matching_rule no_rules client = None ∧ Redis.healthy (Redis.empty 1000) ∧
  Redis.get_live (rate_key 7 client) (Redis.empty 1000) = None ∧
  (0 < 5)%nat ∧ Z.of_nat 5 < int64_max ∧ window ≤ 60 ∧ Z.of_nat 101 < int64_max ∧
  (analyze_n 101 no_rules
     (Redis.advance 60 (analyze_n 5 no_rules (Redis.empty 1000) client 7 "shop.example").2)
     client 7 "shop.example").1 = verdicts_from 0 101.
Proof.
  refine (conj _ (conj _ (conj _ (conj _ (conj _ (conj _ (conj _ _))))))); cycle 7.
  { apply window_reset; concrete. }
  all: concrete.
Defined.

Lemma fixed_window_burst_witness :
  matching_rule no_rules client = None ∧ Redis.healthy (Redis.empty 1000) ∧
  Redis.get_live (rate_key 7 client) (Redis.empty 1000) = None ∧
  (burst no_rules (Redis.empty 1000) client 7 "shop.example").1 = repeat ActionAllow 200.
Proof.
  refine (conj _ (conj _ (conj _ _))); cycle 3.
  { apply fixed_window_burst; concrete. }
  all: concrete.
Defined.

Lemma expire_lost_never_resets_witness :
  matching_rule no_rules client = None ∧
  Redis.faults (Redis.mkState ∅ 0 [false; true]) = [false; true] ∧
  Redis.get_live (rate_key 7 client) (Redis.mkState ∅ 0 [false; true]) = None ∧
  1 + Z.of_nat 101 < int64_max ∧
  (analyze_n 101 no_rules
     (Redis.advance 86400 (AnalyzeIP no_rules (Redis.mkState ∅ 0 [false; true]) client 7 "shop.example").2)
     client 7 "shop.example").1 = verdicts_from 1 101.
Proof.
  refine (conj _ (conj _ (conj _ (conj _ _)))); cycle 4.
  { apply expire_lost_never_resets; concrete. }
  all: concrete.
Defined.

End RateLimit.
