(* ===== verification/DnsServer.v ===== *)
(** * The DNS front-end: [dns/server.go]

    [handleRequest] answers one query: the first question's name, lower-
    cased and without its trailing dot, is looked up as a domain; when it
    is a domain with a positive id and an engine is configured, the client
    address goes through [engine.AnalyzeIP] and one telemetry event goes to
    [LogDNSQuery]; a BLOCK decision answers REFUSED.  Otherwise a query
    ([Opcode] 0) gets its answers from [parseQuery]: the proxy address for
    an active managed domain's A record, the custom zone records of
    [dns_records] for A, CNAME, TXT and MX.

    The parts of [miekg/dns] the server uses are modelled in [dnsmsg]: the
    message fields it reads and writes, [SetReply] (v1.1: the reply carries
    the request's first question only), the [TypeToString] names of the
    common types.  [dns.NewRR], the zone-file parser, is an interface
    ([ZoneParser]): the server's theorems hold for every parser, and
    [header_parser] is one instance that reads the header of an RR text. *)

From S2P Require Import Prelude GoStd Store Redis Analytics Engine.
From Stdlib Require Import Ascii.
From Stdlib Require String.

Module dnsmsg.

(** [dns.Question] ([Question] is also the field of [Msg]). *)
Record Question_ := mkQuestion { Name : string; Qtype : Z; Qclass : Z }.

(** An RR as [dns.NewRR] builds it from its text: the header fields and
    the type-specific data, still as text. *)
Record RR := mkRR {
  Hdr_Name : string;
  Hdr_Ttl : Z;
  Hdr_Class : string;
  Hdr_Rrtype : string;
  Rdata : string
}.

(** The fields of [dns.Msg] the server reads or writes. *)
Record Msg := mkMsg {
  Id : Z;
  Response : bool;
  Opcode : Z;
  Rcode : Z;
  Compress : bool;
  Question : list Question_;
  Answer : list RR
}.

Definition OpcodeQuery : Z := 0.
Definition RcodeSuccess : Z := 0.
Definition RcodeRefused : Z := 5.
Definition TypeA : Z := 1.
Definition TypeCNAME : Z := 5.
Definition TypeMX : Z := 15.
Definition TypeTXT : Z := 16.

(** [new(dns.Msg)]. *)
Definition new_Msg : Msg := mkMsg 0 false 0 0 false [] [].

(** [Msg.SetReply]: id and opcode of the request, response bit set,
    NOERROR, and the request's first question. *)
Definition SetReply (m request : Msg) : Msg :=
  mkMsg (Id request) true (Opcode request) RcodeSuccess (Compress m)
    (match Question request with q :: _ => [q] | [] => Question m end) (Answer m).

Definition set_Compress (m : Msg) (b : bool) : Msg :=
  mkMsg (Id m) (Response m) (Opcode m) (Rcode m) b (Question m) (Answer m).

Definition set_Rcode (m : Msg) (c : Z) : Msg :=
  mkMsg (Id m) (Response m) (Opcode m) c (Compress m) (Question m) (Answer m).

Definition append_Answer (m : Msg) (rr : RR) : Msg :=
  mkMsg (Id m) (Response m) (Opcode m) (Rcode m) (Compress m) (Question m) (Answer m ++ [rr]).

(** [dns.TypeToString], for the common types; a type that is not in the
    map reads as [""]. *)
Definition TypeToString (t : Z) : string :=
  match t with
  | 1 => "A" | 2 => "NS" | 5 => "CNAME" | 6 => "SOA" | 12 => "PTR"
  | 13 => "HINFO" | 15 => "MX" | 16 => "TXT" | 28 => "AAAA" | 33 => "SRV"
  | 35 => "NAPTR" | 43 => "DS" | 46 => "RRSIG" | 48 => "DNSKEY"
  | 65 => "HTTPS" | 99 => "SPF" | 252 => "AXFR" | 255 => "ANY" | 257 => "CAA"
  | _ => ""
  end%string.

(** [dns.NewRR]: the zone-file parser, an interface. *)
Class ZoneParser := { NewRR : string → result RR }.

(** One parser: [name ttl class type rdata], fields separated by one
    space, the TTL a decimal number. *)
Definition space : ascii := " ".

Fixpoint split_space (s : list ascii) : list ascii * option (list ascii) :=
  match s with
  | [] => ([], None)
  | c :: s' => if Ascii.eqb c space then ([], Some s')
               else let '(w, r) := split_space s' in (c :: w, r)
  end.

Fixpoint digits_value (acc : Z) (s : list ascii) : option Z :=
  match s with
  | [] => Some acc
  | c :: s' =>
    let d := Z.of_nat (nat_of_ascii c) - 48 in
    if (0 <=? d) && (d <=? 9) then digits_value (10 * acc + d) s' else None
  end.

Definition header_NewRR (txt : string) : result RR :=
  let str := String.string_of_list_ascii in
  match split_space (String.list_ascii_of_string txt) with
  | (name, Some r1) =>
    match split_space r1 with
    | (ttl, Some r2) =>
      match split_space r2, digits_value 0 ttl with
      | (cls, Some r3), Some t =>
        match split_space r3 with
        | (typ, Some rdata) =>
          if (negb (bool_decide (ttl = []))) && (negb (bool_decide (rdata = [])))
          then Ok (mkRR (str name) t (str cls) (str typ) (str rdata))
          else Err "dns: bad rr"
        | _ => Err "dns: bad rr"
        end
      | _, _ => Err "dns: bad rr"
      end
    | _ => Err "dns: bad rr"
    end
  | _ => Err "dns: bad rr"
  end.

#[export] Instance header_parser : ZoneParser := { NewRR := header_NewRR }.

End dnsmsg.

Module dnsserver.
Import dnsmsg.
#[local] Existing Instance engine.Action_eq_dec.

(** [dns.Server]: the repositories are the database, the engine is
    present or nil. *)
Record Server := mkServer { proxyIP : string; has_engine : bool }.

(** The double quote, for the TXT formatter. *)
Definition quote : string := String.String "034" String.EmptyString.

(** The formatters passed to [handleCustomRecords]. *)
Definition fmt_A (name : string) (ttl : Z) (content : string) (priority : Z) : string :=
  name +:+ " " +:+ GoStd.itoa ttl +:+ " IN A " +:+ content.
Definition fmt_CNAME (name : string) (ttl : Z) (content : string) (priority : Z) : string :=
  name +:+ " " +:+ GoStd.itoa ttl +:+ " IN CNAME " +:+ content.
Definition fmt_TXT (name : string) (ttl : Z) (content : string) (priority : Z) : string :=
  name +:+ " " +:+ GoStd.itoa ttl +:+ " IN TXT " +:+ quote +:+ content +:+ quote.
Definition fmt_MX (name : string) (ttl : Z) (content : string) (priority : Z) : string :=
  name +:+ " " +:+ GoStd.itoa ttl +:+ " IN MX " +:+ GoStd.itoa priority +:+ " " +:+ content.

(** The text of the A record of a managed domain. *)
Definition fmt_root_A (originalName proxyIP : string) : string :=
  originalName +:+ " 300 IN A " +:+ proxyIP.

Section Handlers.
Context `{!ZoneParser}.

(** Append the RR parsed from [txt]; a text that does not parse adds
    nothing (the error is only logged). *)
Definition add_rr (m : Msg) (txt : string) : Msg :=
  match NewRR txt with Ok rr => append_Answer m rr | Err _ => m end.

(** The loop of [handleCustomRecords]. *)
Fixpoint add_records (m : Msg) (originalName : string)
    (formatter : string → Z → string → Z → string) (records : list dns.DnsRecord) : Msg :=
  match records with
  | [] => m
  | rec :: rest =>
    add_records (add_rr m (formatter originalName (dns.TTL rec) (dns.Content rec) (dns.Priority rec)))
      originalName formatter rest
  end.

Definition handleCustomRecords (db : Db) (m : Msg) (cleanName originalName recordType : string)
    (formatter : string → Z → string → Z → string) : Msg :=
  match dns.GetRecordsByNameAndType db cleanName recordType with
  | Ok records =>
    match records with [] => m | _ => add_records m originalName formatter records end
  | Err _ => m
  end.

Definition handleTypeA (srv : Server) (db : Db) (m : Msg) (cleanName originalName : string) : Msg :=
  match DomainRepo.GetByName db cleanName with
  | Ok (Some d) =>
    if domain.Active d then add_rr m (fmt_root_A originalName (proxyIP srv))
    else handleCustomRecords db m cleanName originalName "A" fmt_A
  | _ => handleCustomRecords db m cleanName originalName "A" fmt_A
  end.

Definition handleTypeCNAME (db : Db) (m : Msg) (cleanName originalName : string) : Msg :=
  handleCustomRecords db m cleanName originalName "CNAME" fmt_CNAME.
Definition handleTypeTXT (db : Db) (m : Msg) (cleanName originalName : string) : Msg :=
  handleCustomRecords db m cleanName originalName "TXT" fmt_TXT.
Definition handleTypeMX (db : Db) (m : Msg) (cleanName originalName : string) : Msg :=
  handleCustomRecords db m cleanName originalName "MX" fmt_MX.

(** One iteration of [parseQuery]'s loop. *)
Definition answer_question (srv : Server) (db : Db) (m : Msg) (q : Question_) : Msg :=
  let name := GoStd.ToLower (Name q) in
  let cleanName := GoStd.TrimSuffix name "." in
  if Qtype q =? TypeA then handleTypeA srv db m cleanName name
  else if Qtype q =? TypeCNAME then handleTypeCNAME db m cleanName name
  else if Qtype q =? TypeTXT then handleTypeTXT db m cleanName name
  else if Qtype q =? TypeMX then handleTypeMX db m cleanName name
  else m.

(** [parseQuery]: the questions of the reply, in order. *)
Definition parseQuery (srv : Server) (db : Db) (m : Msg) : Msg :=
  fold_left (answer_question srv db) (Question m) m.

(** [queryDomain]: the first question's name, lower-cased, without its
    trailing dot; [""] without a question. *)
Definition query_domain (r : Msg) : string :=
  match Question r with
  | q :: _ => GoStd.TrimSuffix (GoStd.ToLower (Name q)) "."
  | [] => ""
  end.

(** [queryType]. *)
Definition query_type (r : Msg) : string :=
  match Question r with q :: _ => TypeToString (Qtype q) | [] => "" end.

(** [domainID]: the lookup error is dropped, as [d, _ :=] does. *)
Definition query_domain_id (db : Db) (queryDomain : string) : Z :=
  match DomainRepo.GetByName db queryDomain with
  | Ok (Some d) => domain.ID d
  | _ => 0
  end.

Context {St : Type} `{!CounterStore St}.

(** [handleRequest]: the reply written with [w.WriteMsg], the counter
    store and the analytics repository after the call; [Err] is the panic
    of a [Log] on a closed repository. *)
Definition handleRequest (srv : Server) (db : Db) (s : St) (repo : analytics.Repo)
    (now : Z) (remoteAddr : string) (r : Msg) : result (Msg * St * analytics.Repo) :=
  let m := set_Compress (SetReply new_Msg r) false in
  let clientIP := GoStd.host_of remoteAddr in
  let queryDomain := query_domain r in
  let domainID := query_domain_id db queryDomain in
  let answer (m : Msg) := if Opcode r =? OpcodeQuery then parseQuery srv db m else m in
  if has_engine srv && (0 <? domainID) then
    let '(decision, s') := engine.AnalyzeIP db s clientIP domainID queryDomain in
    repo' ← engine.LogDNSQuery repo now clientIP domainID queryDomain (query_type r)
              (engine.DAction decision);
    if decide (engine.DAction decision = engine.ActionBlock)
    then Ok (set_Rcode m RcodeRefused, s', repo')
    else Ok (answer m, s', repo')
  else Ok (answer m, s, repo).

End Handlers.

(** ** The reply as lists of answers *)

Section Answers.
Context `{!ZoneParser}.

(** [m] with [rrs] appended to its answer section. *)
Definition with_answers (m : Msg) (rrs : list RR) : Msg :=
  mkMsg (Id m) (Response m) (Opcode m) (Rcode m) (Compress m) (Question m) (Answer m ++ rrs).

(** The RR of a text, when it parses. *)
Definition rr_of (txt : string) : list RR := option_list (to_option (NewRR txt)).

(** The answers [handleCustomRecords] adds: the records of that name and
    type of active domains, formatted and parsed, in table order. *)
Definition custom_answers (db : Db) (cleanName originalName recordType : string)
    (formatter : string → Z → string → Z → string) : list RR :=
  match dns.GetRecordsByNameAndType db cleanName recordType with
  | Ok records =>
    omap (λ rec, to_option (NewRR (formatter originalName (dns.TTL rec) (dns.Content rec)
                                      (dns.Priority rec)))) records
  | Err _ => []
  end.

(** The answers to one question. *)
Definition question_answers (srv : Server) (db : Db) (q : Question_) : list RR :=
  let name := GoStd.ToLower (Name q) in
  let cleanName := GoStd.TrimSuffix name "." in
  if Qtype q =? TypeA then
    match DomainRepo.GetByName db cleanName with
    | Ok (Some d) =>
      if domain.Active d then rr_of (fmt_root_A name (proxyIP srv))
      else custom_answers db cleanName name "A" fmt_A
    | _ => custom_answers db cleanName name "A" fmt_A
    end
  else if Qtype q =? TypeCNAME then custom_answers db cleanName name "CNAME" fmt_CNAME
  else if Qtype q =? TypeTXT then custom_answers db cleanName name "TXT" fmt_TXT
  else if Qtype q =? TypeMX then custom_answers db cleanName name "MX" fmt_MX
  else [].

(** The answers of a reply to request [r]: those of its first question
    when it is a query, none otherwise. *)
Definition reply_answers (srv : Server) (db : Db) (r : Msg) : list RR :=
  if Opcode r =? OpcodeQuery then mjoin (map (question_answers srv db) (take 1 (Question r)))
  else [].

Context {St : Type} `{!CounterStore St}.

(** The engine's decision and the store after it, when [handleRequest]
    consults the engine (an engine is configured and the query names a
    domain with a positive id). *)
Definition dns_decision (srv : Server) (db : Db) (s : St) (remoteAddr : string) (r : Msg)
    : option (engine.Decision * St) :=
  let domainID := query_domain_id db (query_domain r) in
  if has_engine srv && (0 <? domainID)
  then Some (engine.AnalyzeIP db s (GoStd.host_of remoteAddr) domainID (query_domain r))
  else None.

(** Does [handleRequest] answer REFUSED? *)
Definition dns_blocked (srv : Server) (db : Db) (s : St) (remoteAddr : string) (r : Msg) : bool :=
  match dns_decision srv db s remoteAddr r with
  | Some (dec, _) => bool_decide (engine.DAction dec = engine.ActionBlock)
  | None => false
  end.

(** The telemetry event of a query the engine judged. *)
Definition dns_event (now : Z) (db : Db) (remoteAddr : string) (r : Msg) (dec : engine.Decision)
    : analytics.RequestLog :=
  analytics.mkRequestLog now (query_domain_id db (query_domain r)) (GoStd.host_of remoteAddr)
    "DNS" (query_type r) (query_domain r) 0 0 (engine.action_string (engine.DAction dec)).

(** What a client and the operator observe of a call: the reply's id,
    code and answers, the counter store and the analytics repository
    (the question section echoes the request). *)
Definition reply_view (res : result (Msg * St * analytics.Repo)) :=
  (λ '(m, s', repo'), (Id m, Rcode m, Answer m, s', repo')) <$> res.

End Answers.

End dnsserver.

(** ** Lemmas *)

Module dnsserver_facts.
Import dnsmsg dnsserver.
#[local] Existing Instance engine.Action_eq_dec.

Section Lemmas.
Context `{!ZoneParser}.

Lemma with_answers_nil m : with_answers m [] = m.
Proof. destruct m. unfold with_answers. simpl. by rewrite app_nil_r. Qed.

Lemma with_answers_app m a b : with_answers (with_answers m a) b = with_answers m (a ++ b).
Proof. destruct m. unfold with_answers. simpl. by rewrite app_assoc. Qed.

Lemma add_rr_with m t : add_rr m t = with_answers m (rr_of t).
Proof.
  unfold add_rr, rr_of. destruct (NewRR t); simpl; [done|]. by rewrite with_answers_nil.
Qed.

Lemma add_records_with m n f recs :
  add_records m n f recs =
  with_answers m (omap (λ rec, to_option (NewRR (f n (dns.TTL rec) (dns.Content rec)
                                                   (dns.Priority rec)))) recs).
Proof.
  revert m. induction recs as [|rec recs IH]; intros m; simpl; [by rewrite with_answers_nil|].
  rewrite IH, add_rr_with, with_answers_app. unfold rr_of. by destruct (NewRR _).
Qed.

(** The [len(records) > 0] guard of [handleCustomRecords] changes
    nothing: the handler appends the parsed records, in order. *)
Lemma handleCustomRecords_with db m c o t f :
  handleCustomRecords db m c o t f = with_answers m (custom_answers db c o t f).
Proof.
  unfold handleCustomRecords, custom_answers.
  destruct (dns.GetRecordsByNameAndType db c t) as [[|rec recs]|e];
    [symmetry; apply with_answers_nil | apply add_records_with | symmetry; apply with_answers_nil].
Qed.

Lemma answer_question_with srv db m q :
  answer_question srv db m q = with_answers m (question_answers srv db q).
Proof.
  unfold answer_question, question_answers, handleTypeA, handleTypeCNAME, handleTypeTXT,
    handleTypeMX.
  destruct (Qtype q =? TypeA).
  - destruct (DomainRepo.GetByName _ _) as [[d|]|e]; [destruct (domain.Active d)|..];
      by rewrite ?add_rr_with, ?handleCustomRecords_with.
  - repeat (case_match; [by rewrite handleCustomRecords_with|]). by rewrite with_answers_nil.
Qed.

Lemma parseQuery_with srv db m :
  parseQuery srv db m = with_answers m (mjoin (map (question_answers srv db) (Question m))).
Proof.
  unfold parseQuery. generalize m at 2 3. induction (Question m) as [|q qs IH]; intros m0; simpl.
  - by rewrite with_answers_nil.
  - by rewrite IH, answer_question_with, with_answers_app.
Qed.

(** The reply before the engine's verdict: the request's first question
    answered, when the request is a query. *)
Lemma reply_with srv db r :
  let m := set_Compress (SetReply new_Msg r) false in
  (if Opcode r =? OpcodeQuery then parseQuery srv db m else m)
    = with_answers m (reply_answers srv db r).
Proof.
  intros m. unfold reply_answers. destruct (Opcode r =? OpcodeQuery).
  - rewrite parseQuery_with. unfold m. simpl. by destruct (Question r).
  - by rewrite with_answers_nil.
Qed.

Context {St : Type} `{!CounterStore St}.

(** [handleRequest] as one match on the engine's decision. *)
Lemma handleRequest_eq srv db (s : St) repo now addr r :
  handleRequest srv db s repo now addr r =
  let m := set_Compress (SetReply new_Msg r) false in
  match dns_decision srv db s addr r with
  | None => Ok (with_answers m (reply_answers srv db r), s, repo)
  | Some (dec, s') =>
    repo' ← analytics.Log (dns_event now db addr r dec) repo;
    Ok (if bool_decide (engine.DAction dec = engine.ActionBlock) then set_Rcode m RcodeRefused
        else with_answers m (reply_answers srv db r), s', repo')
  end.
Proof.
  unfold handleRequest, dns_decision. cbv zeta. rewrite reply_with.
  destruct (has_engine srv && _); [|done].
  destruct (engine.AnalyzeIP _ _ _ _ _) as [dec s']. unfold engine.LogDNSQuery, dns_event.
  destruct (analytics.Log _ repo); simpl; [|done]. by case_bool_decide; case_decide.
Qed.

End Lemmas.


(** ** Properties of the DNS front-end *)

Section Properties.
Context `{!ZoneParser}.
Context {St : Type} `{!CounterStore St, !CounterStoreLaws St}.

(** C19: The reply to a DNS request.  Whenever [handleRequest] returns,
    the reply carries the request's id, the response bit and the
    request's first question; it is REFUSED with no answer exactly when
    the engine was consulted and decided BLOCK, and otherwise NOERROR with
    the answers to the first question when the request is a query ([Opcode]
    0), none for another opcode. *)
Theorem handleRequest_reply srv db (s : St) repo now addr r m s' repo' :
  handleRequest srv db s repo now addr r = Ok (m, s', repo') →
  Id m = Id r ∧ Response m = true ∧ Question m = take 1 (Question r) ∧
  Rcode m = (if dns_blocked srv db s addr r then RcodeRefused else RcodeSuccess) ∧
  Answer m = (if dns_blocked srv db s addr r then [] else reply_answers srv db r).
Proof.
  rewrite handleRequest_eq. unfold dns_blocked.
  destruct (dns_decision srv db s addr r) as [[dec s1]|].
  - destruct (analytics.Log _ repo); simpl; [|done]. intros [=<- <- <-].
    case_bool_decide; simpl; split_and!; try done; by destruct (Question r).
  - intros [=<- <- <-]. simpl. split_and!; try done; by destruct (Question r).
Qed.

(** C20: DNS telemetry and rate limiting.  With an open analytics
    channel that has room, [handleRequest] returns; when it consulted the
    engine, the store is the one [AnalyzeIP] left and exactly one event
    (the DNS tag, the query type and name, status and duration 0, the
    action) joins the accepted events; when the query names no domain with
    a positive id (or no engine is configured) the store and the
    repository are left as they were, no event is recorded. *)
Theorem handleRequest_telemetry srv db (s : St) repo now addr r :
  analytics.chanClosed repo = false →
  (length (analytics.logChan repo) < analytics.chanCap)%nat →
  ∃ m s' repo', handleRequest srv db s repo now addr r = Ok (m, s', repo') ∧
  match dns_decision srv db s addr r with
  | Some (dec, s1) =>
    s' = s1 ∧ analytics.accepted repo' = analytics.accepted repo ++ [dns_event now db addr r dec]
  | None => s' = s ∧ repo' = repo
  end.
Proof.
  intros Hc Hlt. rewrite handleRequest_eq.
  destruct (dns_decision srv db s addr r) as [[dec s1]|]; [|by eauto 10].
  destruct (analytics.Log_room (dns_event now db addr r dec) repo Hc Hlt) as (repo' & -> & Ha).
  simpl. by do 3 eexists.
Qed.

(** C21: The only failure of [handleRequest] is the panic of [Log] on a
    closed analytics repository, and it happens exactly when the engine is
    consulted while the repository is closed. *)
Theorem handleRequest_error srv db (s : St) repo now addr r :
  is_ok (handleRequest srv db s repo now addr r) = false ↔
  is_Some (dns_decision srv db s addr r) ∧ analytics.chanClosed repo = true.
Proof.
  rewrite handleRequest_eq. destruct (dns_decision srv db s addr r) as [[dec s1]|]; simpl.
  - destruct (analytics.chanClosed repo) eqn:Hc.
    + rewrite analytics.Log_closed by done. simpl. split; [intros _; split; [by eexists|done] | done].
    + destruct (analytics.Log_open (dns_event now db addr r dec) repo Hc) as [r' ->]. simpl.
      split; [intros [=] | intros [_ [=]]].
  - split; [done|]. by intros [[] _].
Qed.

(** C22: An A query for an active managed domain is answered by the
    proxy's address only.  When [handleRequest] replies to such a query
    without refusing it, the answer section is the one record parsed from
    [name 300 IN A proxyIP]: [handleTypeA] returns before the zone table's
    A records for that name are consulted. *)
Theorem handleRequest_managed_A srv db (s : St) repo now addr r q qs d m s' repo' :
  Opcode r = OpcodeQuery → Question r = q :: qs → Qtype q = TypeA →
  DomainRepo.GetByName db (query_domain r) = Ok (Some d) → domain.Active d = true →
  handleRequest srv db s repo now addr r = Ok (m, s', repo') → Rcode m ≠ RcodeRefused →
  Answer m = rr_of (fmt_root_A (GoStd.ToLower (Name q)) (proxyIP srv)).
Proof.
  intros Ho Hq Ht Hd Ha. rewrite handleRequest_eq.
  assert (Hans : reply_answers srv db r = rr_of (fmt_root_A (GoStd.ToLower (Name q)) (proxyIP srv))).
  { unfold reply_answers, query_domain in *. rewrite Ho, Hq in *. simpl.
    unfold question_answers. rewrite Ht. simpl. rewrite Hd, Ha. by rewrite app_nil_r. }
  destruct (dns_decision srv db s addr r) as [[dec s1]|].
  - destruct (analytics.Log _ repo); simpl; [|done]. intros [=<- _ _].
    case_bool_decide; [done|]. intros _. simpl. by rewrite Hans.
  - intros [=<- _ _] _. simpl. by rewrite Hans.
Qed.

(** C23: Case-insensitive names.  Two requests whose first questions
    have the same type and the same name up to case get the same reply
    code and answers, leave the same store and record the same telemetry. *)
Theorem handleRequest_case_insensitive srv db (s : St) repo now addr r1 r2 q1 q2 qs1 qs2 :
  Id r1 = Id r2 → Opcode r1 = Opcode r2 →
  Question r1 = q1 :: qs1 → Question r2 = q2 :: qs2 →
  GoStd.ToLower (Name q1) = GoStd.ToLower (Name q2) → Qtype q1 = Qtype q2 →
  reply_view (handleRequest srv db s repo now addr r1) = reply_view (handleRequest srv db s repo now addr r2).
Proof.
  intros Hi Ho Hq1 Hq2 Hn Ht.
  assert (Hd : query_domain r1 = query_domain r2) by (unfold query_domain; rewrite Hq1, Hq2; congruence).
  assert (Hy : query_type r1 = query_type r2) by (unfold query_type; rewrite Hq1, Hq2; congruence).
  assert (Hr : reply_answers srv db r1 = reply_answers srv db r2).
  { unfold reply_answers. rewrite Ho, Hq1, Hq2. simpl. unfold question_answers. by rewrite Hn, Ht. }
  rewrite !handleRequest_eq. unfold dns_decision, dns_event. rewrite Hd, Hy, Hr.
  destruct (has_engine srv && _); [|simpl; by rewrite Hi].
  destruct (engine.AnalyzeIP _ _ _ _ _) as [dec s1].
  destruct (analytics.Log _ repo); simpl; [|done]. by case_bool_decide; simpl; rewrite Hi.
Qed.

(** C24: An inactive domain is still served over DNS.  A query for a
    domain whose [Active] flag is off, from a client under its limit with
    no blocking rule, is answered NOERROR, counts against the client's
    rate limit and is recorded as ALLOW, where the HTTP path ([Analyze])
    blocks it without touching the counters. *)
Theorem handleRequest_inactive_counted srv db (s : St) repo now addr r d :
  has_engine srv = true → DomainRepo.GetByName db (query_domain r) = Ok (Some d) →
  domain.Active d = false → 0 < domain.ID d →
  engine.matching_rule db (GoStd.host_of addr) = None → cs_healthy s →
  cs_count (engine.rate_key (domain.ID d) (GoStd.host_of addr)) s < engine.limit →
  analytics.chanClosed repo = false → (length (analytics.logChan repo) < analytics.chanCap)%nat →
  ∃ m s' repo', handleRequest srv db s repo now addr r = Ok (m, s', repo') ∧
    Rcode m = RcodeSuccess ∧
    cs_count (engine.rate_key (domain.ID d) (GoStd.host_of addr)) s'
      = cs_count (engine.rate_key (domain.ID d) (GoStd.host_of addr)) s + 1 ∧
    analytics.accepted repo' = analytics.accepted repo ++
      [analytics.mkRequestLog now (domain.ID d) (GoStd.host_of addr) "DNS" (query_type r)
         (query_domain r) 0 0 "ALLOW"].
Proof.
  intros He Hd Hna Hid Hm Hh Hlt Hc Hroom. rewrite handleRequest_eq.
  unfold dns_decision, query_domain_id. rewrite Hd, He, (proj2 (Z.ltb_lt _ _) Hid). simpl.
  destruct (engine.AnalyzeIP_count db s (GoStd.host_of addr) (domain.ID d) (query_domain r) Hm Hh)
    as (H1 & H2 & _); [unfold engine.limit, int64_max in *; lia|].
  destruct (engine.AnalyzeIP _ _ _ _ _) as [dec s1]. simpl in *.
  assert (Hallow : engine.DAction dec = engine.ActionAllow)
    by (rewrite H1; unfold engine.verdict; rewrite (proj2 (Z.leb_le _ _)); [done | lia]).
  unfold dns_event, query_domain_id. rewrite Hd.
  destruct (analytics.Log_room (analytics.mkRequestLog now (domain.ID d) (GoStd.host_of addr) "DNS"
              (query_type r) (query_domain r) 0 0 "ALLOW") repo Hc Hroom) as (repo' & Hl & Ha).
  rewrite Hallow in *. simpl. rewrite Hl. simpl.
  do 3 eexists. split_and!; [done | done | exact H2 | exact Ha].
Qed.

End Properties.

(** ** Witnesses: the properties at concrete inputs *)

Local Abbreviation zone_db :=
  (mkDb true [domain.mkDomain 7 "shop.example" "http://10.0.0.2:8080" true None;
              domain.mkDomain 8 "old.example" "http://10.0.0.3:8080" false None]
            [bot.mkBotRule 1 "IP" "203.0.113.9" "BLOCK" "scraper"]
            [dns.mkDnsRecord 1 7 "A" "shop.example" "192.0.2.1" 300 0;
             dns.mkDnsRecord 2 7 "MX" "shop.example" "mail.shop.example." 600 10] 9 2).
Local Abbreviation ns := (mkServer "203.0.113.53" true).
Local Abbreviation query n t := (mkMsg 42 false OpcodeQuery 0 false [mkQuestion n t 1] []).
Local Abbreviation repo0 := (analytics.NewRepository []).

Lemma handleRequest_reply_witness :
  ∃ m s' repo',
    handleRequest ns zone_db (Redis.empty 0) repo0 5 "203.0.113.9:5353"
      (query "shop.example." TypeMX) = Ok (m, s', repo') ∧
    (Id m = 42 ∧ Response m = true ∧ Question m = [mkQuestion "shop.example." TypeMX 1] ∧
     Rcode m = (if dns_blocked ns zone_db (Redis.empty 0) "203.0.113.9:5353"
                     (query "shop.example." TypeMX) then RcodeRefused else RcodeSuccess) ∧
     Answer m = (if dns_blocked ns zone_db (Redis.empty 0) "203.0.113.9:5353"
                     (query "shop.example." TypeMX) then []
                 else reply_answers ns zone_db (query "shop.example." TypeMX))).
Proof.
  do 3 eexists. split; [vm_compute; reflexivity|].
  eapply (handleRequest_reply ns zone_db (Redis.empty 0) repo0 5 "203.0.113.9:5353"
           (query "shop.example." TypeMX)).
  vm_compute. reflexivity.
Defined.

Lemma handleRequest_telemetry_witness :
  analytics.chanClosed repo0 = false ∧
  (length (analytics.logChan repo0) < analytics.chanCap)%nat ∧
  ∃ m s' repo', handleRequest ns zone_db (Redis.empty 0) repo0 5 "198.51.100.4:5353"
                  (query "Shop.Example." TypeA) = Ok (m, s', repo') ∧
  match dns_decision ns zone_db (Redis.empty 0) "198.51.100.4:5353" (query "Shop.Example." TypeA) with
  | Some (dec, s1) =>
    s' = s1 ∧ analytics.accepted repo' = analytics.accepted repo0 ++
      [dns_event 5 zone_db "198.51.100.4:5353" (query "Shop.Example." TypeA) dec]
  | None => s' = Redis.empty 0 ∧ repo' = repo0
  end.
Proof.
  refine (conj _ (conj _ _)); cycle 2.
  { apply handleRequest_telemetry; concrete. }
  all: concrete.
Defined.

Lemma handleRequest_managed_A_witness :
  ∃ m s' repo',
  Opcode (query "Shop.Example." TypeA) = OpcodeQuery ∧
  Question (query "Shop.Example." TypeA) = [mkQuestion "Shop.Example." TypeA 1] ∧
  Qtype (mkQuestion "Shop.Example." TypeA 1) = TypeA ∧
  DomainRepo.GetByName zone_db (query_domain (query "Shop.Example." TypeA))
    = Ok (Some (domain.mkDomain 7 "shop.example" "http://10.0.0.2:8080" true None)) ∧
  domain.Active (domain.mkDomain 7 "shop.example" "http://10.0.0.2:8080" true None) = true ∧
  handleRequest ns zone_db (Redis.empty 0) repo0 5 "198.51.100.4:5353" (query "Shop.Example." TypeA)
    = Ok (m, s', repo') ∧
  Rcode m ≠ RcodeRefused ∧
  Answer m = rr_of (fmt_root_A (GoStd.ToLower "Shop.Example.") (proxyIP ns)).
Proof.
  do 3 eexists.
  refine (conj _ (conj _ (conj _ (conj _ (conj _ (conj _ (conj _ _))))))); cycle 5.
  { vm_compute. reflexivity. }
  { vm_compute. discriminate. }
  { eapply (handleRequest_managed_A ns zone_db (Redis.empty 0) repo0 5 "198.51.100.4:5353"
              (query "Shop.Example." TypeA) (mkQuestion "Shop.Example." TypeA 1) []
              (domain.mkDomain 7 "shop.example" "http://10.0.0.2:8080" true None));
      [concrete | concrete | concrete | concrete | concrete | vm_compute; reflexivity |
       vm_compute; discriminate]. }
  all: concrete.
Defined.

Lemma handleRequest_case_insensitive_witness :
  GoStd.ToLower "Shop.EXAMPLE." = GoStd.ToLower "shop.example." ∧
  reply_view (handleRequest ns zone_db (Redis.empty 0) repo0 5 "198.51.100.4:5353"
                (query "Shop.EXAMPLE." TypeMX))
  = reply_view (handleRequest ns zone_db (Redis.empty 0) repo0 5 "198.51.100.4:5353"
                  (query "shop.example." TypeMX)).
Proof.
  split; [concrete|].
  apply (handleRequest_case_insensitive _ _ _ _ _ _ _ _ (mkQuestion "Shop.EXAMPLE." TypeMX 1)
           (mkQuestion "shop.example." TypeMX 1) [] []); concrete.
Defined.

Lemma handleRequest_inactive_counted_witness :
  DomainRepo.GetByName zone_db (query_domain (query "old.example." TypeA))
    = Ok (Some (domain.mkDomain 8 "old.example" "http://10.0.0.3:8080" false None)) ∧
  ∃ m s' repo', handleRequest ns zone_db (Redis.empty 0) repo0 5 "198.51.100.4:5353"
                  (query "old.example." TypeA) = Ok (m, s', repo') ∧
    Rcode m = RcodeSuccess ∧
    cs_count (engine.rate_key 8 "198.51.100.4") s' = cs_count (engine.rate_key 8 "198.51.100.4") (Redis.empty 0) + 1 ∧
    analytics.accepted repo' = analytics.accepted repo0 ++
      [analytics.mkRequestLog 5 8 "198.51.100.4" "DNS" (query_type (query "old.example." TypeA))
         (query_domain (query "old.example." TypeA)) 0 0 "ALLOW"].
Proof.
  split; [concrete|].
  apply (handleRequest_inactive_counted ns zone_db (Redis.empty 0) repo0 5 "198.51.100.4:5353"
           (query "old.example." TypeA) (domain.mkDomain 8 "old.example" "http://10.0.0.3:8080" false None));
    concrete.
Defined.

End dnsserver_facts.
