(* ===== verification/Proxy.v ===== *)
(** * The HTTP front-end: [proxy/handler.go]

    [ServeHTTP] runs [engine.Analyze] on the request; an error answers 500,
    a BLOCK answers 403 with the reason and records one event, an allowed
    request for a domain with a target URL is forwarded by a single-host
    reverse proxy through [responseWrapper], which records the status the
    proxy writes, and the event carries that status.  A domain without a
    target URL gets [http.NotFound].

    The parts of [net/http], [net/url] and [httputil] the handler uses are
    modelled in [nethttp]: the response (status and body), [http.Error]
    and [http.NotFound], the director of [NewSingleHostReverseProxy] (with
    [singleJoiningSlash]), and the reverse proxy's effect on the wrapper
    (the upstream's status, or 502 from the default error handler).
    [url.Parse] is an interface ([URLParser]); the upstream server is an
    argument of [ServeHTTP], a function from the outgoing request to a
    response or a transport error. *)

From S2P Require Import Prelude GoStd Store Redis Analytics Engine.
From Stdlib Require Import Ascii.
From Stdlib Require String.

Module nethttp.
Import engine.

(** The fields of [url.URL] the proxy uses. *)
Record URL := mkURL { Scheme : string; UHost : string; UPath : string }.

(** [url.Parse], an interface. *)
Class URLParser := { url_Parse : string → result URL }.

(** An HTTP response as the client sees it. *)
Record Response := mkResponse { StatusCode : Z; Body : string }.

Definition StatusOK : Z := 200.
Definition StatusCreated : Z := 201.
Definition StatusBadRequest : Z := 400.
Definition StatusForbidden : Z := 403.
Definition StatusNotFound : Z := 404.
Definition StatusMethodNotAllowed : Z := 405.
Definition StatusInternalServerError : Z := 500.
Definition StatusBadGateway : Z := 502.

Definition newline : string := String.String "010" String.EmptyString.

(** [http.Error]: the message and a newline, with the code. *)
Definition http_Error (error : string) (code : Z) : Response :=
  mkResponse code (error +:+ newline).

(** [http.NotFound]. *)
Definition NotFound : Response := http_Error "404 page not found" StatusNotFound.

(** [singleJoiningSlash] of [net/http/httputil]. *)
Definition singleJoiningSlash (a b : string) : string :=
  let aslash := GoStd.HasSuffix a "/" in
  let bslash := String.prefix "/" b in
  if aslash && bslash then a +:+ String.substring 1 (String.length b - 1) b
  else if negb aslash && negb bslash then a +:+ "/" +:+ b
  else a +:+ b.

(** The request the reverse proxy sends: the director of
    [NewSingleHostReverseProxy] points the URL at the target and joins the
    paths; the handler's director then sets [req.Host = target.Host]. *)
Definition direct (target : URL) (r : Request) : Request :=
  mkRequest (UHost target) (RemoteAddr r) (Method r)
    (singleJoiningSlash (UPath target) (URLPath r)) (UserAgent r).

(** One [url.Parse]: [scheme://host/path]; a string without [://] is a
    path; a space is an invalid character. *)
Fixpoint split_scheme (s : list ascii) : option (list ascii * list ascii) :=
  match s with
  | ":" :: "/" :: "/" :: rest => Some ([], rest)
  | c :: s' => (λ '(a, b), (c :: a, b)) <$> split_scheme s'
  | [] => None
  end%char.

Definition simple_url_Parse (raw : string) : result URL :=
  let s := String.list_ascii_of_string raw in
  let str := String.string_of_list_ascii in
  if bool_decide (" "%char ∈ s) then Err "invalid character in URL"
  else match split_scheme s with
  | Some (scheme, rest) =>
    match GoStd.index_byte "/" rest with
    | Some i => Ok (mkURL (str scheme) (str (take i rest)) (str (drop i rest)))
    | None => Ok (mkURL (str scheme) (str rest) "")
    end
  | None => Ok (mkURL "" "" raw)
  end.

#[export] Instance simple_url : URLParser := { url_Parse := simple_url_Parse }.

End nethttp.

Module proxy.
Import engine nethttp.
#[local] Existing Instance engine.Action_eq_dec.

(** [responseWrapper]: the status it records. *)
Record responseWrapper := mkResponseWrapper { statusCode : Z }.

(** [responseWrapper.WriteHeader]. *)
Definition WriteHeader (rw : responseWrapper) (code : Z) : responseWrapper :=
  mkResponseWrapper code.

(** [proxy.ServeHTTP(rw, r)]: the response the client gets and the
    wrapper after it; the proxy writes the upstream's status, or 502 when
    the round trip fails. *)
Definition reverse_proxy (upstream_result : result Response) (rw : responseWrapper)
    : Response * responseWrapper :=
  match upstream_result with
  | Ok resp => (resp, WriteHeader rw (StatusCode resp))
  | Err _ => (mkResponse StatusBadGateway "", WriteHeader rw StatusBadGateway)
  end.

Section Handler.
Context `{!URLParser}.
Context {St : Type} `{!CounterStore St}.

(** [Handler.ServeHTTP]: the response, the request forwarded upstream
    (if any), the counter store and the analytics repository; [start] and
    [finish] are the clock readings of [time.Now()] and of the call to
    [LogRequest], in nanoseconds.  [Err] is the panic of [Log] on a
    closed repository. *)
Definition ServeHTTP (db : Db) (s : St) (repo : analytics.Repo) (start finish : Z)
    (upstream : URL → Request → result Response) (r : Request)
    : result (Response * option Request * St * analytics.Repo) :=
  let '(res, s1) := Analyze db s r in
  match res with
  | Err _ => Ok (http_Error "Internal Server Error" StatusInternalServerError, None, s1, repo)
  | Ok decision =>
    if decide (DAction decision = ActionBlock) then
      repo' ← LogRequest repo finish r decision StatusForbidden (finish - start);
      Ok (mkResponse StatusForbidden ("Access Denied: " +:+ Reason decision), None, s1, repo')
    else
      match Domain decision with
      | Some d =>
        if negb (String.eqb (domain.TargetURL d) "") then
          match url_Parse (domain.TargetURL d) with
          | Err _ => Ok (http_Error "Invalid Target URL" StatusInternalServerError, None, s1, repo)
          | Ok target =>
            let out := direct target r in
            let '(resp, rw) := reverse_proxy (upstream target out) (mkResponseWrapper StatusOK) in
            repo' ← LogRequest repo finish r decision (statusCode rw) (finish - start);
            Ok (resp, Some out, s1, repo')
          end
        else Ok (NotFound, None, s1, repo)
      | None => Ok (NotFound, None, s1, repo)
      end
  end.

End Handler.

End proxy.

(** ** Properties of the HTTP front-end *)

Module proxy_facts.
Import engine nethttp proxy.
#[local] Existing Instance engine.Action_eq_dec.

Section Properties.
Context `{!URLParser}.
Context {St : Type} `{!CounterStore St}.

(** The branch of a BLOCK decision. *)
Lemma ServeHTTP_blocked db (s : St) repo start finish upstream r dec s1 :
  Analyze db s r = (Ok dec, s1) → DAction dec = ActionBlock →
  ServeHTTP db s repo start finish upstream r =
    (repo' ← LogRequest repo finish r dec StatusForbidden (finish - start);
     Ok (mkResponse StatusForbidden ("Access Denied: " +:+ Reason dec), None, s1, repo')).
Proof. intros Ha Hb. unfold ServeHTTP. by rewrite Ha, decide_True. Qed.

(** C25: A blocked request.  When [Analyze] decides BLOCK, [ServeHTTP]
    answers 403 with the body ["Access Denied: "] and the reason, forwards
    nothing upstream, and (with room in the channel) records exactly one
    event with status 403. *)
Theorem ServeHTTP_block db (s : St) repo start finish upstream r dec s1 :
  Analyze db s r = (Ok dec, s1) → DAction dec = ActionBlock →
  analytics.chanClosed repo = false → (length (analytics.logChan repo) < analytics.chanCap)%nat →
  ∃ repo', ServeHTTP db s repo start finish upstream r =
      Ok (mkResponse StatusForbidden ("Access Denied: " +:+ Reason dec), None, s1, repo') ∧
    analytics.accepted repo' = analytics.accepted repo ++
      [request_log finish r dec StatusForbidden (finish - start)].
Proof.
  intros Ha Hb Hc Hroom. rewrite (ServeHTTP_blocked _ _ _ _ _ _ _ _ _ Ha Hb). unfold LogRequest.
  destruct (analytics.Log_room (request_log finish r dec StatusForbidden (finish - start)) repo Hc Hroom)
    as (repo' & -> & Hacc).
  simpl. eauto.
Qed.

(** C26: An allowed request for a domain with a target URL is forwarded
    once, to the target's host with the joined path; the client gets the
    upstream's response, or an empty 502 when the round trip fails; and
    the one event recorded carries the status the client got. *)
Theorem ServeHTTP_forward db (s : St) repo start finish upstream r dec s1 d target :
  Analyze db s r = (Ok dec, s1) → DAction dec ≠ ActionBlock → Domain dec = Some d →
  domain.TargetURL d ≠ "" → url_Parse (domain.TargetURL d) = Ok target →
  analytics.chanClosed repo = false → (length (analytics.logChan repo) < analytics.chanCap)%nat →
  ∃ resp repo', ServeHTTP db s repo start finish upstream r = Ok (resp, Some (direct target r), s1, repo') ∧
    resp = (match upstream target (direct target r) with
            | Ok u => u | Err _ => mkResponse StatusBadGateway "" end) ∧
    analytics.accepted repo' = analytics.accepted repo ++
      [request_log finish r dec (StatusCode resp) (finish - start)].
Proof.
  intros Ha Hb Hd Ht Hu Hc Hroom. unfold ServeHTTP. rewrite Ha, decide_False, Hd by done.
  rewrite (proj2 (String.eqb_neq _ _) Ht), Hu. simpl.
  set (resp := match upstream target (direct target r) with
               | Ok u => u | Err _ => mkResponse StatusBadGateway "" end).
  assert (Hp : reverse_proxy (upstream target (direct target r)) (mkResponseWrapper StatusOK)
               = (resp, mkResponseWrapper (StatusCode resp)))
    by (unfold resp; by destruct (upstream target (direct target r))).
  rewrite Hp. unfold LogRequest. simpl.
  destruct (analytics.Log_room (request_log finish r dec (StatusCode resp) (finish - start)) repo Hc Hroom)
    as (repo' & -> & Hacc).
  simpl. eauto.
Qed.

(** C27: Only 403 answers and forwarded requests are recorded.  When
    [ServeHTTP] forwards nothing and answers anything but 403 (the 500 of
    an [Analyze] error or of an invalid target URL, the 404 fallback), the
    analytics repository is left as it was: no telemetry event. *)
Theorem ServeHTTP_unrecorded db (s : St) repo start finish upstream r resp s' repo' :
  ServeHTTP db s repo start finish upstream r = Ok (resp, None, s', repo') →
  StatusCode resp ≠ StatusForbidden → repo' = repo.
Proof.
  unfold ServeHTTP. destruct (Analyze db s r) as [[dec|e] s1].
  - case_decide.
    + destruct (LogRequest _ _ _ _ _ _); simpl; [|done]. by intros [=<- _ _] [].
    + destruct (Domain dec) as [d|]; [|by intros [=]].
      destruct (negb _); [|by intros [=]].
      destruct (url_Parse _) as [target|]; [|by intros [=]].
      destruct (reverse_proxy _ _). destruct (LogRequest _ _ _ _ _ _); simpl; [|done]. by intros [=].
  - by intros [=].
Qed.

(** C28: Only allowed requests reach an upstream.  A request
    [ServeHTTP] forwards names an active domain whose target URL parses,
    goes to that target ([direct]), and [AnalyzeIP] did not block its
    client (no blocking rule, count within the limit or a counter store
    error). *)
Theorem ServeHTTP_forward_safe db (s : St) repo start finish upstream r resp out s' repo' :
  ServeHTTP db s repo start finish upstream r = Ok (resp, Some out, s', repo') →
  ∃ d target, DomainRepo.GetByName db (request_host r) = Ok (Some d) ∧ domain.Active d = true ∧
    url_Parse (domain.TargetURL d) = Ok target ∧ out = direct target r ∧
    DAction (AnalyzeIP db s (GoStd.host_of (RemoteAddr r)) (domain.ID d) (request_host r)).1
      ≠ ActionBlock.
Proof.
  unfold ServeHTTP. destruct (Analyze db s r) as [res s1] eqn:Ha.
  destruct (Analyze_cases _ _ _ _ _ Ha) as [(e & _ & -> & _)|[(-> & _)|(d & Hd & Hact & -> & _)]].
  - by intros [=].
  - rewrite decide_True by done. destruct (LogRequest _ _ _ _ _ _); simpl; [|done]. by intros [=].
  - case_decide as Hb; [destruct (LogRequest _ _ _ _ _ _); simpl; [|done]; by intros [=]|].
    simpl. destruct (negb _); [|by intros [=]].
    destruct (url_Parse _) as [target|] eqn:Hu; [|by intros [=]].
    destruct (reverse_proxy _ _). destruct (LogRequest _ _ _ _ _ _); simpl; [|done].
    intros [=<- <- _ _]. exists d, target. by split_and!.
Qed.

(** C29: The 404 fallback.  [ServeHTTP] answers [http.NotFound] (without
    forwarding) only for an active domain whose target URL is empty: the
    "no domain matched" case of the code's comment never reaches it,
    [Analyze] blocks such requests. *)
Theorem ServeHTTP_not_found db (s : St) repo start finish upstream r resp s' repo' :
  ServeHTTP db s repo start finish upstream r = Ok (resp, None, s', repo') →
  StatusCode resp = StatusNotFound →
  ∃ d, DomainRepo.GetByName db (request_host r) = Ok (Some d) ∧ domain.Active d = true ∧
    domain.TargetURL d = "".
Proof.
  unfold ServeHTTP. destruct (Analyze db s r) as [res s1] eqn:Ha.
  destruct (Analyze_cases _ _ _ _ _ Ha) as [(e & _ & -> & _)|[(-> & _)|(d & Hd & Hact & -> & _)]].
  - by intros [=<- _ _].
  - rewrite decide_True by done. destruct (LogRequest _ _ _ _ _ _); simpl; [|done]. by intros [=<- _ _].
  - case_decide as Hb; [destruct (LogRequest _ _ _ _ _ _); simpl; [|done]; by intros [=<- _ _]|].
    simpl. destruct (String.eqb (domain.TargetURL d) "") eqn:Ht; simpl.
    + intros _ _. exists d. split_and!; [done | done | by apply String.eqb_eq].
    + destruct (url_Parse _) as [target|]; [|by intros [=<- _ _]].
      destruct (reverse_proxy _ _). destruct (LogRequest _ _ _ _ _ _); simpl; [|done]. by intros [=].
Qed.

End Properties.

(** ** Witnesses: the properties at concrete inputs *)

Local Abbreviation web_db :=
  (mkDb true [domain.mkDomain 7 "shop.example" "http://10.0.0.2:8080/app" true None;
              domain.mkDomain 9 "blank.example" "" true None]
            [bot.mkBotRule 1 "IP" "203.0.113.9" "BLOCK" "scraper"] [] 10 2).
Local Abbreviation down_db := (mkDb false [] [] [] 1 1).
Local Abbreviation upstream_ok := (λ (_ : URL) (_ : Request), Ok (mkResponse 201 "created")).
Local Abbreviation repo0 := (analytics.NewRepository []).
Local Abbreviation req_from ip host := (mkRequest host (ip +:+ ":5000") "POST" "/cart" "curl")%string.

Lemma ServeHTTP_block_witness :
  ∃ dec s1, Analyze web_db (Redis.empty 0) (req_from "203.0.113.9" "shop.example") = (Ok dec, s1) ∧
  DAction dec = ActionBlock ∧ analytics.chanClosed repo0 = false ∧
  (length (analytics.logChan repo0) < analytics.chanCap)%nat ∧
  ∃ repo', ServeHTTP web_db (Redis.empty 0) repo0 1000 251000 upstream_ok
             (req_from "203.0.113.9" "shop.example") =
      Ok (mkResponse StatusForbidden ("Access Denied: " +:+ Reason dec), None, s1, repo') ∧
    analytics.accepted repo' = analytics.accepted repo0 ++
      [request_log 251000 (req_from "203.0.113.9" "shop.example") dec StatusForbidden (251000 - 1000)].
Proof.
  do 2 eexists. split; [vm_compute; reflexivity|].
  refine (conj _ (conj _ (conj _ _))); cycle 3.
  { eapply (ServeHTTP_block web_db (Redis.empty 0) repo0 1000 251000 upstream_ok
              (req_from "203.0.113.9" "shop.example")); concrete. }
  all: concrete.
Defined.

Lemma ServeHTTP_forward_witness :
  ∃ dec s1, Analyze web_db (Redis.empty 0) (req_from "198.51.100.4" "shop.example") = (Ok dec, s1) ∧
  DAction dec ≠ ActionBlock ∧
  Domain dec = Some (domain.mkDomain 7 "shop.example" "http://10.0.0.2:8080/app" true None) ∧
  ∃ resp repo', ServeHTTP web_db (Redis.empty 0) repo0 1000 251000 upstream_ok
                  (req_from "198.51.100.4" "shop.example") =
      Ok (resp, Some (direct (mkURL "http" "10.0.0.2:8080" "/app") (req_from "198.51.100.4" "shop.example")), s1, repo') ∧
    resp = (match upstream_ok (mkURL "http" "10.0.0.2:8080" "/app")
                    (direct (mkURL "http" "10.0.0.2:8080" "/app") (req_from "198.51.100.4" "shop.example")) with
            | Ok u => u | Err _ => mkResponse StatusBadGateway "" end) ∧
    analytics.accepted repo' = analytics.accepted repo0 ++
      [request_log 251000 (req_from "198.51.100.4" "shop.example") dec (StatusCode resp) (251000 - 1000)].
Proof.
  do 2 eexists. split; [vm_compute; reflexivity|].
  refine (conj _ (conj _ _)); cycle 2.
  { eapply (ServeHTTP_forward web_db (Redis.empty 0) repo0 1000 251000 upstream_ok
              (req_from "198.51.100.4" "shop.example") _ _
              (domain.mkDomain 7 "shop.example" "http://10.0.0.2:8080/app" true None)
              (mkURL "http" "10.0.0.2:8080" "/app")); concrete. }
  all: concrete.
Defined.

Lemma ServeHTTP_unrecorded_witness :
  ∃ resp s' repo', ServeHTTP down_db (Redis.empty 0) repo0 1000 251000 upstream_ok
                     (req_from "198.51.100.4" "shop.example") = Ok (resp, None, s', repo') ∧
    StatusCode resp ≠ StatusForbidden ∧ repo' = repo0.
Proof.
  do 3 eexists. split; [vm_compute; reflexivity|].
  split; [concrete|].
  eapply (ServeHTTP_unrecorded down_db (Redis.empty 0) repo0 1000 251000 upstream_ok
            (req_from "198.51.100.4" "shop.example")); [vm_compute; reflexivity | concrete].
Defined.

Lemma ServeHTTP_forward_safe_witness :
  ∃ resp out s' repo', ServeHTTP web_db (Redis.empty 0) repo0 1000 251000 upstream_ok
                         (req_from "198.51.100.4" "shop.example") = Ok (resp, Some out, s', repo') ∧
  ∃ d target, DomainRepo.GetByName web_db (request_host (req_from "198.51.100.4" "shop.example"))
                = Ok (Some d) ∧ domain.Active d = true ∧
    url_Parse (domain.TargetURL d) = Ok target ∧ out = direct target (req_from "198.51.100.4" "shop.example") ∧
    DAction (AnalyzeIP web_db (Redis.empty 0) (GoStd.host_of "198.51.100.4:5000") (domain.ID d)
               (request_host (req_from "198.51.100.4" "shop.example"))).1 ≠ ActionBlock.
Proof.
  do 4 eexists. split; [vm_compute; reflexivity|].
  eapply (ServeHTTP_forward_safe web_db (Redis.empty 0) repo0 1000 251000 upstream_ok
            (req_from "198.51.100.4" "shop.example")).
  vm_compute. reflexivity.
Defined.

Lemma ServeHTTP_not_found_witness :
  ∃ resp s' repo', ServeHTTP web_db (Redis.empty 0) repo0 1000 251000 upstream_ok
                     (req_from "198.51.100.4" "blank.example") = Ok (resp, None, s', repo') ∧
    StatusCode resp = StatusNotFound ∧
  ∃ d, DomainRepo.GetByName web_db (request_host (req_from "198.51.100.4" "blank.example")) = Ok (Some d) ∧
    domain.Active d = true ∧ domain.TargetURL d = "".
Proof.
  do 3 eexists. split; [vm_compute; reflexivity|].
  split; [concrete|].
  eapply (ServeHTTP_not_found web_db (Redis.empty 0) repo0 1000 251000 upstream_ok
            (req_from "198.51.100.4" "blank.example")); [vm_compute; reflexivity | concrete].
Defined.

End proxy_facts.
