(* ===== verification/Admin.v ===== *)
(** * The admin API: [domain/handler.go] and [bot/handler.go]

    Each package has a [Service] (the validation of [Store.v], written
    against the package's [Repository] interface) and a [Handler] whose
    [Create] decodes the JSON body, calls the service and answers 201 with
    the encoded row, and whose [List] answers the encoded table;
    [RegisterRoutes] adds [POST] and [GET] routes to a chi router.  The
    handlers are written against the repository classes, so their
    theorems hold for any implementation and, through the instances of
    [Store.v], for the Postgres one.

    [encoding/json] is an interface: a [Decoder] gives the value a body
    decodes to (the zero value with the body's fields) or the decoder's
    error, an [Encoder] the text [Encode] writes.  The chi router is
    modelled by its dispatch on exact patterns: the route's handler, 405
    for a pattern routed for other methods only, [http.NotFound] for an
    unrouted one.  A handler's state is the repository it reaches through
    its service. *)

From S2P Require Import Prelude GoStd Store Redis Analytics Engine Proxy.
From Stdlib Require String.

Module encoding_json.

(** [json.NewDecoder(r.Body).Decode(&v)] on a zero [v]. *)
Class Decoder (A : Type) := { Decode : string → result A }.

(** [json.NewEncoder(w).Encode(v)]: the text written to the response. *)
Class Encoder (A : Type) := { Encode : A → string }.

End encoding_json.

Module chi.
Import nethttp.

(** A handler: the response and the state after it, from the body. *)
Definition Handler (R : Type) : Type := R → string → Response * R.

Record Route (R : Type) := mkRoute { rmethod : string; rpattern : string; rhandler : Handler R }.
Arguments mkRoute {R}.
Arguments rmethod {R}.
Arguments rpattern {R}.
Arguments rhandler {R}.

(** The routes registered on a [chi.Router], in registration order. *)
Definition Router (R : Type) : Type := list (Route R).

(** [r.Post(pattern, h)] and [r.Get(pattern, h)]. *)
Definition Post {R} (pattern : string) (h : Handler R) (r : Router R) : Router R :=
  r ++ [mkRoute "POST" pattern h].
Definition Get {R} (pattern : string) (h : Handler R) (r : Router R) : Router R :=
  r ++ [mkRoute "GET" pattern h].

(** [Mux.ServeHTTP] on exact patterns. *)
Definition ServeHTTP {R} (r : Router R) (repo : R) (method path body : string) : Response * R :=
  match List.find (λ rt, String.eqb (rpattern rt) path && String.eqb (rmethod rt) method) r with
  | Some rt => rhandler rt repo body
  | None =>
    if List.existsb (λ rt, String.eqb (rpattern rt) path) r
    then (mkResponse StatusMethodNotAllowed "", repo)
    else (NotFound, repo)
  end.

End chi.

Module DomainHandler.
Import encoding_json nethttp.
Section Handler.
Context {R : Type} `{!domain.Repository R}.
Context `{!Decoder domain.Domain, !Encoder domain.Domain, !Encoder (list domain.Domain)}.

(** [Handler.Create]: a body that does not decode answers 400 with the
    decoder's error; an error of the service (validation or database)
    answers 500; otherwise 201 and the row as the repository stored it. *)
Definition Create (repo : R) (body : string) : Response * R :=
  match Decode body with
  | Err e => (http_Error e StatusBadRequest, repo)
  | Ok d =>
    match DomainService.CreateDomain repo d with
    | Err e => (http_Error e StatusInternalServerError, repo)
    | Ok (d', repo') => (mkResponse StatusCreated (Encode d'), repo')
    end
  end.

(** [Handler.List]: the body is not read. *)
Definition List (repo : R) (_ : string) : Response * R :=
  match DomainService.ListDomains repo with
  | Err e => (http_Error e StatusInternalServerError, repo)
  | Ok domains => (mkResponse StatusOK (Encode domains), repo)
  end.

Definition RegisterRoutes (r : chi.Router R) : chi.Router R :=
  chi.Get "/domains" List (chi.Post "/domains" Create r).

End Handler.
End DomainHandler.

Module BotHandler.
Import encoding_json nethttp.
Section Handler.
Context {R : Type} `{!bot.Repository R}.
Context `{!Decoder bot.BotRule, !Encoder bot.BotRule, !Encoder (list bot.BotRule)}.

(** [Handler.Create], as for domains. *)
Definition Create (repo : R) (body : string) : Response * R :=
  match Decode body with
  | Err e => (http_Error e StatusBadRequest, repo)
  | Ok rule =>
    match BotService.AddRule repo rule with
    | Err e => (http_Error e StatusInternalServerError, repo)
    | Ok (rule', repo') => (mkResponse StatusCreated (Encode rule'), repo')
    end
  end.

Definition List (repo : R) (_ : string) : Response * R :=
  match BotService.ListRules repo with
  | Err e => (http_Error e StatusInternalServerError, repo)
  | Ok rules => (mkResponse StatusOK (Encode rules), repo)
  end.

Definition RegisterRoutes (r : chi.Router R) : chi.Router R :=
  chi.Get "/bot/rules" List (chi.Post "/bot/rules" Create r).

End Handler.
End BotHandler.

(** The admin server: one chi router on which both handlers registered
    their routes, over one database (the two repositories share the
    Postgres pool of [database.New]). *)
Module admin.
Import encoding_json.
Section Server.
Context `{!Decoder domain.Domain, !Encoder domain.Domain, !Encoder (list domain.Domain)}.
Context `{!Decoder bot.BotRule, !Encoder bot.BotRule, !Encoder (list bot.BotRule)}.

Definition router : chi.Router Db := BotHandler.RegisterRoutes (DomainHandler.RegisterRoutes []).

End Server.

(** Example codecs: a decoder that knows the values of some bodies (any
    other body is a syntax error), and encoders that print the ids. *)
Definition table_decoder {A} (tbl : list (string * A)) : Decoder A := {|
  Decode body := match List.find (λ kv, String.eqb kv.1 body) tbl with
                 | Some kv => Ok kv.2
                 | None => Err "invalid character 'x' looking for beginning of value"
                 end |}.

Definition domain_ids : Encoder domain.Domain := {| Encode d := GoStd.itoa (domain.ID d) |}.
Definition domains_ids : Encoder (list domain.Domain) :=
  {| Encode ds := String.concat "," (map (λ d, GoStd.itoa (domain.ID d)) ds) |}.
Definition rule_ids : Encoder bot.BotRule := {| Encode r := GoStd.itoa (bot.ID r) |}.
Definition rules_ids : Encoder (list bot.BotRule) :=
  {| Encode rs := String.concat "," (map (λ r, GoStd.itoa (bot.ID r)) rs) |}.

End admin.

(** ** Lemmas *)

Module admin_facts.
Import encoding_json nethttp engine proxy.
#[local] Existing Instance engine.Action_eq_dec.

Section Domains.
Context {R : Type} `{!domain.Repository R}.
Context `{!Decoder domain.Domain, !Encoder domain.Domain, !Encoder (list domain.Domain)}.

(** The three outcomes of [Create]. *)
Lemma DomainCreate_cases (repo : R) body resp repo' :
  DomainHandler.Create repo body = (resp, repo') →
  (∃ e, Decode body = Err e ∧ resp = http_Error e StatusBadRequest ∧ repo' = repo) ∨
  (∃ d e, Decode body = Ok d ∧ DomainService.CreateDomain repo d = Err e ∧
     resp = http_Error e StatusInternalServerError ∧ repo' = repo) ∨
  (∃ d d', Decode body = Ok d ∧ DomainService.CreateDomain repo d = Ok (d', repo') ∧
     resp = mkResponse StatusCreated (Encode d')).
Proof.
  unfold DomainHandler.Create. destruct (Decode body) as [d|e] eqn:He.
  - destruct (DomainService.CreateDomain repo d) as [[d' r']|e] eqn:Hc; intros [=<- <-].
    + right; right. by exists d, d'.
    + right; left. by exists d, e.
  - intros [=<- <-]. left. by exists e.
Qed.

(** C36: The answers of [POST /domains].  A body that does not decode,
    and only such a body, is answered 400; 201 is answered exactly when
    the service stored the decoded domain, with the stored row as body;
    any other answer is 400 or 500 and leaves the repository as it was.
    A domain without a name or a target URL, a client error, is answered
    500 Internal Server Error. *)
Theorem Create_status (repo : R) body resp repo' :
  DomainHandler.Create repo body = (resp, repo') →
  (StatusCode resp = StatusBadRequest ↔ is_ok (Decode (A:=domain.Domain) body) = false) ∧
  (StatusCode resp = StatusCreated ↔
     ∃ d d', Decode body = Ok d ∧ DomainService.CreateDomain repo d = Ok (d', repo') ∧
       Body resp = Encode d') ∧
  (StatusCode resp ≠ StatusCreated → repo' = repo ∧
     (StatusCode resp = StatusBadRequest ∨ StatusCode resp = StatusInternalServerError)) ∧
  (∀ d, Decode body = Ok d → (domain.Name d = "" ∨ domain.TargetURL d = "")%string →
     resp = http_Error DomainService.required_domain StatusInternalServerError).
Proof.
  intros Hcreate.
  destruct (DomainCreate_cases _ _ _ _ Hcreate)
    as [(e & He & -> & ->)|[(d & e & He & Hc & -> & ->)|(d & d' & He & Hc & ->)]];
    rewrite He; simpl.
  - split_and!; [done | split; [done | by intros (? & ? & [=] & _)] | by auto | by intros ? [=]].
  - split_and!; [done | split; [done | intros (? & ? & [=<-] & ? & _); congruence] | by auto |].
    intros ? [=<-] Hinv. rewrite (store_facts.CreateDomain_invalid repo d Hinv) in Hc.
    by injection Hc as ->.
  - split_and!; [done | split; [eauto | done] | done |].
    intros ? [=<-] Hinv. by rewrite (store_facts.CreateDomain_invalid repo d Hinv) in Hc.
Qed.

(** C35: A posted domain is listed.  On a repository that keeps the
    [domain.RepositoryLaws] contract, a [POST /domains] answered 201
    stored the posted name, target URL and active flag with a
    configuration (["{}"] when none was posted); a [GET /domains]
    afterwards answers 200 with the earlier table followed by the new row,
    and [GetDomain] on the name finds the new row unless an older row has
    the same name. *)
Theorem Create_List `{!domain.RepositoryLaws R} (repo repo' : R) body resp ds :
  DomainHandler.Create repo body = (resp, repo') → StatusCode resp = StatusCreated →
  DomainService.ListDomains repo = Ok ds →
  ∃ d d', Decode body = Ok d ∧ resp = mkResponse StatusCreated (Encode d') ∧
    DomainHandler.List repo' "" = (mkResponse StatusOK (Encode (ds ++ [d'])), repo') ∧
    domain.Name d' = domain.Name d ∧ domain.TargetURL d' = domain.TargetURL d ∧
    domain.Active d' = domain.Active d ∧
    domain.Config d' = Some (default "{}"%string (domain.Config d)) ∧
    ∀ o, DomainService.GetDomain repo (domain.Name d) = Ok o →
      DomainService.GetDomain repo' (domain.Name d) = Ok (Some (default d' o)).
Proof.
  intros Hcreate H201 Hl.
  destruct (DomainCreate_cases _ _ _ _ Hcreate)
    as [(e & He & -> & ->)|[(d & e & He & Hc & -> & ->)|(d & d' & He & Hc & ->)]];
    [by compute in H201 | by compute in H201 |].
  destruct (store_facts.CreateDomain_Ok repo repo' d d' Hc) as (_ & Hn & Ht & Ha & Hcfg).
  destruct (store_facts.CreateDomain_Create repo repo' d d' Hc) as (d0 & Hcr & Hn0).
  exists d, d'. split_and!; try done.
  - unfold DomainHandler.List, DomainService.ListDomains in *.
    by rewrite (domain.Create_GetAll _ _ _ _ _ Hcr Hl).
  - intros o. unfold DomainService.GetDomain. rewrite <- Hn0.
    exact (domain.Create_GetByName _ _ _ _ _ Hcr).
Qed.

End Domains.

Section Rules.
Context {R : Type} `{!bot.Repository R}.
Context `{!Decoder bot.BotRule, !Encoder bot.BotRule, !Encoder (list bot.BotRule)}.

(** A 201 of the rules' [Create] is a rule that [AddRule] stored. *)
Lemma BotCreate_created (repo : R) body resp repo' :
  BotHandler.Create repo body = (resp, repo') → StatusCode resp = StatusCreated →
  ∃ rule rule', Decode body = Ok rule ∧ BotService.AddRule repo rule = Ok (rule', repo').
Proof.
  unfold BotHandler.Create. destruct (Decode body) as [rule|e] eqn:He; [|by intros [=<- _]].
  destruct (BotService.AddRule repo rule) as [[rule' r']|e] eqn:Ha; [intros [=<- <-]; eauto|].
  by intros [=<- _].
Qed.

End Rules.

Section Composition.
Context `{!URLParser}.
Context `{!Decoder domain.Domain, !Encoder domain.Domain, !Encoder (list domain.Domain)}.
Context `{!Decoder bot.BotRule, !Encoder bot.BotRule, !Encoder (list bot.BotRule)}.
Context {St : Type} `{!CounterStore St, !CounterStoreLaws St}.

Lemma router_post_rules db body :
  chi.ServeHTTP admin.router db "POST" "/bot/rules" body = BotHandler.Create db body.
Proof. reflexivity. Qed.

(** C37: A rule posted to the admin API blocks the proxy.  When
    [POST /bot/rules] on the admin router is answered 201 for a body that
    decodes to an "IP"/"BLOCK" rule, the next request that the proxy
    receives from that address for an active domain is answered 403 with
    the reason of the first blocking rule of the table (the new one or an
    older one for the same address), is not forwarded, leaves the counter
    store untouched, and is recorded with status 403. *)
Theorem rule_post_blocks_proxy db body resp db' (rule : bot.BotRule) (s : St) repo
    start finish upstream r d :
  chi.ServeHTTP admin.router db "POST" "/bot/rules" body = (resp, db') →
  StatusCode resp = StatusCreated → Decode body = Ok rule →
  bot.RuleType rule = "IP" → bot.Action rule = "BLOCK" →
  GoStd.host_of (RemoteAddr r) = bot.Value rule →
  DomainRepo.GetByName db (request_host r) = Ok (Some d) → domain.Active d = true →
  analytics.chanClosed repo = false → (length (analytics.logChan repo) < analytics.chanCap)%nat →
  ∃ first repo', In first (bot_rules db') ∧ rule_blocks (bot.Value rule) first = true ∧
    proxy.ServeHTTP db' s repo start finish upstream r =
      Ok (mkResponse StatusForbidden ("Access Denied: " +:+ reason_rule first), None, s, repo') ∧
    analytics.accepted repo' = analytics.accepted repo ++
      [request_log finish r (with_domain (block (reason_rule first)) d) StatusForbidden
         (finish - start)].
Proof.
  intros Hp H201 Hdec Ht Ha Hip Hg Hact Hc Hroom.
  rewrite router_post_rules in Hp.
  destruct (BotCreate_created db body resp db' Hp H201) as (rule0 & rule' & Hdec0 & Hadd).
  rewrite Hdec in Hdec0. injection Hdec0 as <-.
  destruct (AddRule_then_blocked db rule rule' db' s (domain.ID d) (request_host r) Hadd Ht Ha)
    as (first & Hin & Hb & HIP).
  assert (HA : Analyze db' s r = (Ok (with_domain (block (reason_rule first)) d), s)).
  { unfold Analyze. rewrite (store_facts.AddRule_GetByName _ _ _ _ _ Hadd), Hg, Hact. simpl.
    by rewrite Hip, HIP. }
  rewrite (proxy_facts.ServeHTTP_blocked _ _ _ _ _ _ _ _ _ HA eq_refl). unfold LogRequest.
  destruct (analytics.Log_room
              (request_log finish r (with_domain (block (reason_rule first)) d) StatusForbidden
                 (finish - start)) repo Hc Hroom) as (repo' & -> & Hacc).
  simpl. exists first, repo'. by split_and!.
Qed.

End Composition.

End admin_facts.

(** ** Witnesses *)

Module admin_witnesses.
Import encoding_json nethttp engine proxy admin admin_facts.

Local Abbreviation posted_domain := (domain.mkDomain 0 "blog.example" "http://10.0.0.5" true None).
Local Abbreviation posted_rule := (bot.mkBotRule 0 "IP" "198.51.100.4" "BLOCK" "abuse").

#[local] Existing Instance domain_ids.
#[local] Existing Instance domains_ids.
#[local] Existing Instance rule_ids.
#[local] Existing Instance rules_ids.
#[local] Instance example_domains : Decoder domain.Domain :=
  table_decoder [("blog", posted_domain); ("noname", domain.mkDomain 0 "" "http://10.0.0.5" true None)].
#[local] Instance example_rules : Decoder bot.BotRule := table_decoder [("block-4", posted_rule)].

Local Abbreviation site_db :=
  (mkDb true [domain.mkDomain 7 "shop.example" "http://10.0.0.2:8080" true None] [] [] 8 1).
Local Abbreviation shop_req := (mkRequest "shop.example" "198.51.100.4:5000" "GET" "/" "curl").

Lemma Create_status_witness :
  ∃ resp repo', DomainHandler.Create site_db "noname" = (resp, repo') ∧
  (StatusCode resp = StatusBadRequest ↔ is_ok (Decode (A:=domain.Domain) "noname") = false) ∧
  (StatusCode resp = StatusCreated ↔
     ∃ d d', Decode "noname" = Ok d ∧ DomainService.CreateDomain site_db d = Ok (d', repo') ∧
       Body resp = Encode d') ∧
  (StatusCode resp ≠ StatusCreated → repo' = site_db ∧
     (StatusCode resp = StatusBadRequest ∨ StatusCode resp = StatusInternalServerError)) ∧
  (∀ d, Decode "noname" = Ok d → (domain.Name d = "" ∨ domain.TargetURL d = "")%string →
     resp = http_Error DomainService.required_domain StatusInternalServerError).
Proof.
  do 2 eexists. split; [vm_compute; reflexivity|].
  eapply (Create_status site_db "noname"). vm_compute. reflexivity.
Defined.

Lemma Create_List_witness :
  ∃ resp repo' ds, DomainHandler.Create site_db "blog" = (resp, repo') ∧
  StatusCode resp = StatusCreated ∧ DomainService.ListDomains site_db = Ok ds ∧
  ∃ d d', Decode "blog" = Ok d ∧ resp = mkResponse StatusCreated (Encode d') ∧
    DomainHandler.List repo' "" = (mkResponse StatusOK (Encode (ds ++ [d'])), repo') ∧
    domain.Name d' = domain.Name d ∧ domain.TargetURL d' = domain.TargetURL d ∧
    domain.Active d' = domain.Active d ∧
    domain.Config d' = Some (default "{}"%string (domain.Config d)) ∧
    ∀ o, DomainService.GetDomain site_db (domain.Name d) = Ok o →
      DomainService.GetDomain repo' (domain.Name d) = Ok (Some (default d' o)).
Proof.
  do 3 eexists. split; [vm_compute; reflexivity|]. split; [vm_compute; reflexivity|].
  split; [vm_compute; reflexivity|].
  eapply (Create_List site_db); vm_compute; reflexivity.
Defined.

Lemma rule_post_blocks_proxy_witness :
  ∃ resp db', chi.ServeHTTP router site_db "POST" "/bot/rules" "block-4" = (resp, db') ∧
  StatusCode resp = StatusCreated ∧ Decode "block-4" = Ok posted_rule ∧
  bot.RuleType posted_rule = "IP" ∧ bot.Action posted_rule = "BLOCK" ∧
  GoStd.host_of (RemoteAddr shop_req) = bot.Value posted_rule ∧
  DomainRepo.GetByName site_db (request_host shop_req)
    = Ok (Some (domain.mkDomain 7 "shop.example" "http://10.0.0.2:8080" true None)) ∧
  domain.Active (domain.mkDomain 7 "shop.example" "http://10.0.0.2:8080" true None) = true ∧
  analytics.chanClosed (analytics.NewRepository []) = false ∧
  (length (analytics.logChan (analytics.NewRepository [])) < analytics.chanCap)%nat ∧
  ∃ first repo', In first (bot_rules db') ∧ rule_blocks (bot.Value posted_rule) first = true ∧
    proxy.ServeHTTP db' (Redis.empty 0) (analytics.NewRepository []) 1000 251000
      (λ _ _, Ok (mkResponse 200 "ok")) shop_req =
      Ok (mkResponse StatusForbidden ("Access Denied: " +:+ reason_rule first), None,
          Redis.empty 0, repo') ∧
    analytics.accepted repo' = analytics.accepted (analytics.NewRepository []) ++
      [request_log 251000 shop_req
         (with_domain (block (reason_rule first))
            (domain.mkDomain 7 "shop.example" "http://10.0.0.2:8080" true None))
         StatusForbidden (251000 - 1000)].
Proof.
  do 2 eexists. split; [vm_compute; reflexivity|].
  refine (conj _ (conj _ (conj _ (conj _ (conj _ (conj _ (conj _ (conj _ (conj _ _)))))))));
    cycle 9.
  { eapply (rule_post_blocks_proxy site_db "block-4" _ _ posted_rule (Redis.empty 0)
              (analytics.NewRepository []) 1000 251000 (λ _ _, Ok (mkResponse 200 "ok")) shop_req
              (domain.mkDomain 7 "shop.example" "http://10.0.0.2:8080" true None));
      concrete. }
  all: concrete.
Defined.

End admin_witnesses.
