(* ===== verification/Frontends.v ===== *)
(** * The two front-ends together: [dns/server.go] and [proxy/handler.go]

    Both front-ends hand the engine a (site, client address) pair:
    [handleRequest] calls [AnalyzeIP] with the id of the queried domain
    and the host of the UDP peer, [ServeHTTP] calls [Analyze], which calls
    [AnalyzeIP] with the id of the domain named by the [Host] header and
    the host of [RemoteAddr].  The counter key [ratelimit:<id>:<ip>] does
    not say which front-end counted, so a client's DNS queries and HTTP
    requests for one site spend one budget of 100 per window.  This file
    holds no definition of the program; it composes those of [DnsServer],
    [Engine] and [Proxy]. *)

From S2P Require Import Prelude GoStd Store Redis Analytics Engine DnsServer Proxy.

Module frontends.
Import engine dnsmsg dnsserver dnsserver_facts.
#[local] Existing Instance engine.Action_eq_dec.

(** The decision of a call that was counted, with its new count. *)
Definition counted (count : Z) : Decision :=
  if count <=? limit then allow else block reason_rate.

Section Shared.
Context `{!ZoneParser}.
Context {St : Type} `{!CounterStore St, !CounterStoreLaws St}.

(** One call with no blocking rule on a healthy store: the decision of
    the new count, the counter one higher, the store still healthy. *)
Lemma AnalyzeIP_counted db (s : St) ip id name :
  matching_rule db ip = None → cs_healthy s → cs_count (rate_key id ip) s < int64_max →
  (AnalyzeIP db s ip id name).1 = counted (cs_count (rate_key id ip) s + 1) ∧
  cs_count (rate_key id ip) (AnalyzeIP db s ip id name).2 = cs_count (rate_key id ip) s + 1 ∧
  cs_healthy (AnalyzeIP db s ip id name).2.
Proof.
  intros Hm Hh Hlt. rewrite AnalyzeIP_no_rule by done.
  destruct (checkRateLimit_healthy s id ip Hh Hlt) as (H1 & H2 & H3). simpl. by rewrite H1.
Qed.

Lemma query_domain_id_found db name d :
  DomainRepo.GetByName db name = Ok (Some d) → query_domain_id db name = domain.ID d.
Proof. unfold query_domain_id. by intros ->. Qed.

(** C17: DNS and HTTP share the rate limit.  For an active domain with a
    positive id and a client that no rule blocks, a DNS query counts one
    call of the (domain, client) pair: it is REFUSED exactly when that call
    is over the limit; an HTTP request from the same host for the same
    site, whatever its ports, is then the next call of the same window: it
    gets the decision of the count two above the one before the query. *)
Theorem dns_http_share_window srv db (s : St) repo now addr q req d :
  has_engine srv = true →
  DomainRepo.GetByName db (query_domain q) = Ok (Some d) → domain.Active d = true →
  0 < domain.ID d →
  request_host req = query_domain q → GoStd.host_of (RemoteAddr req) = GoStd.host_of addr →
  matching_rule db (GoStd.host_of addr) = None → cs_healthy s →
  cs_count (rate_key (domain.ID d) (GoStd.host_of addr)) s + 2 < int64_max →
  analytics.chanClosed repo = false →
  let c := cs_count (rate_key (domain.ID d) (GoStd.host_of addr)) s in
  ∃ m s1 repo1, handleRequest srv db s repo now addr q = Ok (m, s1, repo1) ∧
    (Rcode m = RcodeRefused ↔ limit < c + 1) ∧
    ∃ s2, Analyze db s1 req = (Ok (with_domain (counted (c + 2)) d), s2) ∧
      cs_count (rate_key (domain.ID d) (GoStd.host_of addr)) s2 = c + 2.
Proof.
  intros Hen Hg Hact Hid Hh Ha Hm Hhs Hlt Hc. cbv zeta.
  rewrite handleRequest_eq. unfold dns_decision.
  rewrite Hen, (query_domain_id_found _ _ _ Hg), (proj2 (Z.ltb_lt _ _) Hid). simpl.
  destruct (AnalyzeIP_counted db s (GoStd.host_of addr) (domain.ID d) (query_domain q) Hm Hhs
              ltac:(lia)) as (Hd1 & Hc1 & Hh1).
  destruct (AnalyzeIP db s _ _ _) as [dec s1]. simpl in Hd1, Hc1, Hh1. subst dec.
  set (c := cs_count (rate_key (domain.ID d) (GoStd.host_of addr)) s) in *. clearbody c.
  destruct (analytics.Log_open (dns_event now db addr q (counted (c + 1))) repo Hc) as [repo1 ->].
  simpl. eexists _, s1, repo1. split; [reflexivity|]. split.
  - unfold counted. destruct (Z.leb_spec (c + 1) limit) as [Hle|Hgt].
    + rewrite bool_decide_false by done. simpl. unfold RcodeSuccess, RcodeRefused.
      split; [discriminate | lia].
    + rewrite bool_decide_true by done. simpl. split; [lia | done].
  - unfold Analyze. cbv zeta. rewrite Hh, Hg. simpl. rewrite Hact. simpl. rewrite Ha.
    destruct (AnalyzeIP_counted db s1 (GoStd.host_of addr) (domain.ID d) (query_domain q) Hm Hh1
                ltac:(lia)) as (H2 & H3 & _).
    destruct (AnalyzeIP db s1 _ _ _) as [dec2 s2]. simpl in H2, H3. subst dec2.
    exists s2. split; [by rewrite Hc1, <- Z.add_assoc | lia].
Qed.

End Shared.

(** ** Witnesses *)

Local Abbreviation edge_db :=
  (mkDb true [domain.mkDomain 7 "shop.example" "http://10.0.0.2:8080" true None]
            [bot.mkBotRule 1 "IP" "203.0.113.9" "BLOCK" "scraper"] [] 8 2).
Local Abbreviation ns := (mkServer "203.0.113.53" true).
Local Abbreviation a_query :=
  (mkMsg 42 false OpcodeQuery 0 false [mkQuestion "Shop.Example." TypeA 1] []).
Local Abbreviation web_req := (mkRequest "shop.example:443" "198.51.100.4:5000" "GET" "/" "curl").

Lemma dns_http_share_window_witness :
  has_engine ns = true ∧
  DomainRepo.GetByName edge_db (query_domain a_query)
    = Ok (Some (domain.mkDomain 7 "shop.example" "http://10.0.0.2:8080" true None)) ∧
  domain.Active (domain.mkDomain 7 "shop.example" "http://10.0.0.2:8080" true None) = true ∧
  0 < 7 ∧ request_host web_req = query_domain a_query ∧
  GoStd.host_of (RemoteAddr web_req) = GoStd.host_of "198.51.100.4:40000" ∧
  matching_rule edge_db (GoStd.host_of "198.51.100.4:40000") = None ∧
  cs_healthy (Redis.empty 0) ∧
  cs_count (rate_key 7 (GoStd.host_of "198.51.100.4:40000")) (Redis.empty 0) + 2 < int64_max ∧
  analytics.chanClosed (analytics.NewRepository []) = false ∧
  let c := cs_count (rate_key 7 (GoStd.host_of "198.51.100.4:40000")) (Redis.empty 0) in
  ∃ m s1 repo1,
    handleRequest ns edge_db (Redis.empty 0) (analytics.NewRepository []) 1000
      "198.51.100.4:40000" a_query = Ok (m, s1, repo1) ∧
    (Rcode m = RcodeRefused ↔ limit < c + 1) ∧
    ∃ s2, Analyze edge_db s1 web_req
            = (Ok (with_domain (counted (c + 2))
                     (domain.mkDomain 7 "shop.example" "http://10.0.0.2:8080" true None)), s2) ∧
      cs_count (rate_key 7 (GoStd.host_of "198.51.100.4:40000")) s2 = c + 2.
Proof.
  refine (conj _ (conj _ (conj _ (conj _ (conj _ (conj _ (conj _ (conj _ (conj _ (conj _ _))))))))));
    cycle 10.
  { apply (dns_http_share_window ns edge_db (Redis.empty 0) (analytics.NewRepository []) 1000
             "198.51.100.4:40000" a_query web_req
             (domain.mkDomain 7 "shop.example" "http://10.0.0.2:8080" true None)); concrete. }
  all: concrete.
Defined.

End frontends.
