(* ===== verification/Config.v ===== *)
(** * Configuration: [config/config.go]

    [Load] builds the [Config] from the process environment after
    [godotenv.Load()] has added the variables of a [.env] file that the
    environment does not already set; [getEnv] and [getEnvInt] read one
    variable with a fallback.  The environment is a finite map from names
    to values; the [.env] file is given parsed, as its list of assignments
    in file order ([None] when there is no file: the error is ignored).
    [strconv.Atoi] is modelled after Go: an optional sign, at least one
    decimal digit, and a value in the 64-bit range. *)

From S2P Require Import Prelude GoStd.
From Stdlib Require Import Ascii DecimalString DecimalZ DecimalN DecimalPos.
From Stdlib Require String.

Module config.

Module DatabaseConfig.
Record t := mk { Host : string; Port : string; User : string; Password : string; Name : string }.
End DatabaseConfig.

Module RedisConfig.
Record t := mk { Addr : string; Password : string; DB : Z }.
End RedisConfig.

Module ClickHouseConfig.
Record t := mk { Addr : string; DB : string }.
End ClickHouseConfig.

Module DNSConfig.
Record t := mk { Port : string }.
End DNSConfig.

Record Config := mkConfig {
  Port : string;
  LogLevel : string;
  Database : DatabaseConfig.t;
  Redis : RedisConfig.t;
  ClickHouse : ClickHouseConfig.t;
  DNS : DNSConfig.t
}.

(** The process environment. *)
Abbreviation Env := (gmap string string).

(** [godotenv.Load()]: the file's assignments as a map (a later
    assignment of a name overrides an earlier one), then each name of the
    map that the environment does not set is set. *)
Definition dotenv_map (kvs : list (string * string)) : gmap string string :=
  fold_left (λ m '(k, v), <[k:=v]> m) kvs ∅.

Definition godotenv_Load (env : Env) (file : option (list (string * string))) : Env :=
  match file with
  | Some kvs => env ∪ dotenv_map kvs
  | None => env
  end.

(** [strconv.Atoi]. *)
Definition errSyntax : string := "invalid syntax".
Definition errRange : string := "value out of range".

Definition Atoi (s : string) : result Z :=
  let '(neg, body) :=
    match s with
    | String.String "+" b => (false, b)
    | String.String "-" b => (true, b)
    | _ => (false, s)
    end%char in
  match body, NilEmpty.uint_of_string body with
  | String.EmptyString, _ => Err errSyntax
  | _, None => Err errSyntax
  | _, Some u =>
    let z := if neg then - Z.of_uint u else Z.of_uint u in
    if in_int64 z then Ok z else Err errRange
  end.

Definition getEnv (env : Env) (key fallback : string) : string :=
  match env !! key with Some value => value | None => fallback end.

Definition getEnvInt (env : Env) (key : string) (fallback : Z) : Z :=
  match env !! key with
  | Some value => match Atoi value with Ok i => i | Err _ => fallback end
  | None => fallback
  end.

(** [Load]: the configuration and the environment after [godotenv.Load];
    the error result of [Load] is always [nil]. *)
Definition Load (env : Env) (file : option (list (string * string))) : Config * Env :=
  let env' := godotenv_Load env file in
  (mkConfig (getEnv env' "PORT" "8080") (getEnv env' "LOG_LEVEL" "info")
     (DatabaseConfig.mk (getEnv env' "DB_HOST" "localhost") (getEnv env' "DB_PORT" "5432")
        (getEnv env' "DB_USER" "user") (getEnv env' "DB_PASSWORD" "password")
        (getEnv env' "DB_NAME" "goflare"))
     (RedisConfig.mk (getEnv env' "REDIS_ADDR" "localhost:6379")
        (getEnv env' "REDIS_PASSWORD" "") (getEnvInt env' "REDIS_DB" 0))
     (ClickHouseConfig.mk (getEnv env' "CLICKHOUSE_ADDR" "localhost:9000")
        (getEnv env' "CLICKHOUSE_DB" "goflare_analytics"))
     (DNSConfig.mk (getEnv env' "DNS_PORT" "8053")),
   env').

(** The string fields of [Load]: the variable, its default, the field. *)
Definition string_fields : list (string * string * (Config → string)) := [
  ("PORT", "8080", Port);
  ("LOG_LEVEL", "info", LogLevel);
  ("DB_HOST", "localhost", λ c, DatabaseConfig.Host (Database c));
  ("DB_PORT", "5432", λ c, DatabaseConfig.Port (Database c));
  ("DB_USER", "user", λ c, DatabaseConfig.User (Database c));
  ("DB_PASSWORD", "password", λ c, DatabaseConfig.Password (Database c));
  ("DB_NAME", "goflare", λ c, DatabaseConfig.Name (Database c));
  ("REDIS_ADDR", "localhost:6379", λ c, RedisConfig.Addr (Redis c));
  ("REDIS_PASSWORD", "", λ c, RedisConfig.Password (Redis c));
  ("CLICKHOUSE_ADDR", "localhost:9000", λ c, ClickHouseConfig.Addr (ClickHouse c));
  ("CLICKHOUSE_DB", "goflare_analytics", λ c, ClickHouseConfig.DB (ClickHouse c));
  ("DNS_PORT", "8053", λ c, DNSConfig.Port (DNS c))
]%string.

(** The value of a variable the file assigns: its last assignment. *)
Definition dotenv_value (kvs : list (string * string)) (k : string) : option string :=
  snd <$> List.find (λ kv, String.eqb (fst kv) k) (reverse kvs).

(** The value [Load] reads for [k]: the environment's, else the file's. *)
Definition resolved (env : Env) (file : option (list (string * string))) (k : string)
    : option string :=
  match env !! k with
  | Some v => Some v
  | None => match file with Some kvs => dotenv_value kvs k | None => None end
  end.

End config.

(** ** Lemmas *)

Module config_facts.
Import config.

Lemma dotenv_map_lookup kvs k : dotenv_map kvs !! k = dotenv_value kvs k.
Proof.
  unfold dotenv_map, dotenv_value. induction kvs as [|[k' v'] kvs IH] using rev_ind; [done|].
  rewrite fold_left_app, reverse_app. simpl. destruct (String.eqb_spec k' k) as [->|Hne].
  - by rewrite lookup_insert_eq.
  - by rewrite lookup_insert_ne by congruence.
Qed.

(** After [godotenv.Load], a name has the environment's value, else the
    file's last assignment. *)
Lemma godotenv_lookup env file k : godotenv_Load env file !! k = resolved env file k.
Proof.
  unfold godotenv_Load, resolved. destruct (env !! k) as [v|] eqn:He; destruct file as [kvs|];
    rewrite ?He; try done.
  - by apply lookup_union_Some_l.
  - by rewrite lookup_union_r, dotenv_map_lookup.
Qed.

Lemma getEnv_resolved env file k def :
  getEnv (godotenv_Load env file) k def = from_option id def (resolved env file k).
Proof. unfold getEnv. rewrite godotenv_lookup. by destruct (resolved env file k). Qed.

Lemma Atoi_int64 s z : Atoi s = Ok z → in_int64 z = true.
Proof.
  unfold Atoi. repeat case_match; intros; simplify_eq; done.
Qed.

(** The decimal form printed by [strconv.Itoa] (and [%d]) reads back. *)
Lemma Atoi_itoa n : in_int64 n = true → Atoi (GoStd.itoa n) = Ok n.
Proof.
  intros Hn. pose proof (DecimalZ.of_to n) as Hof. unfold GoStd.itoa.
  destruct (Z.to_int n) as [u|u] eqn:Ht; simpl in Hof.
  - destruct u; [subst n; discriminate|..];
      unfold Atoi; simpl; rewrite NilEmpty.usu; simpl; rewrite Hof; by case_match.
  - destruct u; [subst n; discriminate|..];
      unfold Atoi; simpl; rewrite NilEmpty.usu; simpl; rewrite Hof; by case_match.
Qed.

(** ** Properties *)

(** C30: Where each setting comes from.  Every string field of the
    configuration [Load] returns is the value of its variable in the
    process environment if set (even to the empty string), else its last
    assignment in the [.env] file, else the code's default; and the
    environment afterwards holds exactly those values: the file never
    overrides a variable that is already set. *)
Theorem Load_string_fields env file :
  Forall (λ '(k, def, field), field (Load env file).1 = from_option id def (resolved env file k))
    string_fields ∧
  ∀ k, (Load env file).2 !! k = resolved env file k.
Proof.
  split; [|apply godotenv_lookup].
  repeat (apply Forall_cons; split; [apply getEnv_resolved|]). apply Forall_nil_2.
Qed.

(** C31: [REDIS_DB] read back.  When the variable holds the decimal form
    of a 64-bit integer (as [strconv.Itoa] prints it), [Load] sets the
    Redis database number to that integer. *)
Theorem Load_redis_db env file n :
  resolved env file "REDIS_DB" = Some (GoStd.itoa n) → in_int64 n = true →
  RedisConfig.DB (Redis (Load env file).1) = n.
Proof.
  intros Hr Hn. simpl. unfold getEnvInt. rewrite godotenv_lookup, Hr.
  by rewrite Atoi_itoa.
Qed.

(** ** Witnesses *)

Lemma Load_redis_db_witness :
  resolved {[ "REDIS_DB" := "-3" ]} (Some [("REDIS_DB", "7")]) "REDIS_DB" = Some (GoStd.itoa (-3)) ∧
  in_int64 (-3) = true ∧
  RedisConfig.DB (Redis (Load {[ "REDIS_DB" := "-3" ]} (Some [("REDIS_DB", "7")])).1) = -3.
Proof.
  refine (conj _ (conj _ _)); cycle 2.
  { apply Load_redis_db; concrete. }
  all: concrete.
Defined.

End config_facts.
