(* ===== verification/Concurrent.v ===== *)
(** * Concurrent calls of the rate limiter

    The engine is called from many goroutines at once; [checkRateLimit]
    ([engine/engine.go]) makes two calls to the counter store, [INCR] and,
    for the call that opens a window, [EXPIRE], each atomic in the store.
    A call in progress is a thread: [Ready], [Incremented] (its INCR done,
    its EXPIRE pending), [Finished] with its count and verdict.  A
    schedule is the list of the threads that take a step, in order; any
    interleaving of the store operations of concurrent calls is one.
    [run] executes a schedule against any lawful counter store.

    The theorems: however the calls for one (domain, client) pair
    interleave, they see the counts [c+1 .. c+n] in some order, so
    exactly as many are allowed as in a sequential run.  This is the
    property the specification asks of the atomic increment; a
    read-then-write counter would not have it.  On the [Redis] store, the
    window the calls open ends with its deadline, although other calls'
    INCRs may fall between the opening INCR and its EXPIRE ([ttl_inv]
    tracks the key while that EXPIRE is pending).  A lemma shows that a
    thread alone takes the steps of [checkRateLimit]. *)

From S2P Require Import Prelude GoStd Store Redis Engine.

Module concurrent.
Import engine.

(** A call of [checkRateLimit] in progress. *)
Inductive phase :=
| Ready
| Incremented (count : Z)
| Finished (count : option Z) (allowed : bool) (err : option string).

Record thread := mkThread { t_domain : Z; t_ip : string; t_phase : phase }.

Definition set_phase (t : thread) (p : phase) : thread := mkThread (t_domain t) (t_ip t) p.

Section Run.
Context {St : Type} `{!CounterStore St}.

(** One atomic store operation of a call: the INCR (an error allows at
    once, fail-open; a count other than 1 decides at once), then the
    EXPIRE of the call that opened the window, whose error is ignored. *)
Definition thread_step (t : thread) (s : St) : thread * St :=
  let key := rate_key (t_domain t) (t_ip t) in
  match t_phase t with
  | Ready =>
    match cs_incr key s with
    | (Err e, s1) => (set_phase t (Finished None true (Some e)), s1)
    | (Ok count, s1) =>
      if count =? 1 then (set_phase t (Incremented count), s1)
      else (set_phase t (Finished (Some count) (count <=? limit) None), s1)
    end
  | Incremented count =>
    (set_phase t (Finished (Some count) (count <=? limit) None), snd (cs_expire key window s))
  | Finished _ _ _ => (t, s)
  end.

(** A schedule: the index of the thread that steps; an index with no
    thread is skipped. *)
Fixpoint run (sched : list nat) (ts : list thread) (s : St) : list thread * St :=
  match sched with
  | [] => (ts, s)
  | i :: rest =>
    match ts !! i with
    | Some t => let '(t', s') := thread_step t s in run rest (<[i:=t']> ts) s'
    | None => run rest ts s
    end
  end.

End Run.

(** The verdict of a finished call, as [checkRateLimit] returns it. *)
Definition outcome (p : phase) : option (bool * option string) :=
  match p with Finished _ a e => Some (a, e) | _ => None end.

Definition finished_count (t : thread) : option Z :=
  match t_phase t with Finished c _ _ => c | _ => None end.

Definition allowed (t : thread) : bool :=
  match t_phase t with Finished _ a _ => a | _ => false end.

(** [n] calls for one pair, none started. *)
Definition calls (id : Z) (ip : string) (n : nat) : list thread :=
  replicate n (mkThread id ip Ready).

(** The count a call has obtained, once its INCR is done. *)
Definition started_count (t : thread) : option Z :=
  match t_phase t with Ready => None | Incremented c => Some c | Finished c _ _ => c end.

(** A finished call on a healthy store has its count and the verdict of
    that count. *)
Definition phase_ok (p : phase) : Prop :=
  match p with
  | Ready | Incremented _ => True
  | Finished (Some c) a None => a = (c <=? limit)
  | Finished _ _ _ => False
  end.

(** The steps a call still has to take. *)
Definition rank (p : phase) : nat :=
  match p with Ready => 2 | Incremented _ => 1 | Finished _ _ _ => 0 end.

Definition rank_at (ts : list thread) (i : nat) : nat :=
  from_option (λ t, rank (t_phase t)) 0%nat (ts !! i).

(** The invariant of [n] concurrent calls for one pair whose counter
    was [c0]: the calls that have done their INCR got the counts
    [c0+1 .. c0+m] in some order, and the counter is at [c0+m]. *)
Record inv `{!CounterStore St} (id : Z) (ip : string) (c0 : Z) (n : nat)
    (ts : list thread) (s : St) : Prop := {
  inv_threads : Forall (λ t, t_domain t = id ∧ t_ip t = ip ∧ phase_ok (t_phase t)) ts;
  inv_len : length ts = n;
  inv_healthy : cs_healthy s;
  inv_count : cs_count (rate_key id ip) s = c0 + Z.of_nat (length (omap started_count ts));
  inv_perm : omap started_count ts
               ≡ₚ map (λ k : nat, c0 + Z.of_nat k) (seq 1 (length (omap started_count ts)))
}.

Definition incremented (t : thread) : bool :=
  match t_phase t with Incremented _ => true | _ => false end.

(** The deadline of the counter key [k] on the Redis store, at the time
    [t0] of the calls, when the key held no live counter before them:
    while no call has done its INCR there is no counter; afterwards there
    is one, without deadline exactly while the call that opened the window
    (the one that read 1) has its EXPIRE pending. *)
Record ttl_inv (k : string) (t0 : Z) (ts : list thread) (s : Redis.State) : Prop := {
  ttl_now : Redis.now s = t0;
  ttl_opener : Forall (λ t, ∀ c, t_phase t = Incremented c → c = 1) ts;
  ttl_entry :
    match omap started_count ts with
    | [] => Redis.get_live k s = None
    | _ :: _ => ∃ v, Redis.get_live k s
                     = Some (Redis.mkEntry v (if existsb incremented ts then None else Some (t0 + window)))
    end
}.

End concurrent.

(** ** Lemmas *)

Module concurrent_facts.
Import engine concurrent.

Section Facts.
Context {St : Type} `{!CounterStore St, !CounterStoreLaws St}.

Lemma thread_inv_step id ip c0 n ts (s : St) i t :
  c0 + Z.of_nat n < int64_max →
  inv id ip c0 n ts s → ts !! i = Some t →
  inv id ip c0 n (<[i:=(thread_step t s).1]> ts) (thread_step t s).2.
Proof.
  intros Hbound [Hth Hlen Hh Hc Hp] Hi.
  destruct (proj1 (Forall_lookup _ _) Hth i t Hi) as (Hd & Hip & Hok).
  set (m := length (omap started_count ts)) in *.
  unfold thread_step. rewrite Hd, Hip.
  destruct (t_phase t) as [|c|c a e] eqn:Hph.
  - assert (Hm : (m < n)%nat)
      by (subst m; rewrite <- Hlen; eapply omap_length_lt; [exact Hi | unfold started_count; by rewrite Hph]).
    pose proof (cs_incr_ok (rate_key id ip) s Hh ltac:(lia)) as Hok1.
    pose proof (cs_incr_count (rate_key id ip) s Hh ltac:(lia)) as Hc1.
    pose proof (cs_incr_healthy (rate_key id ip) s Hh) as Hh1.
    destruct (cs_incr (rate_key id ip) s) as [r s1]. simpl in Hok1, Hc1, Hh1. subst r.
    set (c := cs_count (rate_key id ip) s + 1).
    assert (Hnew : ∀ t', started_count t' = Some c → phase_ok (t_phase t') →
                   t_domain t' = id → t_ip t' = ip → inv id ip c0 n (<[i:=t']> ts) s1).
    { intros t' Hs' Hok' Hd' Hip'.
      pose proof (omap_insert_perm started_count ts i t t' Hi) as Hperm.
      unfold started_count at 2 in Hperm. rewrite Hph, Hs' in Hperm. simpl in Hperm.
      rewrite app_nil_r in Hperm.
      assert (Hl : length (omap started_count (<[i:=t']> ts)) = S m)
        by (rewrite Hperm, length_app; simpl; subst m; lia).
      split.
      - apply Forall_insert; [done|]. done.
      - by rewrite length_insert.
      - done.
      - rewrite Hl, Hc1. unfold c. lia.
      - rewrite Hl, Hperm, Hp, seq_S, map_app. simpl. do 2 f_equiv. unfold c. lia. }
    destruct (c =? 1); simpl; apply Hnew; try done; simpl; done.
  - simpl. pose proof (omap_insert_perm started_count ts i t
                          (set_phase t (Finished (Some c) (c <=? limit) None)) Hi) as Hperm.
    unfold started_count at 2 3 in Hperm. rewrite Hph in Hperm. simpl in Hperm.
    apply Permutation_app_inv_r in Hperm.
    assert (Hl : length (omap started_count (<[i:=set_phase t (Finished (Some c) (c <=? limit) None)]> ts)) = m)
      by (by rewrite Hperm).
    split.
    + apply Forall_insert; [done|]. simpl. by split_and!.
    + by rewrite length_insert.
    + by apply cs_expire_healthy.
    + rewrite cs_expire_count by (unfold window; lia). by rewrite Hl.
    + by rewrite Hl, Hperm.
  - simpl. rewrite list_insert_id by (rewrite Hi; f_equal; destruct t; simpl in *; by subst).
    by split.
Qed.

Lemma inv_run id ip c0 n sched ts (s : St) :
  c0 + Z.of_nat n < int64_max →
  inv id ip c0 n ts s → inv id ip c0 n (run sched ts s).1 (run sched ts s).2.
Proof.
  intros Hb. revert ts s. induction sched as [|i rest IH]; intros ts s H; simpl; [done|].
  destruct (ts !! i) as [t|] eqn:Hi; [|by apply IH].
  pose proof (thread_inv_step id ip c0 n ts s i t Hb H Hi) as H'.
  destruct (thread_step t s) as [t' s']. by apply IH.
Qed.

Lemma rank_step t (s : St) : (rank (t_phase (thread_step t s).1) ≤ rank (t_phase t) - 1)%nat.
Proof.
  unfold thread_step, set_phase. destruct (t_phase t) eqn:Hp; simpl; [|lia|rewrite Hp; simpl; lia].
  destruct (cs_incr _ s) as [[c|e] s1]; simpl; [destruct (c =? 1)|]; simpl; lia.
Qed.

Lemma run_rank sched ts (s : St) i :
  (rank_at (run sched ts s).1 i ≤ rank_at ts i - List.count_occ Nat.eq_dec sched i)%nat.
Proof.
  revert ts s. induction sched as [|j rest IH]; intros ts s; simpl; [lia|].
  destruct (ts !! j) as [t|] eqn:Hj.
  - destruct (thread_step t s) as [t' s'] eqn:E. etrans; [apply IH|].
    pose proof (rank_step t s) as Hr. rewrite E in Hr. simpl in Hr.
    unfold rank_at. destruct (Nat.eq_dec j i) as [<-|Hne].
    + rewrite list_lookup_insert_eq by (by eapply lookup_lt_Some). rewrite Hj. simpl. lia.
    + rewrite list_lookup_insert_ne by done. lia.
  - etrans; [apply IH|]. destruct (Nat.eq_dec j i) as [<-|]; [|lia].
    unfold rank_at. rewrite Hj. simpl. lia.
Qed.

(** A schedule that gives each of the [n] calls two steps finishes them
    all, each with its count and the verdict of that count. *)
Lemma run_finishes id ip c0 n sched (s : St) :
  c0 + Z.of_nat n < int64_max → inv id ip c0 n (calls id ip n) s →
  (∀ i, (i < n)%nat → (2 ≤ List.count_occ Nat.eq_dec sched i)%nat) →
  Forall (λ t, ∃ c, t_phase t = Finished (Some c) (c <=? limit) None) (run sched (calls id ip n) s).1.
Proof.
  intros Hb H0 Hsched.
  pose proof (inv_run id ip c0 n sched _ _ Hb H0) as [Hth Hlen _ _ _].
  pose proof (run_rank sched (calls id ip n) s) as Hrank.
  apply Forall_lookup. intros i t Hi.
  assert (Hin : (i < n)%nat) by (rewrite <- Hlen; by eapply lookup_lt_Some).
  specialize (Hrank i). specialize (Hsched i Hin).
  unfold rank_at in Hrank. rewrite Hi in Hrank. unfold calls in Hrank.
  rewrite lookup_replicate_2 in Hrank by done. simpl in Hrank.
  destruct (proj1 (Forall_lookup _ _) Hth i t Hi) as (_ & _ & Hok).
  destruct (t_phase t) as [|c|[c|] a [e|]]; simpl in *; try lia; try done. subst a. by exists c.
Qed.

(** [n] calls not yet started satisfy the invariant. *)
Lemma inv_calls id ip n (s : St) :
  cs_healthy s → inv id ip (cs_count (rate_key id ip) s) n (calls id ip n) s.
Proof.
  intros Hh. unfold calls. split.
  - apply Forall_replicate. by split_and!.
  - by rewrite length_replicate.
  - done.
  - rewrite omap_replicate_none by done. simpl. lia.
  - by rewrite omap_replicate_none.
Qed.

Lemma finished_started_length ts :
  Forall (λ t, ∃ c, t_phase t = Finished (Some c) (c <=? limit) None) ts →
  length (omap started_count ts) = length ts.
Proof.
  intros Hfin. apply length_omap_Some. eapply Forall_impl; [exact Hfin|].
  intros t [c Hc']. unfold started_count. rewrite Hc'. by eexists.
Qed.

(** The allowed calls among finished ones are those whose count is
    within the limit. *)
Lemma allowed_counts ts :
  Forall (λ t, ∃ c, t_phase t = Finished (Some c) (c <=? limit) None) ts →
  length (filter (λ t, allowed t = true) ts)
  = length (filter (λ c, c ≤ limit) (omap finished_count ts)).
Proof.
  induction 1 as [|t l [c Hc'] _ IH]; [done|].
  assert (Ha : allowed t = (c <=? limit)) by (unfold allowed; by rewrite Hc').
  assert (Hf : finished_count t = Some c) by (unfold finished_count; by rewrite Hc').
  change (omap finished_count (t :: l)) with
    (match finished_count t with Some y => y :: omap finished_count l | None => omap finished_count l end).
  rewrite Hf, !filter_cons, Ha.
  destruct (Z.leb_spec c limit); repeat case_decide; simpl; try lia.
Qed.

(** A call alone is [checkRateLimit]: its two store operations, run one
    after the other with nothing in between, give the verdict and the
    store of [checkRateLimit]. *)
Lemma thread_alone_checkRateLimit (s : St) id ip :
  let '(t1, s1) := thread_step (mkThread id ip Ready) s in
  let '(t2, s2) := thread_step t1 s1 in
  outcome (t_phase t2) = Some (checkRateLimit s id ip).1 ∧ s2 = (checkRateLimit s id ip).2.
Proof.
  unfold thread_step, checkRateLimit. simpl.
  destruct (cs_incr (rate_key id ip) s) as [[c|e] s1]; simpl; [|done].
  by destruct (c =? 1).
Qed.

(** ** Properties *)

(** C39: Concurrent calls are counted exactly.  For [n] calls of
    [checkRateLimit] for one (domain, client) pair on a healthy store at
    count [c], interleaved by any schedule that gives each call its two
    steps: every call finishes, the counts they see are [c+1 .. c+n] in
    some order (no two calls see the same count, none is lost), exactly as
    many are allowed as counts up to the limit, and the counter ends at
    [c+n]. *)
Theorem concurrent_calls_counts (s : St) id ip n sched :
  cs_healthy s → cs_count (rate_key id ip) s + Z.of_nat n < int64_max →
  (∀ i, (i < n)%nat → (2 ≤ List.count_occ Nat.eq_dec sched i)%nat) →
  let c0 := cs_count (rate_key id ip) s in
  let '(ts', s') := run sched (calls id ip n) s in
  Forall (λ t, ∃ c, t_phase t = Finished (Some c) (c <=? limit) None) ts' ∧
  omap finished_count ts' ≡ₚ map (λ k : nat, c0 + Z.of_nat k) (seq 1 n) ∧
  length (filter (λ t, allowed t = true) ts')
    = length (filter (λ k : nat, c0 + Z.of_nat k ≤ limit) (seq 1 n)) ∧
  cs_count (rate_key id ip) s' = c0 + Z.of_nat n.
Proof.
  intros Hh Hb Hsched c0.
  pose proof (inv_calls id ip n s Hh) as H0.
  pose proof (inv_run id ip c0 n sched _ _ Hb H0) as Hinv.
  pose proof (run_finishes id ip c0 n sched s Hb H0 Hsched) as Hfin.
  destruct (run sched (calls id ip n) s) as [ts' s']. simpl in *.
  destruct Hinv as [Hth Hlen Hh' Hc Hp].
  assert (Hsf : omap started_count ts' = omap finished_count ts').
  { apply omap_ext_Forall. eapply Forall_impl; [exact Hfin|]. intros t [c Hc'].
    unfold started_count, finished_count. by rewrite Hc'. }
  assert (Hln : length (omap started_count ts') = n)
    by (rewrite <- Hlen; by apply finished_started_length).
  rewrite Hln, Hsf in Hp. rewrite Hln in Hc.
  split_and!; [done | done | | done].
  pose proof (allowed_counts ts' Hfin) as Hal.
  rewrite Hal, Hp, length_filter_map. done.
Qed.

End Facts.

(** ** The window's deadline under interleaving, on the Redis store *)

Section Deadline.
Implicit Types (s : Redis.State).

Lemma inv_NoDup id ip n ts s :
  inv id ip 0 n ts s → NoDup (omap started_count ts).
Proof.
  intros [_ _ _ _ Hp]. rewrite Hp.
  apply NoDup_ListNoDup, NoDup_map_NoDup_ForallPairs; [intros ? ? ? ? ?; lia|].
  apply NoDup_ListNoDup, NoDup_seq.
Qed.

(** The call that opened the window is the only one with its EXPIRE
    pending. *)
Lemma opener_unique ts i t x :
  NoDup (omap started_count ts) → Forall (λ t, ∀ c, t_phase t = Incremented c → c = 1) ts →
  ts !! i = Some t → t_phase t = Incremented 1 → incremented x = false →
  existsb incremented (<[i:=x]> ts) = false.
Proof.
  intros Hnd Hop Hi Ht Hx. apply not_true_is_false. intros [y [Hin Hy]]%existsb_exists.
  apply list_elem_of_In, list_elem_of_lookup in Hin as [j Hj].
  destruct (decide (j = i)) as [->|Hne].
  { rewrite list_lookup_insert_eq in Hj by (by eapply lookup_lt_Some). simplify_eq. congruence. }
  rewrite list_lookup_insert_ne in Hj by done.
  unfold incremented in Hy. destruct (t_phase y) as [|c|] eqn:Hc; try done.
  pose proof (proj1 (Forall_lookup _ _) Hop j y Hj c Hc) as ->.
  apply Hne, (omap_NoDup_lookup started_count ts j i y t 1 Hnd Hj Hi);
    unfold started_count; by rewrite ?Hc, ?Ht.
Qed.

Lemma started_insert_cons ts i t x c :
  ts !! i = Some t → started_count x = Some c →
  ∃ y l, omap started_count (<[i:=x]> ts) = y :: l.
Proof.
  intros Hi Hx. destruct (omap started_count (<[i:=x]> ts)) as [|y l] eqn:E; [|by eauto].
  exfalso. refine (omap_lookup_cons started_count _ i x c _ Hx E).
  apply list_lookup_insert_eq. by eapply lookup_lt_Some.
Qed.

Lemma ttl_inv_step id ip n ts s i t t0 :
  Z.of_nat n < int64_max → inv id ip 0 n ts s → ttl_inv (rate_key id ip) t0 ts s → ts !! i = Some t →
  ttl_inv (rate_key id ip) t0 (<[i:=(thread_step t s).1]> ts) (thread_step t s).2.
Proof.
  intros Hb Hinv [Hnow Hop He] Hi. pose proof (inv_NoDup _ _ _ _ _ Hinv) as Hnd.
  destruct Hinv as [Hth Hlen Hh Hc _].
  destruct (proj1 (Forall_lookup _ _) Hth i t Hi) as (Hd & Hip & _).
  pose proof (proj1 (Forall_lookup _ _) Hop i t Hi) as Ho.
  unfold thread_step. rewrite Hd, Hip. cbn [cs_incr cs_expire redis_counter_store].
  set (k := rate_key id ip) in *.
  destruct (t_phase t) as [|c|c a e] eqn:Hph.
  - rewrite Redis.INCR_healthy_eq by exact Hh.
    destruct (omap started_count ts) as [|x l] eqn:Hm.
    + rewrite He. simpl. split; [done| |].
      * apply Forall_insert; [done|]. by intros ? [= ->].
      * destruct (started_insert_cons ts i t (set_phase t (Incremented 1)) 1 Hi eq_refl) as (y & l & ->).
        rewrite (existsb_insert_true _ _ i t) by done. exists 1. by apply Redis.get_live_insert_eq.
    + destruct He as [v Hv]. rewrite Hv.
      assert (Hvc : v = Z.of_nat (length (x :: l))).
      { rewrite redis_cs_count, (Redis.count_live _ _ _ Hv) in Hc. simpl in Hc |- *. lia. }
      pose proof (omap_length_le started_count ts) as Hle. rewrite Hm in Hle. simpl in Hvc, Hle.
      simpl. rewrite (proj2 (Z.eqb_neq v int64_max)), (proj2 (Z.eqb_neq (v + 1) 1)) by lia. simpl.
      split; [done| |].
      * apply Forall_insert; [done|]. by intros ? [=].
      * destruct (started_insert_cons ts i t (set_phase t (Finished (Some (v + 1)) (v + 1 <=? limit) None))
                    (v + 1) Hi eq_refl) as (y & l' & ->).
        rewrite (existsb_insert_false _ _ i t) by (unfold incremented; by rewrite ?Hph).
        exists (v + 1). apply Redis.get_live_insert_eq.
        destruct (Redis.get_live_Some _ _ _ Hv) as [Hl _]. done.
  - pose proof (Ho c Hph); subst c.
    destruct (omap started_count ts) as [|x l] eqn:Hm.
    { exfalso. refine (omap_lookup_cons started_count ts i t 1 Hi _ Hm). unfold started_count. by rewrite Hph. }
    destruct He as [v Hv]. rewrite (existsb_lookup_true incremented ts i t Hi) in Hv
      by (unfold incremented; by rewrite Hph).
    simpl. split; [by rewrite Redis.now_EXPIRE | |].
    + apply Forall_insert; [done|]. by intros ? [=].
    + destruct (started_insert_cons ts i t (set_phase t (Finished (Some 1) (1 <=? limit) None))
                  1 Hi eq_refl) as (y & l' & ->).
      rewrite <- Hm in Hnd. rewrite (opener_unique ts i t (set_phase t (Finished (Some 1) (1 <=? limit) None)) Hnd Hop Hi Hph eq_refl).
      exists v. rewrite (Redis.EXPIRE_live _ _ _ _ Hh Hv) by (unfold window; lia). by rewrite Hnow.
  - simpl. rewrite list_insert_id by (rewrite Hi; f_equal; destruct t; simpl in *; by subst).
    by split.
Qed.

Lemma ttl_inv_run id ip n sched ts s t0 :
  Z.of_nat n < int64_max → inv id ip 0 n ts s → ttl_inv (rate_key id ip) t0 ts s →
  ttl_inv (rate_key id ip) t0 (run sched ts s).1 (run sched ts s).2.
Proof.
  intros Hb. revert ts s. induction sched as [|i rest IH]; intros ts s H Ht; simpl; [done|].
  destruct (ts !! i) as [t|] eqn:Hi; [|by apply IH].
  pose proof (thread_inv_step id ip 0 n ts s i t ltac:(lia) H Hi) as H'.
  pose proof (ttl_inv_step id ip n ts s i t t0 Hb H Ht Hi) as Ht'.
  destruct (thread_step t s) as [t' s']. by apply IH.
Qed.

Lemma finished_not_incremented ts :
  Forall (λ t, ∃ c, t_phase t = Finished (Some c) (c <=? limit) None) ts →
  existsb incremented ts = false.
Proof.
  intros Hfin. apply not_true_is_false. intros [t [Hin Ht]]%existsb_exists.
  apply list_elem_of_In in Hin. destruct (proj1 (Forall_forall _ _) Hfin t Hin) as [c Hc].
  unfold incremented in Ht. by rewrite Hc in Ht.
Qed.

(** C38: The window opened by concurrent calls gets its deadline.  For
    [n > 0] calls of [checkRateLimit] for one (domain, client) pair on a
    healthy Redis whose key holds no live counter, interleaved by any
    schedule that gives each call its two steps: although the other calls'
    INCRs may come between the INCR that opened the window and its EXPIRE,
    the key ends as a live counter at [n] with the deadline [window]
    seconds after the calls. *)
Theorem concurrent_window_deadline s id ip n sched :
  Redis.healthy s → Redis.get_live (rate_key id ip) s = None → (0 < n)%nat →
  Z.of_nat n < int64_max →
  (∀ i, (i < n)%nat → (2 ≤ List.count_occ Nat.eq_dec sched i)%nat) →
  Redis.get_live (rate_key id ip) (run sched (calls id ip n) s).2
    = Some (Redis.mkEntry (Z.of_nat n) (Some (Redis.now s + window))).
Proof.
  intros Hh Hg Hn Hb Hsched.
  pose proof (inv_calls id ip n s Hh) as H0.
  rewrite redis_cs_count, (Redis.count_dead _ _ Hg) in H0.
  assert (T0 : ttl_inv (rate_key id ip) (Redis.now s) (calls id ip n) s).
  { split; [done | apply Forall_replicate; by intros ? ? |].
    unfold calls. by rewrite omap_replicate_none. }
  pose proof (inv_run id ip 0 n sched _ _ ltac:(lia) H0) as [_ Hlen _ Hc _].
  pose proof (ttl_inv_run id ip n sched _ _ _ Hb H0 T0) as [_ _ He].
  pose proof (run_finishes id ip 0 n sched s ltac:(lia) H0 Hsched) as Hfin.
  destruct (run sched (calls id ip n) s) as [ts' s']. simpl in *.
  pose proof (finished_started_length ts' Hfin) as Hln. rewrite Hlen in Hln.
  rewrite (finished_not_incremented ts' Hfin) in He.
  destruct (omap started_count ts') as [|x l]; simpl in Hln; [lia|].
  destruct He as [v Hv]. rewrite Hv.
  rewrite ?redis_cs_count, (Redis.count_live _ _ _ Hv) in Hc. simpl in Hc.
  by assert (v = Z.of_nat n) as -> by lia.
Qed.

End Deadline.

(** ** Witnesses *)

Local Abbreviation busy :=
  (Redis.mkState {[ rate_key 7 "198.51.100.4" := Redis.mkEntry 99 (Some 60) ]} 0 []).

Lemma concurrent_calls_counts_witness :
  cs_healthy busy ∧ cs_count (rate_key 7 "198.51.100.4") busy + Z.of_nat 3 < int64_max ∧
  (∀ i, (i < 3)%nat → (2 ≤ List.count_occ Nat.eq_dec [0; 1; 2; 2; 0; 1]%nat i)%nat) ∧
  (let c0 := cs_count (rate_key 7 "198.51.100.4") busy in
   let '(ts', s') := run [0; 1; 2; 2; 0; 1]%nat (calls 7 "198.51.100.4" 3) busy in
   Forall (λ t, ∃ c, t_phase t = Finished (Some c) (c <=? limit) None) ts' ∧
   omap finished_count ts' ≡ₚ map (λ k : nat, c0 + Z.of_nat k) (seq 1 3) ∧
   length (filter (λ t, allowed t = true) ts')
     = length (filter (λ k : nat, c0 + Z.of_nat k ≤ limit) (seq 1 3)) ∧
   cs_count (rate_key 7 "198.51.100.4") s' = c0 + Z.of_nat 3).
Proof.
  assert (Hs : ∀ i, (i < 3)%nat → (2 ≤ List.count_occ Nat.eq_dec [0; 1; 2; 2; 0; 1]%nat i)%nat)
    by (intros [|[|[|i]]] Hi; simpl; lia).
  refine (conj _ (conj _ (conj Hs _))); cycle 2.
  { apply (concurrent_calls_counts busy 7 "198.51.100.4" 3 [0; 1; 2; 2; 0; 1]%nat); [concrete | concrete | exact Hs]. }
  all: concrete.
Defined.

Lemma concurrent_window_deadline_witness :
  Redis.healthy (Redis.empty 0) ∧ Redis.get_live (rate_key 7 "198.51.100.4") (Redis.empty 0) = None ∧
  (0 < 3)%nat ∧ Z.of_nat 3 < int64_max ∧
  (∀ i, (i < 3)%nat → (2 ≤ List.count_occ Nat.eq_dec [0; 1; 2; 1; 2; 0]%nat i)%nat) ∧
  Redis.get_live (rate_key 7 "198.51.100.4")
    (run [0; 1; 2; 1; 2; 0]%nat (calls 7 "198.51.100.4" 3) (Redis.empty 0)).2
  = Some (Redis.mkEntry (Z.of_nat 3) (Some (Redis.now (Redis.empty 0) + window))).
Proof.
  assert (Hs : ∀ i, (i < 3)%nat → (2 ≤ List.count_occ Nat.eq_dec [0; 1; 2; 1; 2; 0]%nat i)%nat)
    by (intros [|[|[|i]]] Hi; simpl; lia).
  refine (conj _ (conj _ (conj _ (conj _ (conj Hs _))))); cycle 4.
  { apply (concurrent_window_deadline (Redis.empty 0) 7 "198.51.100.4" 3 [0; 1; 2; 1; 2; 0]%nat);
      [concrete | concrete | lia | concrete | exact Hs]. }
  all: concrete.
Defined.

End concurrent_facts.
